(** * Nutrition-facts label generator: value pipeline, layout, linear format

    A shallow embedding of [app.py]: the rounding and formatting utilities,
    the module-level calculations, the column solver of the vertical formats,
    the rich-text wrapper and [draw_fig5].

    The floats of the module are modelled as exact rationals ([Q]): finite
    values with exact arithmetic, so [round] rounds the exact value, ties to
    even.  Python's [==] on numbers is numeric equality, rendered as [Qeq].
    Python integers are [Z]; strings are byte strings in UTF-8.  The
    infinities, NaN, the negative zero and the conversion of an arbitrary int
    are in the part on every Python number, with the utilities on them.
    Where binary floating point rounds a product or a quotient the model
    keeps the exact value, so what is proved of the module's values concerns
    their order, their ranges and their shape, not their last bit. *)

From Stdlib Require Import ZArith QArith Qround Qabs Lia Lqa.
From Stdlib Require Import String Ascii DecimalString List Bool.
From stdpp Require Import gmap strings.

Open Scope Q_scope.

(** ** Numbers *)

(** A Python number: [int] or [float]. *)
Inductive num : Type :=
| PyInt (z : Z)
| PyFloat (q : Q).

(** The value of a number of the module as a float: a finite float itself,
    and an int that comes from a float exactly. *)
Definition to_float (v : num) : Q :=
  match v with
  | PyInt z => inject_Z z
  | PyFloat q => q
  end.

(** Python's [a == b] on numbers. *)
Definition num_eq (a b : num) : Prop := to_float a == to_float b.

(** [a < b] on floats. *)
Definition Qlt_bool (a b : Q) : bool := negb (Qle_bool b a).

(** Truthiness of a float, as in [x or 0.0]. *)
Definition or_zero (x : Q) : Q := if Qeq_bool x 0 then 0 else x.

(** [round(v)]: nearest integer, ties to the even one. *)
Definition py_round (v : Q) : Z :=
  let f := Qfloor v in
  match (v - inject_Z f ?= 1 # 2)%Q with
  | Lt => f
  | Gt => (f + 1)%Z
  | Eq => if Z.even f then f else (f + 1)%Z
  end.

(** [round(v, 1)] *)
Definition py_round1 (v : Q) : Q := inject_Z (py_round (v * 10)) / 10.

(** ** Utilities of the value pipeline *)

Definition kcal_from_macros (fat_g carb_g protein_g organic_acids_g alcohol_g : Q) : Q :=
  9 * or_zero fat_g + 4 * or_zero carb_g + 4 * or_zero protein_g
  + 7 * or_zero alcohol_g + 3 * or_zero organic_acids_g.

Definition portion_from_per100 (value_per100 portion_size : Q) : Q :=
  if negb (Qeq_bool portion_size 0) && Qlt_bool 0 portion_size
  then (value_per100 * portion_size) / 100
  else 0.

(** [round_kcal] on a finite float, which [float] returns unchanged. *)
Definition round_kcal (v : Q) : num :=
  if Qle_bool v 4 then PyInt 0 else PyFloat v.

(** [float(int(round(v, 0)))] is the nearest integer, as a float. *)
Definition round_g (v : Q) : Q :=
  let av := Qabs v in
  if Qle_bool 100 av then inject_Z (py_round v) else py_round1 v.

Definition round_mg (v_mg : Q) : Z :=
  if Qlt_bool v_mg 5 then 0%Z else py_round v_mg.

(** The [limits] dictionaries of [nonsig_zero_g] and [nonsig_zero_mg]. *)
Definition limits_g : gmap string Q :=
  <["Grasa saturada" := 1 # 10]>
  (<["Fibra dietaria" := 1 # 2]>
  (<["Grasa total" := 1 # 2]>
  (<["Proteína" := 1 # 2]>
  (<["Azúcares totales" := 1 # 2]>
  (<["Carbohidratos totales" := 1 # 2]> ∅))))).

Definition limits_mg : gmap string Q :=
  <["Sodio" := 5]> (<["Grasas trans" := 100]> ∅).

Definition nonsig_zero_g (name : string) (v : Q) : Q :=
  if Qle_bool v (default (-1) (limits_g !! name)) then 0 else v.

Definition nonsig_zero_mg (name : string) (v : Q) : num :=
  if Qle_bool v (default (-1) (limits_mg !! name)) then PyInt 0 else PyFloat v.

(** ** Rounding and non-significant amounts, column by column

    Each definition is the right-hand side of the module-level assignment of
    the same name, as a function of the raw value it reads. *)

(** Per 100 g / 100 mL. *)
Definition fat_total_100_r (fat_total_100 : Q) : Q :=
  round_g (nonsig_zero_g "Grasa total" fat_total_100).
Definition sat_fat_100_r (sat_fat_100 : Q) : Q :=
  round_g (nonsig_zero_g "Grasa saturada" sat_fat_100).
Definition carb_100_r (carb_100 : Q) : Q := round_g carb_100.
Definition sug_total_100_r (sug_total_100 : Q) : Q := round_g sug_total_100.
Definition sug_added_100_r (sug_added_100 : Q) : Q := round_g sug_added_100.
Definition fiber_100_r (fiber_100 : Q) : Q := round_g fiber_100.
Definition protein_100_r (protein_100 : Q) : Q := round_g protein_100.
Definition sodium_100_mg_r (sodium_100_mg : Q) : Z := round_mg sodium_100_mg.
Definition mono_fat_100_r (mono_fat_100 : Q) : Q := round_g mono_fat_100.
Definition poly_fat_100_r (poly_fat_100 : Q) : Q := round_g poly_fat_100.
Definition trans_fat_100_mg_r (trans_fat_100_mg : Q) : Z :=
  let _trans_g_100 := or_zero trans_fat_100_mg / 1000 in
  let _trans_g_100 := nonsig_zero_g "Grasas trans" _trans_g_100 in
  round_mg (_trans_g_100 * 1000).

(** Per portion; the argument is the unrounded per-portion value. *)
Definition fat_total_pp_r (fat_total_pp : Q) : Q :=
  round_g (nonsig_zero_g "Grasa total" fat_total_pp).
Definition sat_fat_pp_r (sat_fat_pp : Q) : Q :=
  round_g (nonsig_zero_g "Grasa saturada" sat_fat_pp).
Definition carb_pp_r (carb_pp : Q) : Q := round_g carb_pp.
Definition sug_total_pp_r (sug_total_pp : Q) : Q := round_g sug_total_pp.
Definition sug_added_pp_r (sug_added_pp : Q) : Q := round_g sug_added_pp.
Definition fiber_pp_r (fiber_pp : Q) : Q := round_g fiber_pp.
Definition protein_pp_r (protein_pp : Q) : Q := round_g protein_pp.
Definition sodium_pp_mg_r (sodium_pp_mg : Q) : Z := round_mg sodium_pp_mg.
Definition mono_fat_pp_r (mono_fat_pp : Q) : Q := round_g mono_fat_pp.
Definition poly_fat_pp_r (poly_fat_pp : Q) : Q := round_g poly_fat_pp.
Definition trans_fat_pp_mg_r (trans_fat_pp_mg : Q) : Z :=
  let _trans_g_pp := or_zero trans_fat_pp_mg / 1000 in
  round_mg (_trans_g_pp * 1000).

(** ** Strings *)

(** [s.rstrip(chars)] and [s.lstrip(chars)], the character set given as a
    predicate. *)
Fixpoint rstrip_by (p : ascii -> bool) (s : string) : string :=
  match s with
  | EmptyString => EmptyString
  | String a s' =>
      match rstrip_by p s' with
      | EmptyString => if p a then EmptyString else String a EmptyString
      | r => String a r
      end
  end.

Fixpoint lstrip_by (p : ascii -> bool) (s : string) : string :=
  match s with
  | EmptyString => EmptyString
  | String a s' => if p a then lstrip_by p s' else s
  end.

Definition rstrip (c : ascii) (s : string) : string := rstrip_by (Ascii.eqb c) s.

(** Whitespace of [str.strip()] within ASCII: tab, line feed, vertical tab,
    form feed, carriage return, the four separators 28-31 and the space. *)
Definition is_space (a : ascii) : bool :=
  let n := nat_of_ascii a in
  ((9 <=? n) && (n <=? 13) || (28 <=? n) && (n <=? 32))%nat.

Definition strip (s : string) : string := rstrip_by is_space (lstrip_by is_space s).

(** [x in l] for a list of strings. *)
Definition str_in (x : string) (l : list string) : bool :=
  existsb (String.eqb x) l.

(** [sep.join(l)] *)
Fixpoint join (sep : string) (l : list string) : string :=
  match l with
  | [] => ""
  | [x] => x
  | x :: rest => x +:+ sep +:+ join sep rest
  end.

(** [s.replace(old, "")] for a non-empty [old]: every non-overlapping
    occurrence, scanning from the left, is removed. *)
Fixpoint remove_all_fuel (fuel : nat) (old s : string) : string :=
  match fuel with
  | O => s
  | S fuel' =>
      if String.prefix old s
      then remove_all_fuel fuel' old
             (String.substring (String.length old)
                (String.length s - String.length old) s)
      else match s with
           | EmptyString => EmptyString
           | String a s' => String a (remove_all_fuel fuel' old s')
           end
  end.

Definition remove_all (old s : string) : string :=
  remove_all_fuel (S (String.length s)) old s.

(** [f"{z}"] for an integer. *)
Definition str_of_Z (z : Z) : string :=
  DecimalString.NilZero.string_of_int (Z.to_int z).

(** The digits of [n], left-padded with zeros to [width] characters. *)
Fixpoint zero_pad (width : nat) (s : string) : string :=
  match width with
  | O => s
  | S w => if (String.length s <=? w)%nat then zero_pad w ("0" +:+ s) else s
  end.

(** [f"{v:.Df}"]: [v] rounded to [D] decimals (ties to even), with the sign of
    [v] kept even when the digits are all zero. *)
Definition format_fixed (D : nat) (v : Q) : string :=
  let scale := (10 ^ Z.of_nat D)%Z in
  let scaled := py_round (Qabs v * inject_Z scale) in
  let sign := if Qlt_bool v 0 then "-" else "" in
  let int_part := str_of_Z (scaled / scale) in
  match D with
  | O => sign +:+ int_part
  | _ => sign +:+ int_part +:+ "." +:+ zero_pad D (str_of_Z (scaled mod scale))
  end.

(** [v.is_integer()] *)
Definition is_integer (v : Q) : bool := Qeq_bool (inject_Z (Qfloor v)) v.

(** ** Display formatting *)

Definition fmt_kcal (v : num) : string :=
  if Qeq_bool (to_float v) 0 then "0"
  else rstrip "." (rstrip "0" (format_fixed 1 (to_float v))).

Definition fmt_int (v : num) : string := str_of_Z (py_round (to_float v)).

Definition fmt_default_g (x : num) : string :=
  let x := to_float x in
  if is_integer x then str_of_Z (Qfloor x)
  else rstrip "." (rstrip "0" (format_fixed 1 x)).

Definition fmt_one_decimal (v : num) : string :=
  let v := to_float v in
  if is_integer v then str_of_Z (Qfloor v) else format_fixed 1 v.

Definition fmt_carbs_rule (v : num) : string :=
  let v := to_float v in
  if is_integer v then str_of_Z (Qfloor v) else format_fixed 1 v.

Definition fmt_micro_value (name unit : string) (v : num) : string :=
  let v := to_float v in
  let unit :=
    if String.eqb name "Vitamina A" then "µg ER"
    else if String.eqb name "Vitamina D" then "µg"
    else unit in
  if Qlt_bool (Qabs v) 1 then format_fixed 2 v +:+ " " +:+ unit
  else if Qlt_bool (Qabs v) 10 then format_fixed 1 v +:+ " " +:+ unit
  else if Qle_bool 100 (Qabs v) then str_of_Z (py_round v) +:+ " " +:+ unit
  else str_of_Z (py_round v) +:+ " " +:+ unit.

Definition fmt_art9 (value : num) (is_micro : bool) : string :=
  let v := to_float value in
  let av := Qabs v in
  if Qle_bool 1000 av then str_of_Z (py_round v)
  else if Qle_bool 100 av then str_of_Z (py_round v)
  else if Qle_bool 10 av then str_of_Z (py_round v)
  else if Qle_bool 1 av then rstrip "." (rstrip "0" (format_fixed 1 v))
  else if is_micro then format_fixed 2 v
  else format_fixed 1 v.

(** ** Style constants *)

Record font : Type := { font_size : Z; font_bold : bool }.

Definition get_font (size : Z) (bold : bool) : font :=
  {| font_size := size; font_bold := bold |}.

Definition BORDER_W : Z := 6.
Definition GRID_W : Z := 3.
Definition GRID_W_THICK : Z := 9.
Definition TEXT_COLOR : Z * Z * Z := (0, 0, 0)%Z.
Definition BG_WHITE : Z * Z * Z := (255, 255, 255)%Z.

Definition FONT_TITLE : font := get_font 46 true.
Definition FONT_LABEL : font := get_font 30 false.
Definition FONT_LABEL_B : font := get_font 30 true.
Definition FONT_LABEL_EMPH : font := get_font 39 false.
Definition FONT_LABEL_EMPH_B : font := get_font 39 true.
Definition FONT_SMALL : font := get_font 26 false.
Definition FONT_SMALL_B : font := get_font 26 true.
Definition FONT_SMALL_EMPH_B : font := get_font 33 true.
Definition FONT_MICRO : font := get_font 24 false.
Definition FONT_MICRO_B : font := get_font 24 true.

Definition ROW_H : Z := 64.
Definition ROW_H_MICRO : Z := 54.
Definition CELL_PAD_X : Z := 22.
Definition CELL_PAD_Y : Z := 18.

Definition column_labels (is_liquid : bool) : string * string :=
  (if negb is_liquid then "Por 100 g" else "Por 100 mL", "Por porción").

(** ** Drawing surface

    The canvas records what was drawn on it; the text metrics are those of the
    drawing library, a parameter of the layout code. *)

Inductive draw_op : Type :=
| DrawText (x y : Z) (text : string) (f : font)
| DrawRectangle (x0 y0 x1 y1 : Z) (width : Z).

Record Image : Type := { im_width : Z; im_height : Z; im_ops : list draw_op }.

(** A token's weight as the source writes it: a string ("emph", "bold"),
    [None], or a boolean. *)
Inductive flag : Type :=
| FlagStr (s : string)
| FlagNone
| FlagBool (b : bool).

Definition flag_eqb (a b : flag) : bool :=
  match a, b with
  | FlagStr s, FlagStr s' => String.eqb s s'
  | FlagNone, FlagNone => true
  | FlagBool x, FlagBool y => Bool.eqb x y
  | _, _ => false
  end.

Definition token : Type := string * flag.

Definition token_eqb (a b : token) : bool :=
  String.eqb (fst a) (fst b) && flag_eqb (snd a) (snd b).

(** The font a token of weight [b] is measured and drawn with. *)
Definition token_font (b : flag) : font :=
  match b with
  | FlagStr s =>
      if String.eqb s "emph" then FONT_SMALL_EMPH_B
      else if String.eqb s "bold" then FONT_SMALL_B
      else FONT_SMALL
  | _ => FONT_SMALL
  end.

Section Layout.

(** [draw.textbbox((0,0), text, font=font)]: left, top, right, bottom. *)
Variable textbbox : string -> font -> Z * Z * Z * Z.

Definition measure_text (text : string) (f : font) : Z * Z :=
  let '(l, t, r, b) := textbbox text f in ((r - l)%Z, (b - t)%Z).

(** *** Column solver of the vertical formats *)

Definition emphasised_labels : list string :=
  ["Grasa saturada"; "Grasas trans"; "Azúcares añadidos"; "Sodio"].

Definition name_w_step (INDENT_PX : Z) (name_w_max : Z) (li : string * Z) : Z :=
  let '(label, indent) := li in
  let f := if str_in (strip label) emphasised_labels
           then FONT_LABEL_EMPH_B else FONT_LABEL in
  let w := fst (measure_text (strip label) f) in
  let total_w := (w + indent * INDENT_PX)%Z in
  if (name_w_max <? total_w)%Z then total_w else name_w_max.

Definition value_w_step (w_max : Z) (t : string) : Z :=
  let w := fst (measure_text t FONT_LABEL) in
  if (w_max <? w)%Z then w else w_max.

Definition compute_cols_vertical (is_liquid : bool)
    (labels_with_indent : list (string * Z)) (v100_list vpp_list : list string)
    (W : Z) : list Z * Z :=
  let INDENT_PX := 28%Z in
  let name_w_max := fold_left (name_w_step INDENT_PX) labels_with_indent 0%Z in
  let v100_w_max := fold_left value_w_step v100_list 0%Z in
  let vpp_w_max := fold_left value_w_step vpp_list 0%Z in
  let '(col100_label, colpp_label) := column_labels is_liquid in
  let col100_w := fst (measure_text col100_label FONT_SMALL_B) in
  let colpp_w := fst (measure_text colpp_label FONT_SMALL_B) in
  let final_name_width := (name_w_max + 15 + GRID_W)%Z in
  let name_to_values_gap := 35%Z in
  let values_gap := 20%Z in
  let right_margin := 15%Z in
  let x0 := (BORDER_W + CELL_PAD_X)%Z in
  let x1 := (x0 + final_name_width + name_to_values_gap)%Z in
  let col100_width := (Z.max v100_w_max col100_w + 15)%Z in
  let x2 := (x1 + col100_width + values_gap)%Z in
  let colpp_width := (Z.max vpp_w_max colpp_w + 4)%Z in
  let x3 := (x2 + colpp_width + right_margin)%Z in
  let total_width_needed := x3 in
  let W := if (W <? total_width_needed)%Z
           then (total_width_needed + BORDER_W * 2)%Z else W in
  ([x0; x1; x2; x3], W).

(** Width a label row needs in the name column (its measured text plus its
    indentation), and the width of a value string. *)
Definition label_total_w (li : string * Z) : Z :=
  let f := if str_in (strip (fst li)) emphasised_labels
           then FONT_LABEL_EMPH_B else FONT_LABEL in
  (fst (measure_text (strip (fst li)) f) + snd li * 28)%Z.

Definition value_w (t : string) : Z := fst (measure_text t FONT_LABEL).

(** *** Rich-text wrapper of the linear format *)

Section RichText.

Variables (x : Z) (max_w : Z) (first_line_x : option Z).

Definition measure_tokens (tokens_list : list token) (is_first_line : bool) : Z :=
  let w_total :=
    fold_left (fun w_total (tb : token) =>
                 (w_total + fst (measure_text (fst tb) (token_font (snd tb))))%Z)
              tokens_list 0%Z in
  match first_line_x with
  | Some flx => if is_first_line then (w_total + (flx - x))%Z else w_total
  | None => w_total
  end.

(** [if current: lines.append(current)] *)
Definition append_current (lines : list (list token)) (current : list token)
  : list (list token) :=
  match current with
  | [] => lines
  | _ => lines ++ [current]
  end.

(** One turn of the loop that builds the lines; the state is
    ([lines], [current]). *)
Definition wrap_step (st : list (list token) * list token) (tb : token)
  : list (list token) * list token :=
  let '(lines, current) := st in
  if String.eqb (fst tb) "" then st
  else
    let is_first := (length lines =? 0)%nat in
    let tentative := current ++ [tb] in
    if (measure_tokens tentative is_first <=? max_w)%Z
    then (lines, tentative)
    else (append_current lines current, [tb]).

Definition wrap_lines (tokens : list token) : list (list token) :=
  let '(lines, current) := fold_left wrap_step tokens ([], []) in
  append_current lines current.

(** Measured width of one token and of a run of tokens, and the amount
    the first line is charged for its starting position. *)
Definition tok_w (tb : token) : Z :=
  fst (measure_text (fst tb) (token_font (snd tb))).

Definition line_w (l : list token) : Z :=
  fold_right (fun tb acc => (tok_w tb + acc)%Z) 0%Z l.

Definition first_line_offset : Z :=
  match first_line_x with
  | Some flx => (flx - x)%Z
  | None => 0%Z
  end.

Definition nonempty_text (tb : token) : bool := negb (String.eqb (fst tb) "").

(** Drawing one line from [cx]; returns the operations and the final pen
    position. *)
Definition draw_line_tokens (y : Z) (cx : Z) (line : list token)
  : list draw_op * Z :=
  fold_left (fun (acc : list draw_op * Z) (tb : token) =>
               let '(ops, cx) := acc in
               let f := token_font (snd tb) in
               let w := fst (measure_text (fst tb) f) in
               (ops ++ [DrawText cx y (fst tb) f], (cx + w)%Z))
            line ([], cx).

Fixpoint draw_lines (line_gap : Z) (i : nat) (y : Z) (lines : list (list token))
  : list draw_op * Z :=
  match lines with
  | [] => ([], y)
  | line :: rest =>
      let cx := match first_line_x with
                | Some flx => if (i =? 0)%nat then flx else x
                | None => x
                end in
      let ops := fst (draw_line_tokens y cx line) in
      let '(ops', y') := draw_lines line_gap (S i) (y + (font_size FONT_SMALL + line_gap))%Z rest in
      (ops ++ ops', y')
  end.

(** [draw_rich_wrapped_text(d, x, y, tokens, font_reg, font_bold, max_w,
    line_gap, first_line_x)]: the operations drawn on [d] and the [y]
    returned.  [font_reg] and [font_bold] are not read by the body. *)
Definition draw_rich_wrapped_text (y : Z) (tokens : list token)
    (font_reg font_bold : font) (line_gap : Z) : list draw_op * Z :=
  draw_lines line_gap 0 y (wrap_lines tokens).

End RichText.

End Layout.

(** ** The module namespace

    Functions read module-level names when they are called.  The namespace
    is the dictionary of the names the module has bound by then; reading a
    name that no statement has bound raises [NameError]. *)

Inductive pyval : Type :=
| VNum (n : num)
| VStr (s : string)
| VBool (b : bool)
| VList (l : list string)
| VDict (d : gmap (string * string) Q).

Inductive exn : Type :=
| NameError (name : string)
| TypeError (name : string).

Inductive result (A : Type) : Type :=
| Ok (a : A)
| Raise (e : exn).

Arguments Ok {A} a.
Arguments Raise {A} e.

(** Computations that read the namespace and may raise. *)
Definition M (A : Type) : Type := gmap string pyval -> result A.

Definition ret {A : Type} (a : A) : M A := fun _ => Ok a.

Definition bind {A B : Type} (m : M A) (k : A -> M B) : M B :=
  fun g => match m g with
           | Ok a => k a g
           | Raise e => Raise e
           end.

Notation "x <~ m ;; k" := (bind m (fun x => k))
  (at level 100, m at next level, right associativity).

Definition get_name (name : string) : M pyval :=
  fun g => match g !! name with
           | Some v => Ok v
           | None => Raise (NameError name)
           end.

Definition get_num (name : string) : M num :=
  v <~ get_name name ;;
  match v with VNum n => ret n | _ => fun _ => Raise (TypeError name) end.

Definition get_str (name : string) : M string :=
  v <~ get_name name ;;
  match v with VStr s => ret s | _ => fun _ => Raise (TypeError name) end.

Definition get_bool (name : string) : M bool :=
  v <~ get_name name ;;
  match v with VBool b => ret b | _ => fun _ => Raise (TypeError name) end.

Definition get_list (name : string) : M (list string) :=
  v <~ get_name name ;;
  match v with VList l => ret l | _ => fun _ => Raise (TypeError name) end.

Definition get_dict (name : string) : M (gmap (string * string) Q) :=
  v <~ get_name name ;;
  match v with VDict d => ret d | _ => fun _ => Raise (TypeError name) end.

(** Executing a sequence of assignments [name = value], first to last. *)
Fixpoint bind_names (l : list (string * pyval)) (g : gmap string pyval)
  : gmap string pyval :=
  match l with
  | [] => g
  | (name, v) :: rest => bind_names rest (<[name := v]> g)
  end.

(** The value the last assignment to [name] in [l] gives it. *)
Fixpoint last_bound (name : string) (l : list (string * pyval)) (acc : option pyval)
  : option pyval :=
  match l with
  | [] => acc
  | (k, v) :: rest => last_bound name rest (if String.eqb k name then Some v else acc)
  end.

(** ** The form

    What the Streamlit widgets return in one run.  Numeric text fields are
    given after [as_num], for a run in which every one of them holds a
    finite number: [as_num] also returns an infinity or NaN for the texts
    "inf" and "nan", and such a run is not a value of this record.
    [in_macro] and [in_vm] give the value typed in the field of a nutrient,
    which the module reads only when that nutrient is selected. *)
Record Inputs : Type := {
  in_format_choice : string;
  in_physical_state : string;
  in_household_name : string;
  in_household_mass : Q;
  in_servings_value : Q;
  in_servings_label : string;
  in_selected_macros : list string;
  in_selected_optional_fats : list string;
  in_selected_vm : list string;
  in_include_poly : bool;
  in_poly_100 : Q;
  in_macro : string -> Q;
  in_vm : string -> Q
}.

(** [sub in s] for strings. *)
Fixpoint str_contains (sub s : string) : bool :=
  String.prefix sub s ||
  match s with
  | EmptyString => false
  | String _ s' => str_contains sub s'
  end.

Definition macro_order : list string :=
  ["Grasa total"; "Grasa saturada"; "Grasas trans"; "Carbohidratos totales";
   "Fibra dietaria"; "Azúcares totales"; "Azúcares añadidos"; "Proteína"; "Sodio"].

Definition vm_options : list string :=
  ["Vitamina A"; "Vitamina D"; "Hierro"; "Calcio"; "Zinc";
   "Vitamina C"; "Vitamina B1"; "Vitamina E"; "Fósforo"; "Vitamina K"; "Yodo";
   "Magnesio"; "Niacina"; "Ácido pantoténico"; "Selenio"; "Vitamina B6"; "Cobre";
   "Riboflavina"; "Manganeso"; "Tiamina"; "Cromo"; "Folato"; "Molibdeno";
   "Biotina"; "Cloruro"; "Vitamina B12"].

Definition micro_order : list string :=
  ["Vitamina A"; "Vitamina D"; "Hierro"; "Calcio"; "Zinc"].

Definition mandatory_micros : list string :=
  ["Vitamina A"; "Vitamina D"; "Hierro"; "Calcio"; "Zinc"].

Definition vm_unit (name : string) : string :=
  if String.eqb name "Vitamina A" then "µg ER"
  else if String.eqb name "Vitamina D" then "µg" else "mg".

(** [for i, vm in enumerate(selected_vm): if i % 2 == parity: vm_values[...] = ...] *)
Definition fill_vm_values (i : Inputs) (parity : nat)
    (vm_values : gmap (string * string) Q) : gmap (string * string) Q :=
  fold_left
    (fun d (ivm : nat * string) =>
       if (fst ivm mod 2 =? parity)%nat
       then <[(snd ivm, vm_unit (snd ivm)) := in_vm i (snd ivm)]> d
       else d)
    (combine (seq 0 (length (in_selected_vm i))) (in_selected_vm i))
    vm_values.

(** The assignments of the module, from the sidebar to the end of the
    calculations, in source order.  Streamlit handles and the variables of
    module-level loops are left out: no function reads them. *)
Definition module_bindings (i : Inputs) : list (string * pyval) :=
  let F (q : Q) := VNum (PyFloat q) in
  let format_choice := in_format_choice i in
  let physical_state := in_physical_state i in
  let portion_unit := if str_contains "Sólido" physical_state then "g" else "mL" in
  let household_name := in_household_name i in
  let household_mass := in_household_mass i in
  let servings_value := in_servings_value i in
  let servings_label := in_servings_label i in
  let selected_macros := in_selected_macros i in
  let selected_optional_fats := in_selected_optional_fats i in
  let selected_vm := in_selected_vm i in
  let macros_not_declared :=
    List.filter (fun m => negb (str_in m selected_macros)) macro_order in
  let micros_not_declared :=
    List.filter (fun m => negb (str_in m selected_vm)) mandatory_micros in
  let footnote_items := macros_not_declared ++ micros_not_declared in
  let footnote_text :=
    match footnote_items with
    | [] => ""
    | _ => "No es fuente significativa de " +:+ join ", " footnote_items
    end in
  let include_poly := in_include_poly i in
  let poly_100 := if include_poly then in_poly_100 i else 0 in
  let servings_display :=
    if negb (String.eqb (strip servings_label) "") then strip servings_label
    else if Qlt_bool 0 servings_value then str_of_Z (py_round servings_value)
    else "0" in
  let macro_input (name : string) :=
    if str_in name selected_macros then in_macro i name else 0 in
  let fat_input (name : string) :=
    if str_in name selected_optional_fats then in_macro i name else 0 in
  let fat_total_100 := macro_input "Grasa total" in
  let sat_fat_100 := macro_input "Grasa saturada" in
  let trans_fat_100_mg := macro_input "Grasas trans" in
  let mono_fat_100 := fat_input "Grasa monoinsaturada" in
  let poly_fat_100 := fat_input "Grasa poliinsaturada" in
  let carb_100 := macro_input "Carbohidratos totales" in
  let sug_total_100 := macro_input "Azúcares totales" in
  let sug_added_100 := macro_input "Azúcares añadidos" in
  let fiber_100 := macro_input "Fibra dietaria" in
  let protein_100 := macro_input "Proteína" in
  let sodium_100_mg := macro_input "Sodio" in
  let vm_values := fill_vm_values i 1 (fill_vm_values i 0 ∅) in
  let portion_size := household_mass in
  let is_liquid := str_contains "Líquido" physical_state in
  let fat_total_pp := portion_from_per100 fat_total_100 portion_size in
  let sat_fat_pp := portion_from_per100 sat_fat_100 portion_size in
  let trans_fat_pp_mg := portion_from_per100 trans_fat_100_mg portion_size in
  let carb_pp := portion_from_per100 carb_100 portion_size in
  let sug_total_pp := portion_from_per100 sug_total_100 portion_size in
  let sug_added_pp := portion_from_per100 sug_added_100 portion_size in
  let fiber_pp := portion_from_per100 fiber_100 portion_size in
  let protein_pp := portion_from_per100 protein_100 portion_size in
  let sodium_pp_mg := portion_from_per100 sodium_100_mg portion_size in
  let mono_fat_pp := portion_from_per100 mono_fat_100 portion_size in
  let poly_fat_pp := portion_from_per100 poly_fat_100 portion_size in
  let kcal_100_raw := kcal_from_macros fat_total_100 carb_100 protein_100 0 0 in
  let kcal_pp_raw := kcal_from_macros fat_total_pp carb_pp protein_pp 0 0 in
  let kcal_100 := round_kcal kcal_100_raw in
  let kcal_pp := round_kcal kcal_pp_raw in
  let vm_values_rounded := vm_values in
  let vm_pp := (fun v100 => portion_from_per100 v100 portion_size) <$> vm_values in
  [ ("format_choice", VStr format_choice);
    ("physical_state", VStr physical_state);
    ("portion_unit", VStr portion_unit);
    ("household_name", VStr household_name);
    ("household_mass", F household_mass);
    ("servings_value", F servings_value);
    ("servings_label", VStr servings_label);
    ("macro_order", VList macro_order);
    ("selected_macros", VList selected_macros);
    ("selected_optional_fats", VList selected_optional_fats);
    ("vm_options", VList vm_options);
    ("selected_vm", VList selected_vm);
    ("micro_order", VList micro_order);
    ("mandatory_micros", VList mandatory_micros);
    ("macros_not_declared", VList macros_not_declared);
    ("micros_not_declared", VList micros_not_declared);
    ("footnote_items", VList footnote_items);
    ("footnote_text", VStr footnote_text);
    ("include_poly", VBool include_poly);
    ("poly_100", F poly_100);
    ("servings_display", VStr servings_display);
    ("fat_total_100", F fat_total_100);
    ("sat_fat_100", F sat_fat_100);
    ("trans_fat_100_mg", F trans_fat_100_mg);
    ("mono_fat_100", F mono_fat_100);
    ("poly_fat_100", F poly_fat_100);
    ("carb_100", F carb_100);
    ("sug_total_100", F sug_total_100);
    ("sug_added_100", F sug_added_100);
    ("fiber_100", F fiber_100);
    ("protein_100", F protein_100);
    ("sodium_100_mg", F sodium_100_mg);
    ("vm_values", VDict vm_values);
    ("portion_size", F portion_size);
    ("is_liquid", VBool is_liquid);
    ("fat_total_pp", F fat_total_pp);
    ("sat_fat_pp", F sat_fat_pp);
    ("trans_fat_pp_mg", F trans_fat_pp_mg);
    ("carb_pp", F carb_pp);
    ("sug_total_pp", F sug_total_pp);
    ("sug_added_pp", F sug_added_pp);
    ("fiber_pp", F fiber_pp);
    ("protein_pp", F protein_pp);
    ("sodium_pp_mg", F sodium_pp_mg);
    ("mono_fat_pp", F mono_fat_pp);
    ("poly_fat_pp", F poly_fat_pp);
    ("kcal_100_raw", F kcal_100_raw);
    ("kcal_pp_raw", F kcal_pp_raw);
    ("kcal_100", VNum kcal_100);
    ("kcal_pp", VNum kcal_pp);
    ("fat_total_100_r", F (fat_total_100_r fat_total_100));
    ("sat_fat_100_r", F (sat_fat_100_r sat_fat_100));
    ("carb_100_r", F (carb_100_r carb_100));
    ("sug_total_100_r", F (sug_total_100_r sug_total_100));
    ("sug_added_100_r", F (sug_added_100_r sug_added_100));
    ("fiber_100_r", F (fiber_100_r fiber_100));
    ("protein_100_r", F (protein_100_r protein_100));
    ("sodium_100_mg_r", VNum (PyInt (sodium_100_mg_r sodium_100_mg)));
    ("mono_fat_100_r", F (mono_fat_100_r mono_fat_100));
    ("poly_fat_100_r", F (poly_fat_100_r poly_fat_100));
    ("_trans_g_100", F (or_zero trans_fat_100_mg / 1000));
    ("_trans_g_100", F (nonsig_zero_g "Grasas trans" (or_zero trans_fat_100_mg / 1000)));
    ("trans_fat_100_mg_r", VNum (PyInt (trans_fat_100_mg_r trans_fat_100_mg)));
    ("fat_total_pp_r", F (fat_total_pp_r fat_total_pp));
    ("sat_fat_pp_r", F (sat_fat_pp_r sat_fat_pp));
    ("carb_pp_r", F (carb_pp_r carb_pp));
    ("sug_total_pp_r", F (sug_total_pp_r sug_total_pp));
    ("sug_added_pp_r", F (sug_added_pp_r sug_added_pp));
    ("fiber_pp_r", F (fiber_pp_r fiber_pp));
    ("protein_pp_r", F (protein_pp_r protein_pp));
    ("sodium_pp_mg_r", VNum (PyInt (sodium_pp_mg_r sodium_pp_mg)));
    ("mono_fat_pp_r", F (mono_fat_pp_r mono_fat_pp));
    ("poly_fat_pp_r", F (poly_fat_pp_r poly_fat_pp));
    ("_trans_g_pp", F (or_zero trans_fat_pp_mg / 1000));
    ("trans_fat_pp_mg_r", VNum (PyInt (trans_fat_pp_mg_r trans_fat_pp_mg)));
    ("vm_pp", VDict vm_pp);
    ("vm_values_rounded", VDict vm_values_rounded) ].

Definition module_globals (i : Inputs) : gmap string pyval :=
  bind_names (module_bindings i) ∅.

(** ** Linear format *)

Section Fig5.

Variable textbbox : string -> font -> Z * Z * Z * Z.

(** The local function [tokens_item(label, value, unit="", bold=False,
    emph=False)] of [draw_fig5]. *)
Definition tokens_item (label value unit : string) (bold emph : bool) : list token :=
  let flag := if emph then FlagStr "emph"
              else if bold then FlagStr "bold" else FlagNone in
  let toks := [(label, flag); (" ", flag); (value, flag)] in
  if negb (String.eqb unit "") then toks ++ [(" " +:+ unit, flag)] else toks.

(** [if name in selected_macros: tokens += tokens_item(name, fmt(<key>),
    unit, emph=emph) + [(", ", False)]] *)
Definition add_macro_item (name key : string) (fmt : num -> string)
    (unit : string) (emph : bool) (tokens : list token) : M (list token) :=
  selected_macros <~ get_list "selected_macros" ;;
  if str_in name selected_macros
  then v <~ get_num key ;;
       ret (tokens ++ tokens_item name (fmt v) unit false emph
                   ++ [(", ", FlagBool false)])
  else ret tokens.

(** [if include_poly: tokens += tokens_item("Polialcoholes",
    fmt_one_decimal(<key>), "g") + [(", ", False)]] *)
Definition add_poly_item (key : string) (tokens : list token) : M (list token) :=
  include_poly <~ get_bool "include_poly" ;;
  if include_poly
  then v <~ get_num key ;;
       ret (tokens ++ tokens_item "Polialcoholes" (fmt_one_decimal v) "g" false false
                   ++ [(", ", FlagBool false)])
  else ret tokens.

(** The loop over the five mandatory micronutrients, reading the dictionary
    bound to [dict_name] with [.get((name, unit), 0)]. *)
Fixpoint add_micro_items (dict_name : string) (names : list string)
    (tokens : list token) : M (list token) :=
  match names with
  | [] => ret tokens
  | name :: rest =>
      selected_vm <~ get_list "selected_vm" ;;
      if str_in name selected_vm
      then
        let unit := if String.eqb name "Vitamina A" then "µg ER"
                    else if String.eqb name "Vitamina D" then "µg" else "mg" in
        d <~ get_dict dict_name ;;
        let value := match d !! (name, unit) with
                     | Some q => PyFloat q
                     | None => PyInt 0
                     end in
        add_micro_items dict_name rest
          (tokens ++ [(name +:+ " " +:+ fmt_micro_value name unit value, FlagBool false);
                      (", ", FlagBool false)])
      else add_micro_items dict_name rest tokens
  end.

(** The tokens of the per-100 block. *)
Definition fig5_tokens_100 : M (list token) :=
  kcal_100 <~ get_num "kcal_100" ;;
  let tokens_100 :=
    tokens_item "Calorías" (fmt_kcal kcal_100) "kcal" false true
    ++ [(", ", FlagBool false)] in
  tokens_100 <~ add_macro_item "Grasa total" "fat_total_100_r" fmt_one_decimal "g" false tokens_100 ;;
  tokens_100 <~ add_macro_item "Grasa saturada" "sat_fat_100_r" fmt_one_decimal "g" true tokens_100 ;;
  tokens_100 <~ add_macro_item "Grasas trans" "trans_fat_100_mg_r" fmt_int "mg" true tokens_100 ;;
  tokens_100 <~ add_macro_item "Carbohidratos totales" "carb_100_r" fmt_carbs_rule "g" false tokens_100 ;;
  tokens_100 <~ add_macro_item "Fibra dietaria" "fiber_100_r" fmt_one_decimal "g" false tokens_100 ;;
  tokens_100 <~ add_poly_item "poly_100_r" tokens_100 ;;
  tokens_100 <~ add_macro_item "Azúcares totales" "sug_total_100_r" fmt_one_decimal "g" false tokens_100 ;;
  tokens_100 <~ add_macro_item "Azúcares añadidos" "sug_added_100_r" fmt_one_decimal "g" true tokens_100 ;;
  tokens_100 <~ add_macro_item "Proteína" "protein_100_r" fmt_one_decimal "g" false tokens_100 ;;
  tokens_100 <~ add_macro_item "Sodio" "sodium_100_mg_r" fmt_int "mg" true tokens_100 ;;
  add_micro_items "vm_values_rounded"
    ["Vitamina A"; "Vitamina D"; "Hierro"; "Calcio"; "Zinc"] tokens_100.

(** [if tokens_pp and tokens_pp[-1] == (", ", False): tokens_pp.pop()] *)
Definition pop_trailing_comma (tokens_pp : list token) : list token :=
  match last tokens_pp with
  | Some tb => if token_eqb tb (", ", FlagBool false)
               then removelast tokens_pp else tokens_pp
  | None => tokens_pp
  end.

(** The tokens of the per-portion block. *)
Definition fig5_tokens_pp : M (list token) :=
  household_name <~ get_str "household_name" ;;
  portion_size <~ get_num "portion_size" ;;
  portion_unit <~ get_str "portion_unit" ;;
  let tokens_pp :=
    [("Tamaño de porción:", FlagBool true);
     (" ", FlagBool false);
     (household_name +:+ " (" +:+ str_of_Z (py_round (to_float portion_size))
        +:+ " " +:+ portion_unit +:+ ")", FlagBool false);
     (", ", FlagBool false)] in
  servings_display <~ get_str "servings_display" ;;
  let tokens_pp :=
    tokens_pp ++
    [("Número de porciones por envase:", FlagBool true);
     (" ", FlagBool false);
     (servings_display, FlagBool false);
     (", ", FlagBool false)] in
  kcal_pp <~ get_num "kcal_pp" ;;
  let tokens_pp :=
    tokens_pp ++ tokens_item "Calorías" (fmt_kcal kcal_pp) "kcal" false true
    ++ [(", ", FlagBool false)] in
  tokens_pp <~ add_macro_item "Grasa total" "fat_total_pp_r" fmt_one_decimal "g" false tokens_pp ;;
  tokens_pp <~ add_macro_item "Grasa saturada" "sat_fat_pp_r" fmt_one_decimal "g" true tokens_pp ;;
  tokens_pp <~ add_macro_item "Grasas trans" "trans_fat_pp_mg_r" fmt_int "mg" true tokens_pp ;;
  tokens_pp <~ add_macro_item "Carbohidratos totales" "carb_pp_r" fmt_carbs_rule "g" false tokens_pp ;;
  tokens_pp <~ add_macro_item "Fibra dietaria" "fiber_pp_r" fmt_one_decimal "g" false tokens_pp ;;
  tokens_pp <~ add_poly_item "poly_pp_r" tokens_pp ;;
  tokens_pp <~ add_macro_item "Azúcares totales" "sug_total_pp_r" fmt_one_decimal "g" false tokens_pp ;;
  tokens_pp <~ add_macro_item "Azúcares añadidos" "sug_added_pp_r" fmt_one_decimal "g" true tokens_pp ;;
  tokens_pp <~ add_macro_item "Proteína" "protein_pp_r" fmt_one_decimal "g" false tokens_pp ;;
  tokens_pp <~ add_macro_item "Sodio" "sodium_pp_mg_r" fmt_int "mg" true tokens_pp ;;
  tokens_pp <~ add_micro_items "vm_pp"
    ["Vitamina A"; "Vitamina D"; "Hierro"; "Calcio"; "Zinc"] tokens_pp ;;
  let tokens_pp := pop_trailing_comma tokens_pp in
  footnote_text <~ get_str "footnote_text" ;;
  if negb (String.eqb (strip footnote_text) "")
  then ret (tokens_pp ++
            [(". ", FlagBool false);
             ("No es fuente significativa de ", FlagBool false);
             (remove_all "No es fuente significativa de " footnote_text,
              FlagBool false)])
  else ret tokens_pp.

Definition draw_fig5 : M Image :=
  let W := 1700%Z in
  let H := 400%Z in
  let x := (BORDER_W + CELL_PAD_X)%Z in
  let y := (BORDER_W + 20)%Z in
  let line_space := 42%Z in
  let max_line_width := (W - 2 * BORDER_W - 2 * CELL_PAD_X)%Z in
  (* Encabezado 100 g / 100 mL *)
  let label_main := "Información nutricional" in
  is_liquid <~ get_bool "is_liquid" ;;
  let label_unit := " (" +:+ (if is_liquid then "100 mL" else "100 g") +:+ "):" in
  let ops := [DrawText x y label_main FONT_SMALL_B] in
  let w_main := fst (measure_text textbbox label_main FONT_SMALL_B) in
  let ops := ops ++ [DrawText (x + w_main) y label_unit FONT_SMALL] in
  let w_unit := fst (measure_text textbbox label_unit FONT_SMALL) in
  let x_content := (x + w_main + w_unit + 10)%Z in
  tokens_100 <~ fig5_tokens_100 ;;
  let '(ops_100, y) :=
    draw_rich_wrapped_text textbbox x max_line_width (Some x_content)
      y tokens_100 FONT_SMALL FONT_SMALL_B 4 in
  let ops := ops ++ ops_100 in
  (* Encabezado por porción *)
  let label_main := "Información nutricional" in
  let label_unit := " (porción):" in
  let ops := ops ++ [DrawText x y label_main FONT_SMALL_B] in
  let w_main := fst (measure_text textbbox label_main FONT_SMALL_B) in
  let ops := ops ++ [DrawText (x + w_main) y label_unit FONT_SMALL] in
  let w_unit := fst (measure_text textbbox label_unit FONT_SMALL) in
  let x_content_pp := (x + w_main + w_unit + 10)%Z in
  tokens_pp <~ fig5_tokens_pp ;;
  let '(ops_pp, y) :=
    draw_rich_wrapped_text textbbox x max_line_width (Some x_content_pp)
      y tokens_pp FONT_SMALL FONT_SMALL_B 4 in
  let ops := ops ++ ops_pp in
  let H_final := (y + BORDER_W + 10)%Z in
  let ops := ops ++ [DrawRectangle 0 0 (W - 1) (H_final - 1) BORDER_W] in
  ret {| im_width := W; im_height := H_final; im_ops := ops |}.

End Fig5.

(** The form as it is first shown: every widget at the default value the
    source gives it, with the linear format chosen. *)
Definition default_macro (name : string) : Q :=
  if String.eqb name "Grasa total" then 13
  else if String.eqb name "Grasa saturada" then 6
  else if String.eqb name "Grasas trans" then 820
  else if String.eqb name "Carbohidratos totales" then 31
  else if String.eqb name "Azúcares totales" then 5
  else if String.eqb name "Azúcares añadidos" then 2
  else if String.eqb name "Fibra dietaria" then 8 # 10
  else if String.eqb name "Proteína" then 5
  else if String.eqb name "Sodio" then 560
  else 0.

Definition default_inputs (include_poly : bool) : Inputs :=
  {| in_format_choice := "Fig. 5 — Lineal";
     in_physical_state := "Sólido (g)";
     in_household_name := "1 unidad";
     in_household_mass := 40;
     in_servings_value := 0;
     in_servings_label := "";
     in_selected_macros := macro_order;
     in_selected_optional_fats := [];
     in_selected_vm := ["Vitamina A"; "Vitamina D"; "Hierro"; "Calcio"; "Zinc"];
     in_include_poly := include_poly;
     in_poly_100 := 0;
     in_macro := default_macro;
     in_vm := fun _ => 0 |}.

(** A fixed-pitch metric for examples: ten pixels per byte of text. *)
Definition fixed_pitch_bbox (t : string) (f : font) : Z * Z * Z * Z :=
  (0, 0, 10 * Z.of_nat (String.length t), font_size f)%Z.

From Stdlib Require Import DecimalPos.

(** ** Sample forms *)

(** The default form with the portion equivalence set to 0. *)
Definition zero_portion_inputs : Inputs :=
  {| in_format_choice := "Fig. 1 — Vertical estándar";
     in_physical_state := "Sólido (g)";
     in_household_name := "1 unidad";
     in_household_mass := 0;
     in_servings_value := 0;
     in_servings_label := "";
     in_selected_macros := macro_order;
     in_selected_optional_fats := [];
     in_selected_vm := ["Vitamina A"; "Vitamina D"; "Hierro"; "Calcio"; "Zinc"];
     in_include_poly := false;
     in_poly_100 := 0;
     in_macro := default_macro;
     in_vm := fun _ => 0 |}.

(** ** Shape of a formatted value *)

Fixpoint last_char (s : string) : option ascii :=
  match s with
  | EmptyString => None
  | String a EmptyString => Some a
  | String _ s' => last_char s'
  end.

Definition is_digit (c : ascii) : bool :=
  let n := nat_of_ascii c in ((48 <=? n) && (n <=? 57))%nat.

(** The string is not empty and its last character is a decimal digit. *)
Definition ends_with_digit (s : string) : bool :=
  match last_char s with
  | Some c => is_digit c
  | None => false
  end.

(** ** What the rich-text wrapper draws *)

(** The texts of the text operations of a drawing, in drawing order. *)
Definition drawn_texts (ops : list draw_op) : list string :=
  flat_map (fun o => match o with
                     | DrawText _ _ t _ => [t]
                     | DrawRectangle _ _ _ _ _ => []
                     end) ops.

(** Where line [i] of a wrapped block starts. *)
Definition line_start (x : Z) (first_line_x : option Z) (i : nat) : Z :=
  match first_line_x with
  | Some flx => if (i =? 0)%nat then flx else x
  | None => x
  end.

(** ** Footnote *)

(** [c in s] for a character. *)
Fixpoint str_mem (c : ascii) (s : string) : bool :=
  match s with
  | EmptyString => false
  | String a s' => Ascii.eqb a c || str_mem c s'
  end.

Definition footnote_prefix : string := "No es fuente significativa de ".

(** The undeclared mandatory nutrients, as the module lists them. *)
Definition undeclared (selected_macros selected_vm : list string) : list string :=
  List.filter (fun m => negb (str_in m selected_macros)) macro_order
  ++ List.filter (fun m => negb (str_in m selected_vm)) mandatory_micros.

(** ** Token streams of the linear format *)

Definition separator : token := (", ", FlagBool false).

(** The list ends with a separator that follows a token which is not one. *)
Definition well_separated (tokens : list token) : Prop :=
  exists body t, tokens = body ++ [t; separator] /\ token_eqb t separator = false.

(** [tokens] continues [init]. *)
Definition continues (init tokens : list token) : Prop :=
  exists rest, tokens = init ++ rest.

(** ** Rows of the vertical formats *)

(** A row: (label, value per 100, value per portion, indent, bold, is a
    micronutrient). *)
Record Row : Type := {
  row_label : string;
  row_v100 : string;
  row_vpp : string;
  row_indent : Z;
  row_bold : bool;
  row_micro : bool
}.

(** [if name in <selection>: rows.append((name, f"{fmt_art9(<key100>)} unit",
    f"{fmt_art9(<keypp>)} unit", indent, bold, False))] *)
Definition add_common_row (selection name key100 keypp unit : string)
    (indent : Z) (bold : bool) (rows : list Row) : M (list Row) :=
  selected <~ get_list selection ;;
  if str_in name selected
  then v100 <~ get_num key100 ;;
       vpp <~ get_num keypp ;;
       ret (rows ++ [{| row_label := name;
                        row_v100 := fmt_art9 v100 false +:+ " " +:+ unit;
                        row_vpp := fmt_art9 vpp false +:+ " " +:+ unit;
                        row_indent := indent;
                        row_bold := bold;
                        row_micro := false |}])
  else ret rows.

Definition common_rows : M (list Row) :=
  let rows := [] in
  rows <~ add_common_row "selected_macros" "Grasa total"
            "fat_total_100_r" "fat_total_pp_r" "g" 0 false rows ;;
  rows <~ add_common_row "selected_optional_fats" "Grasa monoinsaturada"
            "mono_fat_100_r" "mono_fat_pp_r" "g" 1 false rows ;;
  rows <~ add_common_row "selected_optional_fats" "Grasa poliinsaturada"
            "poly_fat_100_r" "poly_fat_pp_r" "g" 1 false rows ;;
  rows <~ add_common_row "selected_macros" "Grasa saturada"
            "sat_fat_100_r" "sat_fat_pp_r" "g" 1 true rows ;;
  rows <~ add_common_row "selected_macros" "Grasas trans"
            "trans_fat_100_mg_r" "trans_fat_pp_mg_r" "mg" 1 true rows ;;
  rows <~ add_common_row "selected_macros" "Carbohidratos totales"
            "carb_100_r" "carb_pp_r" "g" 0 false rows ;;
  rows <~ add_common_row "selected_macros" "Fibra dietaria"
            "fiber_100_r" "fiber_pp_r" "g" 1 false rows ;;
  rows <~ add_common_row "selected_macros" "Azúcares totales"
            "sug_total_100_r" "sug_total_pp_r" "g" 1 false rows ;;
  rows <~ add_common_row "selected_macros" "Azúcares añadidos"
            "sug_added_100_r" "sug_added_pp_r" "g" 2 true rows ;;
  rows <~ add_common_row "selected_macros" "Proteína"
            "protein_100_r" "protein_pp_r" "g" 0 false rows ;;
  add_common_row "selected_macros" "Sodio"
            "sodium_100_mg_r" "sodium_pp_mg_r" "mg" 0 true rows.

(** The order in which [common_rows] considers the nutrients, and whether
    the form declares one of them. *)
Definition row_order : list string :=
  ["Grasa total"; "Grasa monoinsaturada"; "Grasa poliinsaturada";
   "Grasa saturada"; "Grasas trans"; "Carbohidratos totales"; "Fibra dietaria";
   "Azúcares totales"; "Azúcares añadidos"; "Proteína"; "Sodio"].

Definition row_declared (i : Inputs) (name : string) : bool :=
  if str_in name ["Grasa monoinsaturada"; "Grasa poliinsaturada"]
  then str_in name (in_selected_optional_fats i)
  else str_in name (in_selected_macros i).

(** ** Vertical formats: environment and effects

    [micro_rows] iterates over the keys of a dictionary, so the vertical
    formats need, besides the content of the namespace, the insertion order
    of the keys of its dictionaries; they can also fail on a subscript. *)

Record env : Type := {
  names : gmap string pyval;
  key_order : string -> list (string * string)
}.

Inductive error : Type :=
| Namespace (e : exn)
| KeyError (key : string * string)
| IndexError.

Inductive outcome (A : Type) : Type :=
| Done (a : A)
| Failed (e : error).

Arguments Done {A} a.
Arguments Failed {A} e.

Definition V (A : Type) : Type := env -> outcome A.

Definition retV {A : Type} (a : A) : V A := fun _ => Done a.

Definition bindV {A B : Type} (m : V A) (k : A -> V B) : V B :=
  fun e => match m e with
           | Done a => k a e
           | Failed err => Failed err
           end.

Notation "x <~~ m ;; k" := (bindV m (fun x => k))
  (at level 100, m at next level, right associativity).

(** A computation that only reads the namespace. *)
Definition lift {A : Type} (m : M A) : V A :=
  fun e => match m (names e) with
           | Ok a => Done a
           | Raise x => Failed (Namespace x)
           end.

(** [d.keys()] for the dictionary bound to [name], in insertion order. *)
Definition dict_keys (name : string) : V (list (string * string)) :=
  d <~~ lift (get_dict name) ;;
  fun e => Done (List.filter (fun k => bool_decide (is_Some (d !! k)))
                             (key_order e name)).

(** [d[key]] for the dictionary bound to [name]. *)
Definition dict_item (name : string) (key : string * string) : V Q :=
  d <~~ lift (get_dict name) ;;
  fun _ => match d !! key with
           | Some v => Done v
           | None => Failed (KeyError key)
           end.

(** [col_x[n]] *)
Definition item (col_x : list Z) (n : nat) : V Z :=
  fun _ => match col_x !! n with
           | Some v => Done v
           | None => Failed IndexError
           end.

(** The keys of [vm_values] in insertion order: one pass over the selection
    for the even positions, a second one for the odd positions; a key that is
    already present keeps its place. *)
Definition vm_key_step (parity : nat) (ks : list (string * string))
    (ivm : nat * string) : list (string * string) :=
  if (fst ivm mod 2 =? parity)%nat
  then let key := (snd ivm, vm_unit (snd ivm)) in
       if bool_decide (key ∈ ks) then ks else ks ++ [key]
  else ks.

Definition fill_vm_keys (i : Inputs) (parity : nat)
    (keys : list (string * string)) : list (string * string) :=
  fold_left (vm_key_step parity)
    (combine (seq 0 (length (in_selected_vm i))) (in_selected_vm i))
    keys.

Definition vm_keys (i : Inputs) : list (string * string) :=
  fill_vm_keys i 1 (fill_vm_keys i 0 []).

(** The module's environment: [vm_values_rounded] and [vm_pp] are filled in
    one loop over [vm_values.items()], so the three dictionaries have their
    keys in the same order. *)
Definition module_env (i : Inputs) : env :=
  {| names := module_globals i;
     key_order := fun name =>
       if str_in name ["vm_values"; "vm_values_rounded"; "vm_pp"]
       then vm_keys i else [] |}.

(** ** Micronutrient rows *)

Definition micro_mandatory : list string :=
  ["Vitamina A"; "Vitamina D"; "Hierro"; "Calcio"; "Zinc"].

(** The last loop of [micro_rows]. *)
Fixpoint micro_rows_of (ordered : list (string * string)) (rows : list Row)
  : V (list Row) :=
  match ordered with
  | [] => retV rows
  | (name, unit) :: rest =>
      v100 <~~ dict_item "vm_values_rounded" (name, unit) ;;
      vpp <~~ dict_item "vm_pp" (name, unit) ;;
      micro_rows_of rest
        (rows ++ [{| row_label := name;
                     row_v100 := fmt_art9 (PyFloat v100) true +:+ " " +:+ unit;
                     row_vpp := fmt_art9 (PyFloat vpp) true +:+ " " +:+ unit;
                     row_indent := 0;
                     row_bold := false;
                     row_micro := true |}])
  end.

(** The first loop of [micro_rows]: [for m in mandatory: for (n, u) in
    vm_values_rounded.keys(): if n == m: ordered.append((n, u))]. *)
Fixpoint micro_mandatory_keys (mandatory : list string) (ordered : list (string * string))
  : V (list (string * string)) :=
  match mandatory with
  | [] => retV ordered
  | m :: rest =>
      keys <~~ dict_keys "vm_values_rounded" ;;
      micro_mandatory_keys rest
        (ordered ++ List.filter (fun k => String.eqb (fst k) m) keys)
  end.

Definition micro_rows : V (list Row) :=
  let mandatory := micro_mandatory in
  ordered <~~ micro_mandatory_keys mandatory [] ;;
  keys <~~ dict_keys "vm_values_rounded" ;;
  let ordered :=
    ordered ++ List.filter (fun k => negb (str_in (fst k) mandatory)) keys in
  micro_rows_of ordered [].

(** The names selected at the positions of a given parity, in order. *)
Definition at_parity (parity : nat) (l : list string) : list string :=
  map snd (List.filter (fun ivm : nat * string => (fst ivm mod 2 =? parity)%nat)
                       (combine (seq 0 (length l)) l)).

(** ** Drawing of the vertical formats *)

Inductive canvas_op : Type :=
| Drawn (o : draw_op)
| Line (x0 y0 x1 y1 : Z) (width : Z).

Definition draw_hline (x0 x1 y width : Z) : canvas_op := Line x0 y x1 y width.
Definition draw_vline (x y0 y1 width : Z) : canvas_op := Line x y0 x y1 width.

Definition text_op (x y : Z) (text : string) (f : font) : canvas_op :=
  Drawn (DrawText x y text f).

Record Picture : Type := {
  pic_width : Z;
  pic_height : Z;
  pic_ops : list canvas_op
}.

(** [s.split(' ')] *)
Fixpoint split_space (s : string) : list string :=
  match s with
  | EmptyString => [""]
  | String c s' =>
      if Ascii.eqb c " " then "" :: split_space s'
      else match split_space s' with
           | w :: ws => String c w :: ws
           | [] => [String c ""]
           end
  end.

Section Vertical.

Variable textbbox : string -> font -> Z * Z * Z * Z.

(** *** Footnote paragraph (the same statements in both vertical formats) *)

(** One turn of the word loop; the state is ([lines], [current_line]). *)
Definition footnote_step (max_line_width : Z)
    (st : list string * list string) (word : string) : list string * list string :=
  let '(lines, current_line) := st in
  let test_line := join " " (current_line ++ [word]) in
  let test_width := fst (measure_text textbbox test_line FONT_SMALL) in
  if (test_width <=? max_line_width)%Z
  then (lines, current_line ++ [word])
  else ((match current_line with
         | [] => lines
         | _ => lines ++ [join " " current_line]
         end), [word]).

Definition footnote_lines (max_line_width : Z) (base_text : string) : list string :=
  let words := split_space base_text in
  let '(lines, current_line) :=
    fold_left (footnote_step max_line_width) words ([], []) in
  match current_line with
  | [] => lines
  | _ => lines ++ [join " " current_line]
  end.

Fixpoint draw_footnote_lines (current_y : Z) (lines : list string) : list canvas_op :=
  match lines with
  | [] => []
  | line :: rest =>
      text_op (BORDER_W + CELL_PAD_X) current_y line FONT_SMALL
      :: draw_footnote_lines (current_y + (font_size FONT_SMALL + 6)) rest
  end.

(** [if footnote_text: ...] at the end of [draw_fig1] and [draw_fig3]. *)
Definition draw_footnote (W y : Z) : V (list canvas_op) :=
  footnote_text <~~ lift (get_str "footnote_text") ;;
  if negb (String.eqb footnote_text "")
  then
    let max_line_width := (W - 2 * BORDER_W - 2 * CELL_PAD_X)%Z in
    retV (draw_footnote_lines (y + 15) (footnote_lines max_line_width footnote_text))
  else retV [].

(** *** Calories block *)

Definition draw_calories_combined_row (W y : Z) (col_x : list Z)
    (kcal_100_txt kcal_pp_txt : string) : V (list canvas_op * Z) :=
  let row_h := (ROW_H * 2)%Z in
  let y_text_title := (y + ROW_H / 2 - 14)%Z in
  let ops := [text_op (BORDER_W + CELL_PAD_X) y_text_title "Calorías (kcal)"
                FONT_LABEL_EMPH_B] in
  is_liquid <~~ lift (get_bool "is_liquid") ;;
  let '(c100, cpp) := column_labels is_liquid in
  let w_c100 := fst (measure_text textbbox c100 FONT_SMALL_B) in
  let w_cpp := fst (measure_text textbbox cpp FONT_SMALL_B) in
  c1 <~~ item col_x 1 ;;
  c2 <~~ item col_x 2 ;;
  let x100_center := ((c1 + c2) / 2)%Z in
  c3 <~~ item col_x 3 ;;
  let xpp_center := ((c2 + c3) / 2)%Z in
  let ops := ops ++ [text_op (x100_center - w_c100 / 2) y_text_title c100 FONT_SMALL_B;
                     text_op (xpp_center - w_cpp / 2) y_text_title cpp FONT_SMALL_B;
                     draw_hline c1 (W - BORDER_W) (y + ROW_H) GRID_W] in
  let y_text_values := (y + ROW_H + ROW_H / 2 - 14)%Z in
  let w100 := fst (measure_text textbbox kcal_100_txt FONT_LABEL_EMPH_B) in
  let wpp := fst (measure_text textbbox kcal_pp_txt FONT_LABEL_EMPH_B) in
  let ops := ops ++ [text_op (x100_center - w100 / 2) y_text_values kcal_100_txt
                       FONT_LABEL_EMPH_B;
                     text_op (xpp_center - wpp / 2) y_text_values kcal_pp_txt
                       FONT_LABEL_EMPH_B] in
  retV (ops, (y + row_h)%Z).

(** *** Frame, title and portion lines (the same statements in both
    vertical formats) *)

Definition draw_header (W H header_h : Z) : V (list canvas_op * Z) :=
  let ops := [Drawn (DrawRectangle 0 0 (W - 1) (H - 1) BORDER_W)] in
  let title := "Información Nutricional" in
  let '(tw, th) := measure_text textbbox title FONT_TITLE in
  let ops := ops ++ [text_op ((W - tw) / 2) (BORDER_W + 15) title FONT_TITLE] in
  let y_line_title := (BORDER_W + 15 + th + 22)%Z in
  let ops := ops ++ [draw_hline BORDER_W (W - BORDER_W) y_line_title GRID_W] in
  let y0 := (y_line_title + 20)%Z in
  household_name <~~ lift (get_str "household_name") ;;
  portion_size <~~ lift (get_num "portion_size") ;;
  portion_unit <~~ lift (get_str "portion_unit") ;;
  let ops := ops ++ [text_op (BORDER_W + CELL_PAD_X) y0
                       ("Tamaño por porción: " +:+ household_name +:+ " ("
                        +:+ str_of_Z (py_round (to_float portion_size)) +:+ " "
                        +:+ portion_unit +:+ ")") FONT_SMALL] in
  servings_display <~~ lift (get_str "servings_display") ;;
  let ops := ops ++ [text_op (BORDER_W + CELL_PAD_X) (y0 + 35)
                       ("Número de porciones por envase: " +:+ servings_display)
                       FONT_SMALL] in
  let y_header_bottom := (BORDER_W + header_h)%Z in
  let ops := ops ++ [draw_hline BORDER_W (W - BORDER_W) y_header_bottom GRID_W_THICK] in
  retV (ops, y_header_bottom).

(** *** Nutrient rows

    [fig3] selects the per-portion centre of [draw_fig3], which uses the
    right border instead of [col_x[3]]. *)
Fixpoint draw_nutrient_rows (fig3 : bool) (W : Z) (col_x : list Z) (y : Z)
    (rows_nutri : list Row) : V (list canvas_op * Z) :=
  match rows_nutri with
  | [] => retV ([], y)
  | r :: rest =>
      let y := (y + 1)%Z in
      let ops := [draw_hline BORDER_W (W - BORDER_W) y GRID_W] in
      let font_lbl := if row_bold r then FONT_LABEL_EMPH_B else FONT_LABEL in
      let font_val := if row_bold r then FONT_LABEL_EMPH_B else FONT_LABEL in
      let x_label := (BORDER_W + CELL_PAD_X + row_indent r * 28)%Z in
      let y_text := (y + ROW_H / 2 - 14)%Z in
      let ops := ops ++ [text_op x_label y_text (row_label r) font_lbl] in
      let wv100 := fst (measure_text textbbox (row_v100 r) font_val) in
      let wvpp := fst (measure_text textbbox (row_vpp r) font_val) in
      c1 <~~ item col_x 1 ;;
      c2 <~~ item col_x 2 ;;
      let x100_center := ((c1 + c2) / 2)%Z in
      xpp_center <~~ (if fig3 then retV ((c2 + (W - BORDER_W)) / 2)%Z
                      else c3 <~~ item col_x 3 ;; retV ((c2 + c3) / 2)%Z) ;;
      let ops := ops ++ [text_op (x100_center - wv100 / 2) y_text (row_v100 r) font_val;
                         text_op (xpp_center - wvpp / 2) y_text (row_vpp r) font_val] in
      let y := (y + ROW_H)%Z in
      rest_result <~~ draw_nutrient_rows fig3 W col_x y rest ;;
      retV (ops ++ fst rest_result, snd rest_result)
  end.

Fixpoint draw_micro_rows (W : Z) (col_x : list Z) (y : Z) (rows_micro : list Row)
  : V (list canvas_op * Z) :=
  match rows_micro with
  | [] => retV ([], y)
  | r :: rest =>
      let y := (y + 1)%Z in
      let ops := [draw_hline BORDER_W (W - BORDER_W) y GRID_W] in
      let x_label := (BORDER_W + CELL_PAD_X + row_indent r * 28)%Z in
      let y_text := (y + ROW_H_MICRO / 2 - 12)%Z in
      let ops := ops ++ [text_op x_label y_text (row_label r) FONT_MICRO] in
      let wv100 := fst (measure_text textbbox (row_v100 r) FONT_MICRO) in
      let wvpp := fst (measure_text textbbox (row_vpp r) FONT_MICRO) in
      c1 <~~ item col_x 1 ;;
      c2 <~~ item col_x 2 ;;
      let x100_center := ((c1 + c2) / 2)%Z in
      c3 <~~ item col_x 3 ;;
      let xpp_center := ((c2 + c3) / 2)%Z in
      let ops := ops ++ [text_op (x100_center - wv100 / 2) y_text (row_v100 r) FONT_MICRO;
                         text_op (xpp_center - wvpp / 2) y_text (row_vpp r) FONT_MICRO] in
      let y := (y + ROW_H_MICRO)%Z in
      rest_result <~~ draw_micro_rows W col_x y rest ;;
      retV (ops ++ fst rest_result, snd rest_result)
  end.

(** The two vertical rules, drawn after the rows. *)
Definition draw_column_rules (col_x : list Z) (y_header_bottom y : Z)
  : V (list canvas_op) :=
  c1 <~~ item col_x 1 ;;
  c2 <~~ item col_x 2 ;;
  retV [draw_vline (c1 + GRID_W / 2) y_header_bottom y GRID_W;
        draw_vline (c2 + GRID_W / 2) y_header_bottom y GRID_W].

Definition draw_fig1 : V Picture :=
  rows_nutri <~~ lift common_rows ;;
  rows_micro <~~ micro_rows ;;
  let show_micro := (0 <? length rows_micro)%nat in
  let W := 580%Z in
  let header_h := 165%Z in
  let gap_after_title := 5%Z in
  footnote_text <~~ lift (get_str "footnote_text") ;;
  let foot_h := if negb (String.eqb (strip footnote_text) "") then 90%Z else 20%Z in
  let body_rows_h :=
    (Z.of_nat (length rows_nutri) * ROW_H
     + (if show_micro then Z.of_nat (length rows_micro) * ROW_H_MICRO else 0))%Z in
  let labels_all :=
    map (fun r => (row_label r, row_indent r)) rows_nutri
    ++ (if show_micro then map (fun r => (row_label r, row_indent r)) rows_micro
        else []) in
  let v100_all :=
    map row_v100 rows_nutri ++ (if show_micro then map row_v100 rows_micro else []) in
  let vpp_all :=
    map row_vpp rows_nutri ++ (if show_micro then map row_vpp rows_micro else []) in
  is_liquid <~~ lift (get_bool "is_liquid") ;;
  let '(col_x, W) :=
    compute_cols_vertical textbbox is_liquid labels_all v100_all vpp_all W in
  let H := (BORDER_W * 2 + header_h + gap_after_title + GRID_W_THICK
            + ROW_H * 2 + GRID_W_THICK + body_rows_h + GRID_W_THICK + foot_h)%Z in
  header <~~ draw_header W H header_h ;;
  let '(ops, y_header_bottom) := header in
  kcal_100 <~~ lift (get_num "kcal_100") ;;
  let kcal_100_txt := fmt_kcal kcal_100 in
  kcal_pp <~~ lift (get_num "kcal_pp") ;;
  let kcal_pp_txt := fmt_kcal kcal_pp in
  calories <~~ draw_calories_combined_row W (y_header_bottom + 1) col_x
                 kcal_100_txt kcal_pp_txt ;;
  let '(ops_cal, y) := calories in
  let ops := ops ++ ops_cal ++ [draw_hline BORDER_W (W - BORDER_W) y GRID_W_THICK] in
  nutrients <~~ draw_nutrient_rows false W col_x y rows_nutri ;;
  let '(ops_rows, y) := nutrients in
  let ops := ops ++ ops_rows in
  let ops := if show_micro
             then ops ++ [draw_hline BORDER_W (W - BORDER_W) y GRID_W_THICK]
             else ops in
  micros <~~ (if show_micro then draw_micro_rows W col_x y rows_micro
              else retV ([], y)) ;;
  let '(ops_micro, y) := micros in
  let ops := ops ++ ops_micro ++ [draw_hline BORDER_W (W - BORDER_W) y GRID_W_THICK] in
  rules <~~ draw_column_rules col_x y_header_bottom y ;;
  let ops := ops ++ rules in
  foot <~~ draw_footnote W y ;;
  retV {| pic_width := W; pic_height := H; pic_ops := ops ++ foot |}.

Definition draw_fig3 : V Picture :=
  rows_nutri <~~ lift common_rows ;;
  let W := 580%Z in
  let header_h := 165%Z in
  let gap_after_title := 5%Z in
  footnote_text <~~ lift (get_str "footnote_text") ;;
  let foot_h := if negb (String.eqb (strip footnote_text) "") then 90%Z else 20%Z in
  let body_rows_h := (Z.of_nat (length rows_nutri) * ROW_H)%Z in
  let labels_all := map (fun r => (row_label r, row_indent r)) rows_nutri in
  let v100_all := map row_v100 rows_nutri in
  let vpp_all := map row_vpp rows_nutri in
  is_liquid <~~ lift (get_bool "is_liquid") ;;
  let '(col_x, W) :=
    compute_cols_vertical textbbox is_liquid labels_all v100_all vpp_all W in
  let H := (BORDER_W * 2 + header_h + gap_after_title + GRID_W_THICK
            + ROW_H * 2 + GRID_W_THICK + body_rows_h + GRID_W_THICK + foot_h)%Z in
  header <~~ draw_header W H header_h ;;
  let '(ops, y_header_bottom) := header in
  kcal_100 <~~ lift (get_num "kcal_100") ;;
  let kcal_100_txt := fmt_int kcal_100 in
  kcal_pp <~~ lift (get_num "kcal_pp") ;;
  let kcal_pp_txt := fmt_int kcal_pp in
  calories <~~ draw_calories_combined_row W (y_header_bottom + 1) col_x
                 kcal_100_txt kcal_pp_txt ;;
  let '(ops_cal, y) := calories in
  let ops := ops ++ ops_cal ++ [draw_hline BORDER_W (W - BORDER_W) y GRID_W_THICK] in
  nutrients <~~ draw_nutrient_rows true W col_x y rows_nutri ;;
  let '(ops_rows, y) := nutrients in
  let ops := ops ++ ops_rows ++ [draw_hline BORDER_W (W - BORDER_W) y GRID_W_THICK] in
  rules <~~ draw_column_rules col_x y_header_bottom y ;;
  let ops := ops ++ rules in
  foot <~~ draw_footnote W y ;;
  retV {| pic_width := W; pic_height := H; pic_ops := ops ++ foot |}.

(** *** The preview: the format is chosen by the start of [format_choice] *)

Definition render : V (Picture + Image) :=
  format_choice <~~ lift (get_str "format_choice") ;;
  if String.prefix "Fig. 1" format_choice
  then img <~~ draw_fig1 ;; retV (inl img)
  else if String.prefix "Fig. 3" format_choice
  then img <~~ draw_fig3 ;; retV (inl img)
  else img <~~ lift (draw_fig5 textbbox) ;; retV (inr img).

End Vertical.

(** A line of two or more words measures at most the available width. *)
Definition footnote_line_fits (textbbox : string -> font -> Z * Z * Z * Z)
    (max_line_width : Z) (L : list string) : Prop :=
  (2 <= length L)%nat ->
  (fst (measure_text textbbox (join " " L) FONT_SMALL) <= max_line_width)%Z.

(** A form with three voluntary micronutrients after the five mandatory
    ones. *)
Definition voluntary_inputs : Inputs :=
  {| in_format_choice := "Fig. 1 — Vertical estándar";
     in_physical_state := "Sólido (g)";
     in_household_name := "1 unidad";
     in_household_mass := 40;
     in_servings_value := 0;
     in_servings_label := "";
     in_selected_macros := macro_order;
     in_selected_optional_fats := [];
     in_selected_vm := ["Vitamina A"; "Vitamina D"; "Hierro"; "Calcio"; "Zinc";
                        "Vitamina C"; "Vitamina B1"; "Vitamina E"];
     in_include_poly := false;
     in_poly_100 := 0;
     in_macro := default_macro;
     in_vm := fun _ => 0 |}.

(** A single plain row. *)
Definition protein_row : Row :=
  {| row_label := "Proteína"; row_v100 := "5 g"; row_vpp := "2 g";
     row_indent := 0; row_bold := false; row_micro := false |}.


(** * Every Python number

    The utilities above work on the values the module computes with: finite
    floats, and ints that come from them.  [as_num] also lets through the
    infinities and NaN ([float("inf")], [float("nan")]), a float can be the
    negative zero, and a function can be called with any int.  This part
    gives the utilities on all of them, with the exceptions they raise. *)

(** A float: a finite value, the negative zero, an infinity or NaN.  A zero
    under [Finite] is the positive zero. *)
Inductive pyfloat : Type :=
| Finite (q : Q)
| NegZero
| Infinite (negative : bool)
| NaN.

(** A number: [int] or [float]. *)
Inductive number : Type :=
| Int (z : Z)
| Float (x : pyfloat).

Inductive py_exn : Type :=
| OverflowError
| ValueError.

Inductive evaluation (A : Type) : Type :=
| Returns (a : A)
| Raises (e : py_exn).

Arguments Returns {A} a.
Arguments Raises {A} e.

Definition eval_bind {A B : Type} (m : evaluation A) (k : A -> evaluation B)
  : evaluation B :=
  match m with
  | Returns a => k a
  | Raises e => Raises e
  end.

Notation "x <-- m ;; k" := (eval_bind m (fun x => k))
  (at level 100, m at next level, right associativity).

(** The value of a float that has one. *)
Definition float_value (x : pyfloat) : option Q :=
  match x with
  | Finite q => Some q
  | NegZero => Some 0
  | Infinite _ => None
  | NaN => None
  end.

(** A finite float of the module, as a float. *)
Definition of_Q (q : Q) : pyfloat := Finite q.

(** An int or finite float of the module, as a number. *)
Definition of_num (v : num) : number :=
  match v with
  | PyInt z => Int z
  | PyFloat q => Float (Finite q)
  end.

(** ** Conversions *)

(** The double nearest to an integer: 53 significant bits, ties to the even
    significand. *)
Definition nearest_binary64 (z : Z) : Z :=
  let a := Z.abs z in
  let e := Z.max 0 (Z.log2 a - 52) in
  (Z.sgn z * (py_round (inject_Z a / inject_Z (2 ^ e)) * 2 ^ e))%Z.

(** [float(z)] for an int: the nearest double, [OverflowError] when it is out
    of range. *)
Definition float_of_int (z : Z) : evaluation pyfloat :=
  let r := nearest_binary64 z in
  if (2 ^ 1024 <=? Z.abs r)%Z then Raises OverflowError
  else Returns (Finite (inject_Z r)).

(** [float(v)] *)
Definition float_of (v : number) : evaluation pyfloat :=
  match v with
  | Int z => float_of_int z
  | Float x => Returns x
  end.

(** Truncation towards zero. *)
Definition Qtrunc (q : Q) : Z := if Qlt_bool q 0 then Qceiling q else Qfloor q.

(** [int(x)] *)
Definition int_of_float (x : pyfloat) : evaluation Z :=
  match x with
  | Finite q => Returns (Qtrunc q)
  | NegZero => Returns 0%Z
  | Infinite _ => Raises OverflowError
  | NaN => Raises ValueError
  end.

(** [round(x)]: an int. *)
Definition round_to_int (x : pyfloat) : evaluation Z :=
  match x with
  | Finite q => Returns (py_round q)
  | NegZero => Returns 0%Z
  | Infinite _ => Raises OverflowError
  | NaN => Raises ValueError
  end.

(** [round(x, D)]: a float; an infinity and NaN round to themselves, and a
    negative value that rounds to zero gives the negative zero. *)
Definition round_digits (D : nat) (x : pyfloat) : pyfloat :=
  match x with
  | Finite q =>
      let scale := inject_Z (10 ^ Z.of_nat D) in
      let r := inject_Z (py_round (q * scale)) / scale in
      if Qeq_bool r 0 && Qlt_bool q 0 then NegZero else Finite r
  | NegZero => NegZero
  | Infinite s => Infinite s
  | NaN => NaN
  end.

(** [abs(x)] *)
Definition float_abs (x : pyfloat) : pyfloat :=
  match x with
  | Finite q => Finite (Qabs q)
  | NegZero => Finite 0
  | Infinite _ => Infinite false
  | NaN => NaN
  end.

(** [x.is_integer()] *)
Definition float_is_integer (x : pyfloat) : bool :=
  match x with
  | Finite q => is_integer q
  | NegZero => true
  | Infinite _ => false
  | NaN => false
  end.

(** ** Comparisons

    Every comparison with NaN is false. *)

(** [x <= c], [x >= c] and [x > c] for a finite constant [c]. *)
Definition float_le (x : pyfloat) (c : Q) : bool :=
  match x with
  | Finite q => Qle_bool q c
  | NegZero => Qle_bool 0 c
  | Infinite negative => negative
  | NaN => false
  end.

Definition float_ge (x : pyfloat) (c : Q) : bool :=
  match x with
  | Finite q => Qle_bool c q
  | NegZero => Qle_bool c 0
  | Infinite negative => negb negative
  | NaN => false
  end.

Definition float_gt (x : pyfloat) (c : Q) : bool :=
  match x with
  | Finite q => Qlt_bool c q
  | NegZero => Qlt_bool c 0
  | Infinite negative => negb negative
  | NaN => false
  end.

(** [x == y] on floats. *)
Definition float_eq (x y : pyfloat) : bool :=
  match x, y with
  | NaN, _ => false
  | _, NaN => false
  | Infinite s, Infinite t => Bool.eqb s t
  | Infinite _, _ => false
  | _, Infinite _ => false
  | Finite p, Finite q => Qeq_bool p q
  | Finite p, NegZero => Qeq_bool p 0
  | NegZero, Finite q => Qeq_bool 0 q
  | NegZero, NegZero => true
  end.

(** [a == b] on numbers: an int and a float are compared by their exact
    values. *)
Definition number_eq (a b : number) : bool :=
  match a, b with
  | Int x, Int y => (x =? y)%Z
  | Int z, Float x =>
      match float_value x with
      | Some q => Qeq_bool (inject_Z z) q
      | None => false
      end
  | Float x, Int z =>
      match float_value x with
      | Some q => Qeq_bool q (inject_Z z)
      | None => false
      end
  | Float x, Float y => float_eq x y
  end.

(** ** Formatting *)

(** [f"{x:.Df}"] *)
Definition format_float (D : nat) (x : pyfloat) : string :=
  match x with
  | Finite q => format_fixed D q
  | NegZero => "-" +:+ format_fixed D 0
  | Infinite false => "inf"
  | Infinite true => "-inf"
  | NaN => "nan"
  end.

(** ** The utilities *)

(** [round_kcal]: a value that [float] rejects gives 0. *)
Definition round_kcal_py (v : number) : number :=
  match float_of v with
  | Raises _ => Int 0
  | Returns v => if float_le v 4 then Int 0 else Float v
  end.

(** [round_g].  The int of [int(round(v, 0))] comes from a float of magnitude
    100 or more, which a float holds exactly, so [float] gives it back
    unchanged. *)
Definition round_g_py (v : pyfloat) : evaluation pyfloat :=
  let av := float_abs v in
  if float_ge av 100
  then n <-- int_of_float (round_digits 0 v) ;; Returns (Finite (inject_Z n))
  else Returns (round_digits 1 v).

(** [fmt_kcal]: [f"{v:.1f}"] converts an int to a float first. *)
Definition fmt_kcal_py (v : number) : evaluation string :=
  if number_eq v (Int 0) then Returns "0"
  else x <-- float_of v ;;
       Returns (rstrip "." (rstrip "0" (format_float 1 x))).

Definition fmt_int_py (v : number) : string :=
  match (x <-- float_of v ;; round_to_int x) with
  | Returns n => str_of_Z n
  | Raises _ => "0"
  end.

Definition fmt_default_g_py (x : number) : evaluation string :=
  match float_of x with
  | Raises _ => Returns "0"
  | Returns x =>
      if float_is_integer x
      then n <-- int_of_float x ;; Returns (str_of_Z n)
      else Returns (rstrip "." (rstrip "0" (format_float 1 x)))
  end.

Definition fmt_one_decimal_py (v : number) : evaluation string :=
  match float_of v with
  | Raises _ => Returns "0"
  | Returns v =>
      if float_is_integer v
      then n <-- int_of_float v ;; Returns (str_of_Z n)
      else Returns (format_float 1 v)
  end.

Definition fmt_carbs_rule_py (v : number) : evaluation string :=
  match float_of v with
  | Raises _ => Returns "0"
  | Returns v =>
      if float_is_integer v
      then n <-- int_of_float v ;; Returns (str_of_Z n)
      else Returns (format_float 1 v)
  end.

Definition fmt_art9_py (value : number) (is_micro : bool) : evaluation string :=
  match float_of value with
  | Raises _ => Returns "0"
  | Returns v =>
      let av := float_abs v in
      if float_ge av 1000 then n <-- round_to_int v ;; Returns (str_of_Z n)
      else if float_ge av 100 then n <-- round_to_int v ;; Returns (str_of_Z n)
      else if float_ge av 10 then n <-- round_to_int v ;; Returns (str_of_Z n)
      else if float_ge av 1 then Returns (rstrip "." (rstrip "0" (format_float 1 v)))
      else if is_micro then Returns (format_float 2 v)
      else Returns (format_float 1 v)
  end.

(** The largest of 0 and the widths [w] gives to the elements of [l]. *)
Definition widest {A : Type} (w : A -> Z) (l : list A) : Z :=
  fold_right (fun e m => Z.max (w e) m) 0%Z l.

(** The call returns a string that ends with a decimal digit. *)
Definition digit_ended (r : evaluation string) : Prop :=
  exists s, r = Returns s /\ ends_with_digit s = true.

(** * Properties *)

(** *** Facts about [py_round] *)

Lemma py_round_cases (v : Q) :
  let f := Qfloor v in
  (v - inject_Z f < 1 # 2 /\ py_round v = f) \/
  (1 # 2 < v - inject_Z f /\ py_round v = (f + 1)%Z) \/
  (v - inject_Z f == 1 # 2 /\ py_round v = if Z.even f then f else (f + 1)%Z).
Proof.
  intros f. unfold py_round. fold f.
  destruct (Qcompare_spec (v - inject_Z f) (1 # 2)) as [He | Hl | Hg].
  - right; right; split; [exact He | reflexivity].
  - left; split; [exact Hl | reflexivity].
  - right; left; split; [exact Hg | reflexivity].
Qed.

Lemma py_round_comp (a b : Q) : a == b -> py_round a = py_round b.
Proof.
  intros Hab. unfold py_round.
  rewrite (Qfloor_comp _ _ Hab).
  assert (Hc : (a - inject_Z (Qfloor b) ?= 1 # 2) = (b - inject_Z (Qfloor b) ?= 1 # 2)).
  { apply Qcompare_comp; [rewrite Hab; reflexivity | reflexivity]. }
  rewrite Hc. reflexivity.
Qed.

Lemma py_round_inject_Z (z : Z) : py_round (inject_Z z) = z.
Proof.
  destruct (py_round_cases (inject_Z z)) as [[_ H] | [[H _] | [H _]]];
    rewrite Qfloor_Z in *.
  - exact H.
  - exfalso. lra.
  - exfalso. lra.
Qed.

Lemma py_round_near (v : Q) :
  inject_Z (py_round v) - (1 # 2) <= v /\ v <= inject_Z (py_round v) + (1 # 2).
Proof.
  pose proof (Qfloor_le v) as Hlo. pose proof (Qlt_floor v) as Hhi.
  rewrite inject_Z_plus in Hhi. change (inject_Z 1) with 1 in Hhi.
  destruct (py_round_cases v) as [[H ->] | [[H ->] | [H ->]]].
  - split; lra.
  - rewrite inject_Z_plus. change (inject_Z 1) with 1. split; lra.
  - destruct (Z.even (Qfloor v));
      [| rewrite inject_Z_plus; change (inject_Z 1) with 1]; split; lra.
Qed.

Lemma py_round_ge (z : Z) (v : Q) : inject_Z z <= v -> (z <= py_round v)%Z.
Proof.
  intros Hz. apply Qfloor_resp_le in Hz. rewrite Qfloor_Z in Hz.
  destruct (py_round_cases v) as [[_ ->] | [[_ ->] | [_ ->]]];
    try destruct (Z.even (Qfloor v)); lia.
Qed.

Lemma py_round_le (z : Z) (v : Q) : v <= inject_Z z -> (py_round v <= z)%Z.
Proof.
  intros Hz.
  destruct (Qle_lt_or_eq _ _ Hz) as [Hlt | Heq].
  - assert (Hf : (Qfloor v < z)%Z).
    { rewrite Zlt_Qlt. eapply Qle_lt_trans; [apply Qfloor_le | exact Hlt]. }
    destruct (py_round_cases v) as [[_ ->] | [[_ ->] | [_ ->]]];
      try destruct (Z.even (Qfloor v)); lia.
  - rewrite (py_round_comp _ _ Heq), py_round_inject_Z. lia.
Qed.

(** *** Milligram rounding *)

(** C10: [round_mg] yields 0 or an integer that is at least 5. *)
Theorem round_mg_zero_or_ge_5 (v : Q) : round_mg v = 0%Z \/ (5 <= round_mg v)%Z.
Proof.
  unfold round_mg, Qlt_bool.
  destruct (Qle_bool 5 v) eqn:Hle; simpl.
  - right. apply Qle_bool_iff in Hle. apply py_round_ge. exact Hle.
  - left. reflexivity.
Qed.

Lemma round_mg_below_5 (v : Q) : v < 5 -> round_mg v = 0%Z.
Proof.
  intros Hlt. unfold round_mg, Qlt_bool.
  destruct (Qle_bool 5 v) eqn:Hle; [| reflexivity].
  apply Qle_bool_iff in Hle. exfalso. lra.
Qed.

(** *** Gram rounding *)

Lemma Qabs_inject_Z (z : Z) : Qabs (inject_Z z) = inject_Z (Z.abs z).
Proof. reflexivity. Qed.

Lemma Qabs_ge_cases (v c : Q) : c <= Qabs v -> c <= v \/ v <= - c.
Proof.
  intros H. destruct (Qlt_le_dec v 0) as [Hneg | Hpos].
  - right. rewrite Qabs_neg in H by lra. lra.
  - left. rewrite Qabs_pos in H by lra. exact H.
Qed.

Lemma Qabs_lt_bounds (v c : Q) : Qabs v < c -> - c < v /\ v < c.
Proof.
  intros H. destruct (Qlt_le_dec v 0) as [Hneg | Hpos].
  - rewrite Qabs_neg in H by lra. split; lra.
  - rewrite Qabs_pos in H by lra. split; lra.
Qed.

Lemma Qle_bool_false_lt (a b : Q) : Qle_bool a b = false -> b < a.
Proof.
  intros H. apply Qnot_le_lt. intros Hc. apply Qle_bool_iff in Hc. congruence.
Qed.

Lemma round_g_whole (v : Q) :
  100 <= Qabs v ->
  round_g v = inject_Z (py_round v) /\ (100 <= Z.abs (py_round v))%Z.
Proof.
  intros H. unfold round_g.
  assert (Hb : Qle_bool 100 (Qabs v) = true) by (apply Qle_bool_iff; exact H).
  rewrite Hb. split; [reflexivity |].
  destruct (Qabs_ge_cases _ _ H) as [Hp | Hn].
  - pose proof (py_round_ge 100 v Hp). lia.
  - pose proof (py_round_le (-100) v Hn). lia.
Qed.

Lemma round_g_tenth (v : Q) :
  Qabs v < 100 ->
  round_g v = inject_Z (py_round (v * 10)) / 10 /\
  (-1000 <= py_round (v * 10) <= 1000)%Z.
Proof.
  intros H. unfold round_g, py_round1.
  assert (Hb : Qle_bool 100 (Qabs v) = false).
  { destruct (Qle_bool 100 (Qabs v)) eqn:E; [| reflexivity].
    apply Qle_bool_iff in E. exfalso. lra. }
  rewrite Hb. split; [reflexivity |].
  destruct (Qabs_lt_bounds _ _ H) as [Hlo Hhi].
  split.
  - apply py_round_ge. change (inject_Z (-1000)) with (-1000). lra.
  - apply py_round_le. change (inject_Z 1000) with 1000. lra.
Qed.

Lemma round_g_fix_whole (n : Z) :
  (100 <= Z.abs n)%Z -> round_g (inject_Z n) = inject_Z n.
Proof.
  intros Hn. unfold round_g. rewrite Qabs_inject_Z.
  assert (Hb : Qle_bool 100 (inject_Z (Z.abs n)) = true).
  { apply Qle_bool_iff. change 100 with (inject_Z 100). rewrite <- Zle_Qle. exact Hn. }
  rewrite Hb, py_round_inject_Z. reflexivity.
Qed.

Lemma round_g_fix_tenth (m : Z) :
  (-1000 <= m <= 1000)%Z -> round_g (inject_Z m / 10) == inject_Z m / 10.
Proof.
  intros Hm. unfold round_g, py_round1.
  assert (Hten : inject_Z m / 10 * 10 == inject_Z m) by (field).
  destruct (Qle_bool 100 (Qabs (inject_Z m / 10))) eqn:Hb.
  - apply Qle_bool_iff in Hb.
    assert (Hq : inject_Z m / 10 == inject_Z (m / 10)).
    { destruct (Qabs_ge_cases _ _ Hb) as [Hp | Hn].
      - assert (Hm' : (1000 <= m)%Z).
        { rewrite Zle_Qle. change (inject_Z 1000) with 1000. lra. }
        assert (m = 1000%Z) by lia. subst m. reflexivity.
      - assert (Hm' : (m <= -1000)%Z).
        { rewrite Zle_Qle. change (inject_Z (-1000)) with (-1000). lra. }
        assert (m = (-1000)%Z) by lia. subst m. reflexivity. }
    rewrite (py_round_comp _ _ Hq), py_round_inject_Z. symmetry. exact Hq.
  - rewrite (py_round_comp _ _ Hten), py_round_inject_Z. reflexivity.
Qed.

Lemma round_g_finite (v : Q) :
  (100 <= Qabs v ->
     exists n : Z, round_g v = inject_Z n /\ Qabs (v - inject_Z n) <= 1 # 2) /\
  (Qabs v < 100 ->
     exists m : Z, round_g v = inject_Z m / 10 /\
                   Qabs (v - inject_Z m / 10) <= 1 # 20) /\
  round_g (round_g v) == round_g v.
Proof.
  split; [| split].
  - intros H. destruct (round_g_whole v H) as [-> _].
    exists (py_round v). split; [reflexivity |].
    destruct (py_round_near v). apply Qabs_Qle_condition. split; lra.
  - intros H. destruct (round_g_tenth v H) as [-> _].
    exists (py_round (v * 10)). split; [reflexivity |].
    destruct (py_round_near (v * 10)). apply Qabs_Qle_condition.
    assert (Hd : inject_Z (py_round (v * 10)) / 10 * 10 == inject_Z (py_round (v * 10)))
      by field.
    split; lra.
  - destruct (Qlt_le_dec (Qabs v) 100) as [Hlt | Hge].
    + destruct (round_g_tenth v Hlt) as [-> Hm]. apply round_g_fix_tenth. exact Hm.
    + destruct (round_g_whole v Hge) as [-> Hn]. rewrite round_g_fix_whole by exact Hn.
      reflexivity.
Qed.

(** *** Non-significant amounts *)

Lemma nonsig_zero_g_at_threshold :
  nonsig_zero_g "Fibra dietaria" (1 # 2) = 0 /\
  nonsig_zero_g "Fibra dietaria" (51 # 100) = 51 # 100.
Proof. split; reflexivity. Qed.

(** C1: with 80 mg of trans fat per 100 the declared per-100 value is 80, not
    0: [nonsig_zero_g] has no entry for "Grasas trans", so nothing is zeroed
    before [round_mg]; the table that holds the 100 mg limit is the one of
    [nonsig_zero_mg].  The per-portion value, 32 mg raw for a 40 g portion,
    is rounded directly to 32. *)
Theorem trans_fat_100_mg_r_at_80 :
  trans_fat_100_mg_r 80 = 80%Z /\
  limits_g !! "Grasas trans" = None /\
  nonsig_zero_mg "Grasas trans" 80 = PyInt 0 /\
  portion_from_per100 80 40 == 32 /\
  trans_fat_pp_mg_r (portion_from_per100 80 40) = 32%Z /\
  trans_fat_pp_mg_r (portion_from_per100 80 40) = round_mg 32.
Proof. repeat split; vm_compute; reflexivity. Qed.

(** C3: a raw per-100 value of 0.3 g of total carbohydrate, total sugars,
    protein or dietary fibre is declared as 0.3 g, although the table of
    [nonsig_zero_g] maps it to 0; only total fat and saturated fat pass
    through [nonsig_zero_g] before rounding. *)
Theorem nonsig_not_applied_at_03 :
  carb_100_r (3 # 10) == 3 # 10 /\
  sug_total_100_r (3 # 10) == 3 # 10 /\
  protein_100_r (3 # 10) == 3 # 10 /\
  fiber_100_r (3 # 10) == 3 # 10 /\
  nonsig_zero_g "Carbohidratos totales" (3 # 10) = 0 /\
  nonsig_zero_g "Azúcares totales" (3 # 10) = 0 /\
  nonsig_zero_g "Proteína" (3 # 10) = 0 /\
  nonsig_zero_g "Fibra dietaria" (3 # 10) = 0 /\
  fat_total_100_r (3 # 10) == 0 /\
  sat_fat_100_r (1 # 10) == 0.
Proof. repeat split; vm_compute; reflexivity. Qed.

(** C6: at exactly 5 mg of sodium the declared value is 5, per 100 and per
    portion alike: the only test on the way is [v_mg < 5] in [round_mg], and
    [nonsig_zero_mg], whose table has the inclusive limit, is not called. *)
Theorem sodium_at_5_mg :
  sodium_100_mg_r 5 = 5%Z /\
  sodium_pp_mg_r 5 = 5%Z /\
  nonsig_zero_mg "Sodio" 5 = PyInt 0.
Proof. repeat split; vm_compute; reflexivity. Qed.

Lemma sodium_below_5_mg (v : Q) :
  v < 5 -> sodium_100_mg_r v = 0%Z /\ sodium_pp_mg_r v = 0%Z.
Proof. intros H. split; apply round_mg_below_5; exact H. Qed.

(** *** Display formatting *)

Example format_fixed_samples :
  format_fixed 1 (-4 # 100) = "-0.0" /\
  format_fixed 2 (5 # 1000) = "0.00" /\
  format_fixed 2 (1234567 # 1000) = "1234.57" /\
  str_of_Z (-12) = "-12".
Proof. repeat split; reflexivity. Qed.

Example string_samples :
  remove_all "ab" "xabyabab" = "xy" /\
  strip "  a b " = "a b" /\
  join ", " ["a"; "b"; "c"] = "a, b, c" /\
  rstrip "." (rstrip "0" "10.0") = "10".
Proof. repeat split; reflexivity. Qed.

Lemma fmt_art9_796_is_not_8_0 :
  fmt_art9 (PyFloat (796 # 100)) false <> "8.0".
Proof. vm_compute. discriminate. Qed.

Lemma fmt_art9_table (value : num) (is_micro : bool) :
  let v := to_float value in
  (10 <= Qabs v -> fmt_art9 value is_micro = str_of_Z (py_round v)) /\
  (1 <= Qabs v -> Qabs v < 10 ->
   fmt_art9 value is_micro = rstrip "." (rstrip "0" (format_fixed 1 v))) /\
  (Qabs v < 1 ->
   fmt_art9 value is_micro = format_fixed (if is_micro then 2 else 1) v).
Proof.
  intros v. unfold fmt_art9. fold v.
  destruct (Qle_bool 1000 (Qabs v)) eqn:H1000;
    [apply Qle_bool_iff in H1000 | apply Qle_bool_false_lt in H1000];
  destruct (Qle_bool 100 (Qabs v)) eqn:H100;
    [apply Qle_bool_iff in H100 | apply Qle_bool_false_lt in H100
    |apply Qle_bool_iff in H100 | apply Qle_bool_false_lt in H100];
  destruct (Qle_bool 10 (Qabs v)) eqn:H10;
    try (apply Qle_bool_iff in H10); try (apply Qle_bool_false_lt in H10);
  destruct (Qle_bool 1 (Qabs v)) eqn:H1;
    try (apply Qle_bool_iff in H1); try (apply Qle_bool_false_lt in H1);
  repeat split; intros; try reflexivity; try (exfalso; lra).
  destruct is_micro; reflexivity.
Qed.

(** C5 (amended): at the four sample points [fmt_art9] gives "0.00", "0.0",
    "8" and "150".  In general a value of magnitude 10 or more is printed as
    the nearest integer; one of magnitude in [1, 10) with one decimal, then
    without trailing zeros and without a trailing point; a smaller one with
    two decimals for a micronutrient and one otherwise, nothing stripped. *)
Theorem fmt_art9_sample_points :
  (fmt_art9 (PyFloat (4 # 1000)) true = "0.00" /\
   fmt_art9 (PyFloat (4 # 1000)) false = "0.0" /\
   fmt_art9 (PyFloat (796 # 100)) false = "8" /\
   fmt_art9 (PyInt 150) false = "150") /\
  forall (value : num) (is_micro : bool),
    let v := to_float value in
    (10 <= Qabs v -> fmt_art9 value is_micro = str_of_Z (py_round v)) /\
    (1 <= Qabs v -> Qabs v < 10 ->
     fmt_art9 value is_micro = rstrip "." (rstrip "0" (format_fixed 1 v))) /\
    (Qabs v < 1 ->
     fmt_art9 value is_micro = format_fixed (if is_micro then 2 else 1) v).
Proof.
  split.
  - repeat split; vm_compute; reflexivity.
  - apply fmt_art9_table.
Qed.

(** *** Column solver *)

Section ColumnSolver.

Variable textbbox : string -> font -> Z * Z * Z * Z.

Lemma fold_left_running_max {A : Type} (g : A -> Z) (l : list A) (a : Z) :
  let r := fold_left (fun acc e => if (acc <? g e)%Z then g e else acc) l a in
  (a <= r)%Z /\ forall e, In e l -> (g e <= r)%Z.
Proof.
  revert a. induction l as [| e l IH]; intros a; simpl.
  - split; [lia | intros e []].
  - destruct (IH (if (a <? g e)%Z then g e else a)) as [Hlo Hall].
    destruct (Z.ltb_spec a (g e)) as [Hlt | Hge].
    + split; [lia |]. intros e' [<- | Hin]; [exact Hlo | apply Hall; exact Hin].
    + split; [lia |]. intros e' [<- | Hin]; [lia | apply Hall; exact Hin].
Qed.

Lemma name_w_step_max (acc : Z) (li : string * Z) :
  name_w_step textbbox 28 acc li =
  if (acc <? label_total_w textbbox li)%Z then label_total_w textbbox li else acc.
Proof. destruct li as [label indent]. reflexivity. Qed.

Lemma fold_name_w (l : list (string * Z)) (a : Z) :
  fold_left (name_w_step textbbox 28) l a =
  fold_left (fun acc e => if (acc <? label_total_w textbbox e)%Z then label_total_w textbbox e else acc) l a.
Proof.
  revert a. induction l as [| e l IH]; intros a; simpl; [reflexivity |].
  rewrite name_w_step_max. apply IH.
Qed.

Lemma fold_left_widest {A : Type} (w : A -> Z) (l : list A) (a : Z) :
  (0 <= a)%Z ->
  fold_left (fun acc e => if (acc <? w e)%Z then w e else acc) l a
  = Z.max a (widest w l).
Proof.
  revert a. induction l as [| e l IH]; intros a Ha; cbn [fold_left widest fold_right].
  - lia.
  - fold (widest w l). destruct (Z.ltb_spec a (w e)); rewrite IH by lia; lia.
Qed.

(** C8: the name column is as wide as the widest label (with its indent, and
    0 at least), each value column as wide as the widest of its values and
    its header; the offsets are the left margin 28, then the name column
    plus 15 + 3 and the gap 35, then the first value column plus 15 and the
    gap 20, then the second value column plus 4 and the margin 15, so they
    increase strictly; and the returned width is the nominal one when the
    last offset fits in it and the last offset plus both borders
    otherwise. *)
Theorem compute_cols_vertical_layout (is_liquid : bool)
    (labels_with_indent : list (string * Z)) (v100_list vpp_list : list string)
    (W : Z) :
  exists name_w col100 colpp x0 x1 x2 x3 W',
    compute_cols_vertical textbbox is_liquid labels_with_indent v100_list vpp_list W
      = ([x0; x1; x2; x3], W') /\
    (* the widths are those of the widest contents *)
    (name_w = widest (label_total_w textbbox) labels_with_indent /\
     col100 = Z.max (widest (value_w textbbox) v100_list)
                    (fst (measure_text textbbox (fst (column_labels is_liquid)) FONT_SMALL_B)) /\
     colpp = Z.max (widest (value_w textbbox) vpp_list)
                   (fst (measure_text textbbox (snd (column_labels is_liquid)) FONT_SMALL_B))) /\
    (* column contents *)
    (0 <= name_w /\ forall li, In li labels_with_indent -> label_total_w textbbox li <= name_w)%Z /\
    (0 <= col100 /\ (forall t, In t v100_list -> value_w textbbox t <= col100) /\
     fst (measure_text textbbox (fst (column_labels is_liquid)) FONT_SMALL_B) <= col100)%Z /\
    (0 <= colpp /\ (forall t, In t vpp_list -> value_w textbbox t <= colpp) /\
     fst (measure_text textbbox (snd (column_labels is_liquid)) FONT_SMALL_B) <= colpp)%Z /\
    (* offsets and fixed gaps *)
    (x0 = BORDER_W + CELL_PAD_X /\
     x1 = x0 + (name_w + 15 + GRID_W) + 35 /\
     x2 = x1 + (col100 + 15) + 20 /\
     x3 = x2 + (colpp + 4) + 15)%Z /\
    (x0 < x1 /\ x1 < x2 /\ x2 < x3)%Z /\
    (* resolved width *)
    (x3 <= W' /\ W <= W' /\
     (x3 <= W -> W' = W) /\ (W < x3 -> W' = x3 + 2 * BORDER_W))%Z.
Proof.
  unfold compute_cols_vertical.
  destruct (column_labels is_liquid) as [col100_label colpp_label] eqn:Hcl.
  cbn [fst snd].
  rewrite fold_name_w.
  pose proof (fold_left_running_max (label_total_w textbbox) labels_with_indent 0) as [Hn0 Hn].
  pose proof (fold_left_running_max (value_w textbbox) v100_list 0) as [Hv0 Hv].
  pose proof (fold_left_running_max (value_w textbbox) vpp_list 0) as [Hp0 Hp].
  change (fold_left (value_w_step textbbox)) with
    (fold_left (fun acc e => if (acc <? value_w textbbox e)%Z then value_w textbbox e else acc)).
  set (name_w := fold_left _ labels_with_indent 0%Z) in *.
  set (v100_w := fold_left _ v100_list 0%Z) in *.
  set (vpp_w := fold_left _ vpp_list 0%Z) in *.
  set (h100 := fst (measure_text textbbox col100_label FONT_SMALL_B)).
  set (hpp := fst (measure_text textbbox colpp_label FONT_SMALL_B)).
  exists name_w, (Z.max v100_w h100), (Z.max vpp_w hpp).
  do 5 eexists. split; [reflexivity |].
  split.
  { unfold name_w, v100_w, vpp_w, h100, hpp. rewrite !fold_left_widest by lia.
    assert (H0 : forall (A : Type) (w : A -> Z) (l : list A), (0 <= widest w l)%Z).
    { intros A w l. induction l as [| e l IH]; cbn [widest fold_right]; [lia |].
      fold (widest w l). lia. }
    pose proof (H0 _ (label_total_w textbbox) labels_with_indent).
    pose proof (H0 _ (value_w textbbox) v100_list).
    pose proof (H0 _ (value_w textbbox) vpp_list).
    repeat split; lia. }
  unfold BORDER_W, CELL_PAD_X, GRID_W.
  repeat split; try lia.
  - exact Hn.
  - intros t Ht. specialize (Hv t Ht). lia.
  - intros t Ht. specialize (Hp t Ht). lia.
  - destruct (Z.ltb_spec W (6 + 22 + (name_w + 15 + 3) + 35 + (Z.max v100_w h100 + 15) + 20
                             + (Z.max vpp_w hpp + 4) + 15)); lia.
  - destruct (Z.ltb_spec W (6 + 22 + (name_w + 15 + 3) + 35 + (Z.max v100_w h100 + 15) + 20
                             + (Z.max vpp_w hpp + 4) + 15)); lia.
  - destruct (Z.ltb_spec W (6 + 22 + (name_w + 15 + 3) + 35 + (Z.max v100_w h100 + 15) + 20
                             + (Z.max vpp_w hpp + 4) + 15)); lia.
  - destruct (Z.ltb_spec W (6 + 22 + (name_w + 15 + 3) + 35 + (Z.max v100_w h100 + 15) + 20
                             + (Z.max vpp_w hpp + 4) + 15)); lia.
Qed.

End ColumnSolver.

(** *** Rich-text wrapper *)

Section RichTextProps.

Variable textbbox : string -> font -> Z * Z * Z * Z.
Variables (x max_w : Z) (first_line_x : option Z).

Hypothesis width_nonneg : forall t f, (0 <= fst (measure_text textbbox t f))%Z.

Local Abbreviation mtok := (measure_tokens textbbox x first_line_x).
Local Abbreviation tw := (tok_w textbbox).
Local Abbreviation lw := (line_w textbbox).
Local Abbreviation off := (first_line_offset x first_line_x).
Local Abbreviation step := (wrap_step textbbox x max_w first_line_x).
Local Abbreviation wrap := (wrap_lines textbbox x max_w first_line_x).
Local Abbreviation run := (fold_left (wrap_step textbbox x max_w first_line_x)).

Lemma fold_widths_acc (l : list token) (a : Z) :
  fold_left (fun w (tb : token) =>
               (w + fst (measure_text textbbox (fst tb) (token_font (snd tb))))%Z) l a
  = (a + lw l)%Z.
Proof.
  revert a. induction l as [| tb l IH]; intros a; simpl; [lia |].
  rewrite IH. unfold tok_w. lia.
Qed.

Lemma measure_tokens_eq (l : list token) (b : bool) :
  mtok l b = (lw l + if b then off else 0)%Z.
Proof.
  unfold measure_tokens, first_line_offset. rewrite fold_widths_acc.
  destruct first_line_x, b; lia.
Qed.

Lemma line_w_app (l1 l2 : list token) : lw (l1 ++ l2) = (lw l1 + lw l2)%Z.
Proof. induction l1 as [| tb l1 IH]; simpl; [reflexivity | rewrite IH; lia]. Qed.

Lemma tok_w_nonneg (tb : token) : (0 <= tw tb)%Z.
Proof. apply width_nonneg. Qed.

Lemma line_w_nonneg (l : list token) : (0 <= lw l)%Z.
Proof.
  induction l as [| tb l IH]; simpl; [lia |].
  pose proof (tok_w_nonneg tb). lia.
Qed.

Lemma line_w_single (tb : token) : lw [tb] = tw tb.
Proof. simpl. lia. Qed.

(** The three outcomes of one turn of the loop. *)
Lemma wrap_step_skip (st : list (list token) * list token) (tb : token) :
  nonempty_text tb = false -> step st tb = st.
Proof.
  unfold nonempty_text, wrap_step. destruct st as [L c].
  destruct (String.eqb (fst tb) ""); [reflexivity | discriminate].
Qed.

Lemma wrap_step_fit (L : list (list token)) (c : list token) (tb : token) :
  nonempty_text tb = true ->
  (lw (c ++ [tb]) + (if (length L =? 0)%nat then off else 0) <= max_w)%Z ->
  step (L, c) tb = (L, c ++ [tb]).
Proof.
  unfold nonempty_text, wrap_step. intros Hne Hfit.
  destruct (String.eqb (fst tb) ""); [discriminate |].
  rewrite measure_tokens_eq.
  destruct (Z.leb_spec (lw (c ++ [tb]) + (if (length L =? 0)%nat then off else 0)) max_w);
    [reflexivity | lia].
Qed.

Lemma wrap_step_break (L : list (list token)) (c : list token) (tb : token) :
  nonempty_text tb = true ->
  (max_w < lw (c ++ [tb]) + (if (length L =? 0)%nat then off else 0))%Z ->
  step (L, c) tb = (append_current L c, [tb]).
Proof.
  unfold nonempty_text, wrap_step. intros Hne Hover.
  destruct (String.eqb (fst tb) ""); [discriminate |].
  rewrite measure_tokens_eq.
  destruct (Z.leb_spec (lw (c ++ [tb]) + (if (length L =? 0)%nat then off else 0)) max_w);
    [lia | reflexivity].
Qed.

Lemma wrap_step_cases (L : list (list token)) (c : list token) (tb : token) :
  (nonempty_text tb = false /\ step (L, c) tb = (L, c)) \/
  (nonempty_text tb = true /\
   (lw (c ++ [tb]) + (if (length L =? 0)%nat then off else 0) <= max_w)%Z /\
   step (L, c) tb = (L, c ++ [tb])) \/
  (nonempty_text tb = true /\
   (max_w < lw (c ++ [tb]) + (if (length L =? 0)%nat then off else 0))%Z /\
   step (L, c) tb = (append_current L c, [tb])).
Proof.
  destruct (nonempty_text tb) eqn:Hne.
  - destruct (Z.le_gt_cases (lw (c ++ [tb]) + (if (length L =? 0)%nat then off else 0)) max_w)
      as [Hfit | Hover].
    + right; left. repeat split; [exact Hfit | apply wrap_step_fit; assumption].
    + right; right. repeat split; [lia | apply wrap_step_break; [assumption | lia]].
  - left. split; [reflexivity | apply wrap_step_skip; exact Hne].
Qed.

(** Tokens are never split, dropped or reordered: the lines, concatenated,
    are the tokens with a non-empty text. *)
Lemma concat_append_current (L : list (list token)) (c : list token) :
  concat (append_current L c) = concat L ++ c.
Proof.
  destruct c as [| tb c]; simpl.
  - rewrite app_nil_r. reflexivity.
  - rewrite concat_app. simpl. rewrite app_nil_r. reflexivity.
Qed.

Lemma run_concat (toks : list token) (L : list (list token)) (c : list token) :
  concat (fst (run toks (L, c))) ++ snd (run toks (L, c))
  = concat L ++ c ++ List.filter nonempty_text toks.
Proof.
  revert L c. induction toks as [| tb toks IH]; intros L c.
  - simpl. rewrite app_nil_r. reflexivity.
  - cbn [fold_left].
    destruct (wrap_step_cases L c tb) as [[Hne ->] | [[Hne [_ ->]] | [Hne [_ ->]]]];
      rewrite IH; simpl; rewrite Hne.
    + reflexivity.
    + rewrite <- app_assoc. reflexivity.
    + rewrite concat_append_current, <- app_assoc. reflexivity.
Qed.

Lemma wrap_lines_concat (toks : list token) :
  concat (wrap toks) = List.filter nonempty_text toks.
Proof.
  unfold wrap_lines.
  pose proof (run_concat toks [] []) as H.
  destruct (run toks ([], [])) as [L c]. simpl in H.
  rewrite concat_append_current. exact H.
Qed.

(** While everything read so far fits on the first line, no line is closed. *)
Lemma run_all_fit (toks c : list token) :
  forallb nonempty_text toks = true ->
  (lw (c ++ toks) + off <= max_w)%Z ->
  run toks ([], c) = ([], c ++ toks).
Proof.
  revert c. induction toks as [| tb toks IH]; intros c Hne Hfit.
  - simpl. rewrite app_nil_r. reflexivity.
  - simpl in Hne. apply andb_prop in Hne as [Hne1 Hne2].
    cbn [fold_left]. rewrite wrap_step_fit.
    + rewrite IH; [rewrite <- app_assoc; reflexivity | exact Hne2 |].
      rewrite <- app_assoc. exact Hfit.
    + exact Hne1.
    + simpl. rewrite !line_w_app in *. simpl in *.
      pose proof (line_w_nonneg toks). lia.
Qed.

Lemma wrap_exact_fit (toks : list token) :
  toks <> [] ->
  forallb nonempty_text toks = true ->
  mtok toks true = max_w ->
  run toks ([], []) = ([], toks) /\ wrap toks = [toks].
Proof.
  intros Hnil Hne Hw. rewrite measure_tokens_eq in Hw.
  assert (Hrun : run toks ([], []) = ([], toks)).
  { apply (run_all_fit toks []); [exact Hne | simpl; lia]. }
  split; [exact Hrun |].
  unfold wrap_lines. rewrite Hrun. destruct toks; [congruence | reflexivity].
Qed.

Lemma wrap_one_more (toks : list token) (tb : token) :
  toks <> [] ->
  forallb nonempty_text toks = true ->
  mtok toks true = max_w ->
  nonempty_text tb = true ->
  (0 < tw tb)%Z ->
  wrap (toks ++ [tb]) = [toks; [tb]].
Proof.
  intros Hnil Hne Hw Hne' Hpos.
  destruct (wrap_exact_fit toks Hnil Hne Hw) as [Hrun _].
  rewrite measure_tokens_eq in Hw.
  unfold wrap_lines. rewrite fold_left_app, Hrun. cbn [fold_left].
  rewrite wrap_step_break.
  - destruct toks; [congruence | reflexivity].
  - exact Hne'.
  - simpl. rewrite line_w_app, line_w_single. lia.
Qed.

(** Lines, once closed, stay as they are. *)
Lemma run_extends (toks : list token) (L : list (list token)) (c : list token) :
  exists ext c', run toks (L, c) = (L ++ ext, c').
Proof.
  revert L c. induction toks as [| tb toks IH]; intros L c.
  - exists [], c. simpl. rewrite app_nil_r. reflexivity.
  - cbn [fold_left].
    destruct (wrap_step_cases L c tb) as [[_ ->] | [[_ [_ ->]] | [_ [_ ->]]]];
      try apply IH.
    destruct c as [| t0 c]; simpl; [apply IH |].
    destruct (IH (L ++ [t0 :: c]) [tb]) as [ext [c' ->]].
    exists ((t0 :: c) :: ext), c'. rewrite <- app_assoc. reflexivity.
Qed.

Lemma append_current_app (L ext : list (list token)) (c : list token) :
  append_current (L ++ ext) c = L ++ append_current ext c.
Proof. destruct c; simpl; [reflexivity | rewrite app_assoc; reflexivity]. Qed.

Lemma wide_token_breaks (L : list (list token)) (c : list token) (tb : token) :
  (0 <= off)%Z -> (max_w < tw tb)%Z ->
  (max_w < lw (c ++ [tb]) + (if (length L =? 0)%nat then off else 0))%Z.
Proof.
  intros Hoff Hwide. rewrite line_w_app, line_w_single.
  pose proof (line_w_nonneg c). destruct (length L =? 0)%nat; lia.
Qed.

Lemma run_after_wide (post : list token) (L : list (list token)) (tb : token) :
  (0 <= off)%Z -> (max_w < tw tb)%Z ->
  exists L2,
    append_current (fst (run post (L, [tb]))) (snd (run post (L, [tb])))
    = L ++ [tb] :: L2.
Proof.
  intros Hoff Hwide. revert L. induction post as [| u post IH]; intros L.
  - exists []. reflexivity.
  - cbn [fold_left].
    destruct (wrap_step_cases L [tb] u) as [[_ ->] | [[_ [Hfit _]] | [_ [_ ->]]]].
    + apply IH.
    + exfalso. rewrite line_w_app, !line_w_single in Hfit.
      pose proof (tok_w_nonneg u). destruct (length L =? 0)%nat; lia.
    + cbn [append_current].
      destruct (run_extends post (L ++ [[tb]]) [u]) as [ext [c' ->]].
      cbn [fst snd]. rewrite append_current_app, <- app_assoc.
      exists (append_current ext c'). reflexivity.
Qed.

Lemma wrap_wide_token_alone (pre post : list token) (tb : token) :
  (0 <= off)%Z -> nonempty_text tb = true -> (max_w < tw tb)%Z ->
  exists L1 L2,
    wrap (pre ++ tb :: post) = L1 ++ [tb] :: L2 /\
    concat L1 = List.filter nonempty_text pre /\
    concat L2 = List.filter nonempty_text post.
Proof.
  intros Hoff Hne Hwide.
  pose proof (wrap_lines_concat (pre ++ tb :: post)) as Hall.
  pose proof (run_concat pre [] []) as Hpre.
  unfold wrap_lines in *. rewrite fold_left_app in *. cbn [fold_left] in *.
  destruct (run pre ([], [])) as [L c]. cbn [fst snd concat app] in Hpre.
  rewrite wrap_step_break in *
    by (try exact Hne; apply wide_token_breaks; assumption).
  destruct (run_after_wide post (append_current L c) tb Hoff Hwide) as [L2 HL2].
  destruct (run post (append_current L c, [tb])) as [L' c'].
  cbn [fst snd] in HL2. rewrite HL2 in *.
  assert (H1 : concat (append_current L c) = List.filter nonempty_text pre).
  { rewrite concat_append_current. exact Hpre. }
  exists (append_current L c), L2. repeat split; [exact H1 |].
  rewrite concat_app, List.filter_app in Hall. cbn [concat List.filter] in Hall.
  rewrite Hne, H1 in Hall. apply app_inv_head in Hall.
  simpl in Hall. congruence.
Qed.

(** Every line that holds more than one token was accepted by the width
    test, the first line with its offset added. *)
Lemma fits_append_current (L : list (list token)) (c : list token) :
  (forall i l, L !! i = Some l -> (2 <= length l)%nat ->
               (lw l + (if (i =? 0)%nat then off else 0) <= max_w)%Z) ->
  ((2 <= length c)%nat ->
   (lw c + (if (length L =? 0)%nat then off else 0) <= max_w)%Z) ->
  forall i l, append_current L c !! i = Some l -> (2 <= length l)%nat ->
              (lw l + (if (i =? 0)%nat then off else 0) <= max_w)%Z.
Proof.
  intros HL Hc i l Hi Hlen.
  destruct c as [| t0 c]; [exact (HL i l Hi Hlen) |].
  cbn [append_current] in Hi.
  apply lookup_app_Some in Hi as [Hi | [Hge Hi]].
  - exact (HL i l Hi Hlen).
  - apply list_lookup_singleton_Some in Hi as [Hidx <-].
    assert (i = length L) by lia. subst i. apply Hc. exact Hlen.
Qed.

Lemma run_fits (toks : list token) (L : list (list token)) (c : list token) :
  (forall i l, L !! i = Some l -> (2 <= length l)%nat ->
               (lw l + (if (i =? 0)%nat then off else 0) <= max_w)%Z) ->
  ((2 <= length c)%nat ->
   (lw c + (if (length L =? 0)%nat then off else 0) <= max_w)%Z) ->
  forall i l,
    append_current (fst (run toks (L, c))) (snd (run toks (L, c))) !! i = Some l ->
    (2 <= length l)%nat ->
    (lw l + (if (i =? 0)%nat then off else 0) <= max_w)%Z.
Proof.
  revert L c. induction toks as [| tb toks IH]; intros L c HL Hc.
  - apply fits_append_current; assumption.
  - cbn [fold_left].
    destruct (wrap_step_cases L c tb) as [[_ ->] | [[_ [Hfit ->]] | [_ [_ ->]]]].
    + apply IH; assumption.
    + apply IH; [exact HL | intros _; exact Hfit].
    + apply IH.
      * apply fits_append_current; assumption.
      * simpl. lia.
Qed.

Lemma wrap_lines_fit (toks : list token) (i : nat) (l : list token) :
  wrap toks !! i = Some l -> (2 <= length l)%nat ->
  (lw l + (if (i =? 0)%nat then off else 0) <= max_w)%Z.
Proof.
  unfold wrap_lines. intros Hi Hlen.
  apply (run_fits toks [] []); try exact Hlen.
  - intros j l' Hj. rewrite lookup_nil in Hj. discriminate.
  - simpl. lia.
  - destruct (run toks ([], [])) as [L c]. exact Hi.
Qed.

(** Every line break was forced: the token that opens a line did not fit at
    the end of the line before it. *)
Lemma run_breaks_forced (toks : list token) (L : list (list token)) (c : list token) :
  (L <> [] -> c <> []) ->
  (forall i l u rest, L !! i = Some l -> (L ++ [c]) !! S i = Some (u :: rest) ->
     (max_w < lw (l ++ [u]) + (if (i =? 0)%nat then off else 0))%Z) ->
  forall i l u rest,
    append_current (fst (run toks (L, c))) (snd (run toks (L, c))) !! i = Some l ->
    append_current (fst (run toks (L, c))) (snd (run toks (L, c))) !! S i
      = Some (u :: rest) ->
    (max_w < lw (l ++ [u]) + (if (i =? 0)%nat then off else 0))%Z.
Proof.
  revert L c. induction toks as [| tb toks IH]; intros L c Hc HL.
  - cbn [fold_left fst snd]. intros i l u rest Hi HSi.
    destruct c as [| t0 c].
    + cbn [append_current] in Hi.
      destruct L as [| l0 L]; [rewrite lookup_nil in Hi; discriminate |].
      exfalso. apply Hc; [discriminate | reflexivity].
    + cbn [append_current] in *.
      assert (Hlt : (S i < length (L ++ [t0 :: c]))%nat)
        by (apply lookup_lt_is_Some; eauto).
      rewrite length_app in Hlt. simpl in Hlt.
      rewrite lookup_app_l in Hi by lia.
      exact (HL i l u rest Hi HSi).
  - cbn [fold_left].
    destruct (wrap_step_cases L c tb) as [[_ ->] | [[_ [_ ->]] | [_ [Hover ->]]]].
    + apply IH; assumption.
    + apply IH.
      * intros _. destruct c; discriminate.
      * intros i l u rest Hi HSi.
        assert (Hlt : (i < length L)%nat) by (apply lookup_lt_is_Some; eauto).
        destruct c as [| t0 c].
        { exfalso. destruct L; [simpl in Hlt; lia |].
          apply Hc; [discriminate | reflexivity]. }
        apply (HL i l u (match decide (S i = length L) with
                         | left _ => c | right _ => rest end) Hi).
        destruct (decide (S i = length L)) as [He | Hne].
        -- rewrite lookup_app_r in HSi |- * by lia.
           replace (S i - length L)%nat with 0%nat in * by lia.
           simpl in HSi |- *. congruence.
        -- rewrite lookup_app_l in HSi |- * by lia. exact HSi.
    + apply IH.
      * intros _. discriminate.
      * intros i l u rest Hi HSi.
        destruct c as [| t0 c]; cbn [append_current] in *.
        { exfalso.
          assert (Hlt : (i < length L)%nat) by (apply lookup_lt_is_Some; eauto).
          destruct L; [simpl in Hlt; lia |].
          apply Hc; [discriminate | reflexivity]. }
        apply lookup_app_Some in Hi as [Hi | [Hge Hi]].
        -- assert (Hlt : (i < length L)%nat) by (apply lookup_lt_is_Some; eauto).
           apply (HL i l u rest Hi).
           rewrite lookup_app_l in HSi; [exact HSi |].
           rewrite length_app. simpl. lia.
        -- apply list_lookup_singleton_Some in Hi as [Hidx <-].
           assert (i = length L) by lia. subst i.
           rewrite lookup_app_r in HSi by (rewrite length_app; simpl; lia).
           rewrite length_app in HSi. simpl in HSi.
           replace (S (length L) - (length L + 1))%nat with 0%nat in HSi by lia.
           simpl in HSi. injection HSi as <- <-. exact Hover.
Qed.

Lemma wrap_lines_breaks_forced (toks : list token) (i : nat)
    (l : list token) (u : token) (rest : list token) :
  wrap toks !! i = Some l -> wrap toks !! S i = Some (u :: rest) ->
  (max_w < lw (l ++ [u]) + (if (i =? 0)%nat then off else 0))%Z.
Proof.
  unfold wrap_lines. intros Hi HSi.
  apply (run_breaks_forced toks [] []) with (rest := rest).
  - congruence.
  - intros j l' u' r' Hj. rewrite lookup_nil in Hj. discriminate.
  - destruct (run toks ([], [])) as [L c]. exact Hi.
  - destruct (run toks ([], [])) as [L c]. exact HSi.
Qed.

Lemma draw_lines_y (line_gap : Z) (lines : list (list token)) (i : nat) (y : Z) :
  snd (draw_lines textbbox x first_line_x line_gap i y lines)
  = (y + Z.of_nat (length lines) * (font_size FONT_SMALL + line_gap))%Z.
Proof.
  revert i y. induction lines as [| line rest IH]; intros i y.
  - simpl. lia.
  - cbn [draw_lines].
    specialize (IH (S i) (y + (font_size FONT_SMALL + line_gap))%Z).
    destruct (draw_lines textbbox x first_line_x line_gap (S i)
                (y + (font_size FONT_SMALL + line_gap)) rest) as [ops' y'].
    cbn [snd] in *. rewrite IH. cbn [length]. lia.
Qed.

(** C7: the wrapper packs tokens greedily by measured width.  A run of
    tokens whose measured first-line width is exactly [max_w] is one line;
    one more token of positive width opens a second line; a token wider
    than [max_w] is a line by itself, whole; the first line's measure is
    the sum of its token widths plus [first_line_x - x], compared with the
    same [max_w] as every other line.  Besides: tokens keep their order and
    none is split, every line of two or more tokens passed the width test,
    every break was forced, and the returned [y] advances by one line
    height per line. *)
Theorem draw_rich_wrapped_text_greedy :
  (forall l, mtok l true = (lw l + off)%Z /\ mtok l false = lw l) /\
  (forall toks, toks <> [] -> forallb nonempty_text toks = true ->
     mtok toks true = max_w ->
     wrap toks = [toks] /\
     forall tb, nonempty_text tb = true -> (0 < tw tb)%Z ->
                wrap (toks ++ [tb]) = [toks; [tb]]) /\
  ((0 <= off)%Z ->
   forall pre tb post, nonempty_text tb = true -> (max_w < tw tb)%Z ->
     exists L1 L2,
       wrap (pre ++ tb :: post) = L1 ++ [tb] :: L2 /\
       concat L1 = List.filter nonempty_text pre /\
       concat L2 = List.filter nonempty_text post) /\
  (forall toks, concat (wrap toks) = List.filter nonempty_text toks) /\
  (forall toks i l, wrap toks !! i = Some l -> (2 <= length l)%nat ->
     (lw l + (if (i =? 0)%nat then off else 0) <= max_w)%Z) /\
  (forall toks i l u rest,
     wrap toks !! i = Some l -> wrap toks !! S i = Some (u :: rest) ->
     (max_w < lw (l ++ [u]) + (if (i =? 0)%nat then off else 0))%Z) /\
  (forall y toks font_reg font_bold line_gap,
     snd (draw_rich_wrapped_text textbbox x max_w first_line_x
            y toks font_reg font_bold line_gap)
     = (y + Z.of_nat (length (wrap toks)) * (font_size FONT_SMALL + line_gap))%Z).
Proof.
  split; [| split; [| split; [| split; [| split; [| split]]]]].
  - intros l. rewrite !measure_tokens_eq. split; lia.
  - intros toks Hnil Hne Hw. split.
    + apply wrap_exact_fit; assumption.
    + intros tb Htb Hpos. apply wrap_one_more; assumption.
  - intros Hoff pre tb post Hne Hwide. apply wrap_wide_token_alone; assumption.
  - apply wrap_lines_concat.
  - apply wrap_lines_fit.
  - apply wrap_lines_breaks_forced.
  - intros y toks fr fb gap. unfold draw_rich_wrapped_text. apply draw_lines_y.
Qed.

End RichTextProps.

(** With ten pixels per character, a first line starting 20 pixels in and
    a maximum width of 100: two four-letter tokens fill the line exactly, and
    a comma after them opens the second line. *)
Lemma draw_rich_wrapped_text_greedy_witness :
  let bbox := fixed_pitch_bbox in
  (forall t f, (0 <= fst (measure_text bbox t f))%Z) /\
  wrap_lines bbox 0 100 (Some 20%Z) [("aaaa", FlagNone); ("bbbb", FlagBool false)]
  = [[("aaaa", FlagNone); ("bbbb", FlagBool false)]] /\
  wrap_lines bbox 0 100 (Some 20%Z)
    ([("aaaa", FlagNone); ("bbbb", FlagBool false)] ++ [(",", FlagBool false)])
  = [[("aaaa", FlagNone); ("bbbb", FlagBool false)]; [(",", FlagBool false)]].
Proof.
  intros bbox.
  assert (Hw : forall t f, (0 <= fst (measure_text bbox t f))%Z).
  { intros t f. unfold measure_text, bbox, fixed_pitch_bbox. simpl. lia. }
  split; [exact Hw |].
  destruct (draw_rich_wrapped_text_greedy bbox 0 100 (Some 20%Z) Hw)
    as [_ [Hfit _]].
  destruct (Hfit [("aaaa", FlagNone); ("bbbb", FlagBool false)]) as [H1 H2].
  - discriminate.
  - reflexivity.
  - reflexivity.
  - split; [exact H1 |]. apply H2; [reflexivity | reflexivity].
Defined.

(** *** Names bound by the module *)

Lemma lookup_bind_names (l : list (string * pyval)) (g : gmap string pyval)
    (name : string) :
  bind_names l g !! name = last_bound name l (g !! name).
Proof.
  revert g. induction l as [| [k v] l IH]; intros g; simpl; [reflexivity |].
  rewrite IH. f_equal.
  destruct (String.eqb_spec k name) as [-> | Hne].
  - apply lookup_insert_eq.
  - apply lookup_insert_ne. exact Hne.
Qed.

Lemma module_globals_lookup (i : Inputs) (name : string) :
  module_globals i !! name = last_bound name (module_bindings i) None.
Proof. unfold module_globals. rewrite lookup_bind_names, lookup_empty. reflexivity. Qed.

(** Neither [poly_100_r] nor [poly_pp_r] is bound by any statement of the
    module; [poly_100] is. *)
Lemma poly_names_unbound (i : Inputs) :
  module_globals i !! "poly_100_r" = None /\
  module_globals i !! "poly_pp_r" = None /\
  module_globals i !! "poly_100" =
    Some (VNum (PyFloat (if in_include_poly i then in_poly_100 i else 0))).
Proof. rewrite !module_globals_lookup. repeat split; reflexivity. Qed.

(** *** Reading the namespace *)

Lemma bind_ok {A B : Type} (m : M A) (k : A -> M B) (g : gmap string pyval) (a : A) :
  m g = Ok a -> bind m k g = k a g.
Proof. unfold bind. intros ->. reflexivity. Qed.

Lemma bind_raise {A B : Type} (m : M A) (k : A -> M B) (g : gmap string pyval) (e : exn) :
  m g = Raise e -> bind m k g = Raise e.
Proof. unfold bind. intros ->. reflexivity. Qed.

Lemma get_num_ok (g : gmap string pyval) (name : string) (n : num) :
  g !! name = Some (VNum n) -> get_num name g = Ok n.
Proof. unfold get_num, bind, get_name. intros ->. reflexivity. Qed.

Lemma get_str_ok (g : gmap string pyval) (name : string) (s : string) :
  g !! name = Some (VStr s) -> get_str name g = Ok s.
Proof. unfold get_str, bind, get_name. intros ->. reflexivity. Qed.

Lemma get_bool_ok (g : gmap string pyval) (name : string) (b : bool) :
  g !! name = Some (VBool b) -> get_bool name g = Ok b.
Proof. unfold get_bool, bind, get_name. intros ->. reflexivity. Qed.

Lemma get_list_ok (g : gmap string pyval) (name : string) (l : list string) :
  g !! name = Some (VList l) -> get_list name g = Ok l.
Proof. unfold get_list, bind, get_name. intros ->. reflexivity. Qed.

Lemma get_dict_ok (g : gmap string pyval) (name : string) (d : gmap (string * string) Q) :
  g !! name = Some (VDict d) -> get_dict name g = Ok d.
Proof. unfold get_dict, bind, get_name. intros ->. reflexivity. Qed.

Lemma get_num_unbound (g : gmap string pyval) (name : string) :
  g !! name = None -> get_num name g = Raise (NameError name).
Proof. unfold get_num, bind, get_name. intros ->. reflexivity. Qed.

Lemma add_macro_item_ok (g : gmap string pyval) (sm : list string)
    (name key : string) (fmt : num -> string) (unit : string) (emph : bool)
    (tokens : list token) (v : num) :
  g !! "selected_macros" = Some (VList sm) ->
  g !! key = Some (VNum v) ->
  exists tokens', add_macro_item name key fmt unit emph tokens g = Ok tokens'.
Proof.
  intros Hsm Hkey. unfold add_macro_item.
  rewrite (bind_ok _ _ _ _ (get_list_ok _ _ _ Hsm)).
  destruct (str_in name sm).
  - rewrite (bind_ok _ _ _ _ (get_num_ok _ _ _ Hkey)). eexists. reflexivity.
  - eexists. reflexivity.
Qed.

Lemma add_poly_item_unbound (g : gmap string pyval) (key : string) (tokens : list token) :
  g !! "include_poly" = Some (VBool true) ->
  g !! key = None ->
  add_poly_item key tokens g = Raise (NameError key).
Proof.
  intros Hip Hkey. unfold add_poly_item.
  rewrite (bind_ok _ _ _ _ (get_bool_ok _ _ _ Hip)).
  rewrite (bind_raise _ _ _ _ (get_num_unbound _ _ Hkey)). reflexivity.
Qed.

Lemma add_poly_item_skipped (g : gmap string pyval) (key : string) (tokens : list token) :
  g !! "include_poly" = Some (VBool false) ->
  add_poly_item key tokens g = Ok tokens.
Proof.
  intros Hip. unfold add_poly_item.
  rewrite (bind_ok _ _ _ _ (get_bool_ok _ _ _ Hip)). reflexivity.
Qed.

Lemma add_micro_items_ok (g : gmap string pyval) (sv : list string)
    (dict_name : string) (d : gmap (string * string) Q)
    (names : list string) (tokens : list token) :
  g !! "selected_vm" = Some (VList sv) ->
  g !! dict_name = Some (VDict d) ->
  exists tokens', add_micro_items dict_name names tokens g = Ok tokens'.
Proof.
  intros Hsv Hd. revert tokens.
  induction names as [| name rest IH]; intros tokens; cbn [add_micro_items].
  - eexists. reflexivity.
  - rewrite (bind_ok _ _ _ _ (get_list_ok _ _ _ Hsv)).
    destruct (str_in name sv).
    + rewrite (bind_ok _ _ _ _ (get_dict_ok _ _ _ Hd)). apply IH.
    + apply IH.
Qed.

(** *** The linear format and polyalcohols *)

Ltac lookup_name := rewrite module_globals_lookup; reflexivity.

Ltac run_macro_step :=
  lazymatch goal with
  | |- context [bind (add_macro_item ?n ?k ?f ?u ?e ?t) ?K ?g] =>
      let H := fresh "Hstep" in
      let t' := fresh "tokens" in
      assert (H : exists t', add_macro_item n k f u e t g = Ok t')
        by (eapply add_macro_item_ok; lookup_name);
      destruct H as [t' H]; rewrite (bind_ok _ K g t' H); cbv beta; clear H
  end.

Ltac run_micro_step :=
  lazymatch goal with
  | |- context [add_micro_items ?dn ?ns ?t ?g] =>
      let H := fresh "Hstep" in
      let t' := fresh "tokens" in
      assert (H : exists t', add_micro_items dn ns t g = Ok t')
        by (eapply add_micro_items_ok; lookup_name);
      destruct H as [t' H]
  end.

Ltac run_micro_bind :=
  lazymatch goal with
  | |- context [bind (add_micro_items ?dn ?ns ?t) ?K ?g] =>
      let H := fresh "Hstep" in
      let t' := fresh "tokens" in
      assert (H : exists t', add_micro_items dn ns t g = Ok t')
        by (eapply add_micro_items_ok; lookup_name);
      destruct H as [t' H]; rewrite (bind_ok _ K g t' H); cbv beta; clear H
  end.

Lemma include_poly_lookup (i : Inputs) :
  module_globals i !! "include_poly" = Some (VBool (in_include_poly i)).
Proof. lookup_name. Qed.

Lemma fig5_tokens_100_raises (i : Inputs) :
  in_include_poly i = true ->
  fig5_tokens_100 (module_globals i) = Raise (NameError "poly_100_r").
Proof.
  intros Hp. unfold fig5_tokens_100.
  erewrite bind_ok by (apply get_num_ok; lookup_name). cbv beta zeta.
  do 5 run_macro_step.
  apply bind_raise. apply add_poly_item_unbound.
  - rewrite include_poly_lookup, Hp. reflexivity.
  - lookup_name.
Qed.

Lemma fig5_tokens_100_ok (i : Inputs) :
  in_include_poly i = false ->
  exists tokens, fig5_tokens_100 (module_globals i) = Ok tokens.
Proof.
  intros Hp. unfold fig5_tokens_100.
  erewrite bind_ok by (apply get_num_ok; lookup_name). cbv beta zeta.
  do 5 run_macro_step.
  erewrite bind_ok
    by (apply add_poly_item_skipped; rewrite include_poly_lookup, Hp; reflexivity).
  do 4 run_macro_step.
  run_micro_step. eauto.
Qed.

Lemma fig5_tokens_pp_ok (i : Inputs) :
  in_include_poly i = false ->
  exists tokens, fig5_tokens_pp (module_globals i) = Ok tokens.
Proof.
  intros Hp. unfold fig5_tokens_pp.
  erewrite bind_ok by (apply get_str_ok; lookup_name). cbv beta.
  erewrite bind_ok by (apply get_num_ok; lookup_name). cbv beta.
  erewrite bind_ok by (apply get_str_ok; lookup_name). cbv beta zeta.
  erewrite bind_ok by (apply get_str_ok; lookup_name). cbv beta zeta.
  erewrite bind_ok by (apply get_num_ok; lookup_name). cbv beta zeta.
  do 5 run_macro_step.
  erewrite bind_ok
    by (apply add_poly_item_skipped; rewrite include_poly_lookup, Hp; reflexivity).
  do 4 run_macro_step.
  run_micro_bind. cbv zeta.
  erewrite bind_ok by (apply get_str_ok; lookup_name). cbv beta.
  match goal with |- context [if ?c then _ else _] => destruct c end;
    eexists; reflexivity.
Qed.

(** C2: with polyalcohols included, [draw_fig5] reads the name [poly_100_r],
    which the module never binds, and raises [NameError] instead of returning
    an image; with polyalcohols left out it returns one. *)
Theorem draw_fig5_include_poly (textbbox : string -> font -> Z * Z * Z * Z)
    (i : Inputs) :
  (in_include_poly i = true ->
   draw_fig5 textbbox (module_globals i) = Raise (NameError "poly_100_r")) /\
  (in_include_poly i = false ->
   exists img, draw_fig5 textbbox (module_globals i) = Ok img).
Proof.
  split; intros Hp; unfold draw_fig5; cbv zeta;
    erewrite bind_ok by (apply get_bool_ok; lookup_name); cbv beta.
  - apply bind_raise. apply fig5_tokens_100_raises. exact Hp.
  - destruct (fig5_tokens_100_ok i Hp) as [t100 H100].
    rewrite (bind_ok _ _ _ _ H100). cbv beta.
    destruct (draw_rich_wrapped_text _ _ _ _ _ t100 _ _ _) as [ops_100 y1].
    destruct (fig5_tokens_pp_ok i Hp) as [tpp Hpp].
    rewrite (bind_ok _ _ _ _ Hpp). cbv beta.
    destruct (draw_rich_wrapped_text _ _ _ _ _ tpp _ _ _) as [ops_pp y2].
    eexists. reflexivity.
Qed.

Lemma draw_fig5_include_poly_witness :
  in_include_poly (default_inputs true) = true /\
  draw_fig5 fixed_pitch_bbox (module_globals (default_inputs true))
  = Raise (NameError "poly_100_r").
Proof.
  split; [reflexivity |].
  apply (proj1 (draw_fig5_include_poly fixed_pitch_bbox (default_inputs true))).
  reflexivity.
Defined.

(** The default form, without polyalcohols, in the linear format. *)
Example draw_fig5_default_size :
  match draw_fig5 fixed_pitch_bbox (module_globals (default_inputs false)) with
  | Ok im => im_width im = 1700%Z /\ im_height im = 222%Z
  | Raise _ => False
  end.
Proof. vm_compute. split; reflexivity. Qed.

(** The worked example of a 40 g portion: 13 g of fat, 31 g of carbohydrate
    and 5 g of protein per 100 g. *)
Example end_to_end_40g :
  fmt_art9 (PyFloat (fat_total_pp_r (portion_from_per100 13 40))) false = "5.2" /\
  fmt_kcal (round_kcal (kcal_from_macros 13 31 5 0 0)) = "261" /\
  fmt_kcal (round_kcal
    (kcal_from_macros (portion_from_per100 13 40) (portion_from_per100 31 40)
                      (portion_from_per100 5 40) 0 0)) = "104.4".
Proof. repeat split; vm_compute; reflexivity. Qed.

(** * Further properties of the value pipeline *)

Lemma portion_from_per100_pos (v ps : Q) :
  0 < ps -> portion_from_per100 v ps = v * ps / 100.
Proof.
  intros Hps. unfold portion_from_per100, Qlt_bool.
  destruct (Qeq_bool ps 0) eqn:E.
  - apply Qeq_bool_iff in E. exfalso. lra.
  - destruct (Qle_bool ps 0) eqn:E'; [| reflexivity].
    apply Qle_bool_iff in E'. exfalso. lra.
Qed.

Lemma portion_from_per100_nonpos (v ps : Q) :
  ps <= 0 -> portion_from_per100 v ps = 0.
Proof.
  intros Hps. unfold portion_from_per100, Qlt_bool.
  destruct (Qeq_bool ps 0); [reflexivity |].
  assert (E : Qle_bool ps 0 = true) by (apply Qle_bool_iff; exact Hps).
  rewrite E. reflexivity.
Qed.

(** The names of the rounded per-portion values. *)
Lemma per_portion_zero_at (i : Inputs) (key : string) :
  in_household_mass i <= 0 ->
  In key ["fat_total_pp_r"; "sat_fat_pp_r"; "carb_pp_r"; "sug_total_pp_r";
          "sug_added_pp_r"; "fiber_pp_r"; "protein_pp_r"; "sodium_pp_mg_r";
          "mono_fat_pp_r"; "poly_fat_pp_r"; "trans_fat_pp_mg_r"; "kcal_pp"] ->
  exists n : num, module_globals i !! key = Some (VNum n) /\ to_float n == 0.
Proof.
  intros Hps Hin. simpl in Hin.
  repeat (destruct Hin as [<- | Hin];
          [eexists; split;
           [lookup_name
           | rewrite !portion_from_per100_nonpos by exact Hps; reflexivity] |]).
  destruct Hin.
Qed.

(** X2: with a portion size that is zero or negative every declared
    per-portion quantity is zero: the eleven rounded nutrients and the
    energy. *)
Theorem degenerate_portion_declares_zero (i : Inputs) :
  in_household_mass i <= 0 ->
  forall key,
    In key ["fat_total_pp_r"; "sat_fat_pp_r"; "carb_pp_r"; "sug_total_pp_r";
            "sug_added_pp_r"; "fiber_pp_r"; "protein_pp_r"; "sodium_pp_mg_r";
            "mono_fat_pp_r"; "poly_fat_pp_r"; "trans_fat_pp_mg_r"; "kcal_pp"] ->
    exists n : num, module_globals i !! key = Some (VNum n) /\ to_float n == 0.
Proof. intros Hps key Hin. apply per_portion_zero_at; assumption. Qed.

Lemma degenerate_portion_declares_zero_witness :
  in_household_mass zero_portion_inputs <= 0 /\
  exists n : num,
    module_globals zero_portion_inputs !! "kcal_pp" = Some (VNum n) /\
    to_float n == 0.
Proof.
  split; [discriminate |].
  apply (degenerate_portion_declares_zero zero_portion_inputs).
  - discriminate.
  - simpl. tauto.
Defined.

(** *** Rounding keeps the order *)

Lemma py_round_mono (a b : Q) : a <= b -> (py_round a <= py_round b)%Z.
Proof.
  intros Hab.
  pose proof (Qfloor_resp_le _ _ Hab) as Hf.
  pose proof (Qfloor_le a) as Hla. pose proof (Qlt_floor a) as Hua.
  pose proof (Qfloor_le b) as Hlb. pose proof (Qlt_floor b) as Hub.
  rewrite inject_Z_plus in Hua, Hub. change (inject_Z 1) with 1 in Hua, Hub.
  destruct (Z.eq_dec (Qfloor a) (Qfloor b)) as [Heq | Hne].
  - destruct (py_round_cases a) as [[Ha ->] | [[Ha ->] | [Ha ->]]];
    destruct (py_round_cases b) as [[Hb ->] | [[Hb ->] | [Hb ->]]];
      rewrite <- ?Heq in *; try lia; try (exfalso; lra);
      destruct (Z.even (Qfloor a)); lia.
  - assert (Hlt : (Qfloor a + 1 <= Qfloor b)%Z) by lia.
    destruct (py_round_cases a) as [[_ ->] | [[_ ->] | [_ ->]]];
    destruct (py_round_cases b) as [[_ ->] | [[_ ->] | [_ ->]]];
      try destruct (Z.even (Qfloor a)); try destruct (Z.even (Qfloor b)); lia.
Qed.

Lemma inject_Z_div10_le (m n : Z) : (m <= n)%Z -> inject_Z m / 10 <= inject_Z n / 10.
Proof.
  intros H. rewrite Zle_Qle in H.
  apply Qmult_le_compat_r; [exact H | discriminate].
Qed.

(** X3: [round_g] is monotone: a larger raw amount is never declared as a
    smaller one, also across the change of precision at 100. *)
Theorem round_g_monotone (a b : Q) : a <= b -> round_g a <= round_g b.
Proof.
  intros Hab.
  destruct (Qlt_le_dec (Qabs a) 100) as [Ha | Ha];
  destruct (Qlt_le_dec (Qabs b) 100) as [Hb | Hb].
  - destruct (round_g_tenth a Ha) as [-> _]. destruct (round_g_tenth b Hb) as [-> _].
    apply inject_Z_div10_le. apply py_round_mono. lra.
  - destruct (round_g_tenth a Ha) as [-> [_ Hm]].
    destruct (round_g_whole b Hb) as [-> _].
    destruct (Qabs_lt_bounds _ _ Ha) as [Hlo Hhi].
    destruct (Qabs_ge_cases _ _ Hb) as [Hp | Hn]; [| exfalso; lra].
    pose proof (py_round_ge 100 b Hp) as Hr.
    rewrite Zle_Qle in Hr.
    apply Qle_trans with (inject_Z 100); [| exact Hr].
    apply Qle_trans with (inject_Z 1000 / 10);
      [apply inject_Z_div10_le; exact Hm | discriminate].
  - destruct (round_g_whole a Ha) as [-> _].
    destruct (round_g_tenth b Hb) as [-> [Hm _]].
    destruct (Qabs_lt_bounds _ _ Hb) as [Hlo Hhi].
    destruct (Qabs_ge_cases _ _ Ha) as [Hp | Hn]; [exfalso; lra |].
    pose proof (py_round_le (-100) a Hn) as Hr.
    rewrite Zle_Qle in Hr.
    apply Qle_trans with (inject_Z (-100)); [exact Hr |].
    apply Qle_trans with (inject_Z (-1000) / 10);
      [discriminate | apply inject_Z_div10_le; exact Hm].
  - destruct (round_g_whole a Ha) as [-> _]. destruct (round_g_whole b Hb) as [-> _].
    rewrite <- Zle_Qle. apply py_round_mono. exact Hab.
Qed.

Lemma round_g_monotone_witness : (996 # 10) <= (1004 # 10) /\ round_g (996 # 10) <= round_g (1004 # 10).
Proof.
  split; [discriminate |]. apply (round_g_monotone (996 # 10) (1004 # 10)). discriminate.
Defined.

(** X4: [round_mg] is monotone, and from 5 mg upwards the declared integer is
    within half a milligram of the raw value. *)
Theorem round_mg_monotone_and_near (a b : Q) :
  (a <= b -> (round_mg a <= round_mg b)%Z) /\
  (5 <= a -> Qabs (a - inject_Z (round_mg a)) <= 1 # 2).
Proof.
  split.
  - intros Hab. unfold round_mg, Qlt_bool.
    destruct (Qle_bool 5 a) eqn:Ea; destruct (Qle_bool 5 b) eqn:Eb; simpl.
    + apply py_round_mono. exact Hab.
    + apply Qle_bool_iff in Ea. apply Qle_bool_false_lt in Eb. exfalso. lra.
    + apply Qle_bool_iff in Eb. pose proof (py_round_ge 5 b Eb). lia.
    + lia.
  - intros Ha. unfold round_mg, Qlt_bool.
    assert (E : Qle_bool 5 a = true) by (apply Qle_bool_iff; exact Ha).
    rewrite E. cbn [negb]. destruct (py_round_near a).
    apply Qabs_Qle_condition. split; lra.
Qed.

(** *** Declared fat is zero or significant *)

Lemma round_g_ge_tenths (k : Z) (v : Q) :
  (0 < k <= 1000)%Z -> inject_Z k / 10 <= v -> inject_Z k / 10 <= round_g v.
Proof.
  intros Hk Hv.
  assert (Hk10 : inject_Z k <= v * 10).
  { apply Qmult_le_r with (z := / 10); [reflexivity |].
    apply Qle_trans with v; [exact Hv |].
    apply Qle_lteq. right. field. }
  assert (Hpos : 0 <= v).
  { apply Qle_trans with (inject_Z k / 10); [| exact Hv].
    apply Qle_shift_div_l; [reflexivity |].
    rewrite Qmult_0_l. change 0 with (inject_Z 0). rewrite <- Zle_Qle. lia. }
  destruct (Qlt_le_dec (Qabs v) 100) as [Hlt | Hge].
  - destruct (round_g_tenth v Hlt) as [-> _].
    apply inject_Z_div10_le. apply py_round_ge. exact Hk10.
  - destruct (round_g_whole v Hge) as [-> _].
    rewrite Qabs_pos in Hge by exact Hpos.
    pose proof (py_round_ge 100 v Hge) as Hr. rewrite Zle_Qle in Hr.
    apply Qle_trans with (inject_Z 100); [| exact Hr].
    apply Qle_trans with (inject_Z 1000 / 10); [| discriminate].
    apply inject_Z_div10_le. lia.
Qed.

(** X5: a declared total fat is 0 or at least 0.5 g, and a declared saturated
    fat is 0 or at least 0.1 g, per 100 and per portion: raw values up to the
    limit are declared as 0, larger ones are rounded and stay at or above
    the limit. *)
Theorem declared_fat_zero_or_significant (v : Q) :
  (v <= 1 # 2 -> fat_total_100_r v == 0 /\ fat_total_pp_r v == 0) /\
  (1 # 2 < v -> 1 # 2 <= fat_total_100_r v /\ 1 # 2 <= fat_total_pp_r v) /\
  (v <= 1 # 10 -> sat_fat_100_r v == 0 /\ sat_fat_pp_r v == 0) /\
  (1 # 10 < v -> 1 # 10 <= sat_fat_100_r v /\ 1 # 10 <= sat_fat_pp_r v).
Proof.
  unfold fat_total_100_r, fat_total_pp_r, sat_fat_100_r, sat_fat_pp_r, nonsig_zero_g.
  change (default (-1) (limits_g !! "Grasa total")) with (1 # 2).
  change (default (-1) (limits_g !! "Grasa saturada")) with (1 # 10).
  split; [| split; [| split]]; intros Hv.
  - assert (E : Qle_bool v (1 # 2) = true) by (apply Qle_bool_iff; exact Hv).
    rewrite E. split; reflexivity.
  - assert (E : Qle_bool v (1 # 2) = false).
    { destruct (Qle_bool v (1 # 2)) eqn:E; [| reflexivity].
      apply Qle_bool_iff in E. exfalso. lra. }
    rewrite E.
    assert (H : inject_Z 5 / 10 <= round_g v).
    { apply round_g_ge_tenths; [lia |].
      apply Qle_trans with (1 # 2); [discriminate | lra]. }
    split; (apply Qle_trans with (inject_Z 5 / 10); [discriminate | exact H]).
  - assert (E : Qle_bool v (1 # 10) = true) by (apply Qle_bool_iff; exact Hv).
    rewrite E. split; reflexivity.
  - assert (E : Qle_bool v (1 # 10) = false).
    { destruct (Qle_bool v (1 # 10)) eqn:E; [| reflexivity].
      apply Qle_bool_iff in E. exfalso. lra. }
    rewrite E.
    assert (H : inject_Z 1 / 10 <= round_g v).
    { apply round_g_ge_tenths; [lia |].
      apply Qle_trans with (1 # 10); [discriminate | lra]. }
    split; (apply Qle_trans with (inject_Z 1 / 10); [discriminate | exact H]).
Qed.


(** * Formatted values *)

Lemma append_nil_l (b : string) : "" +:+ b = b.
Proof. reflexivity. Qed.

Lemma append_cons (x : ascii) (a b : string) :
  String x a +:+ b = String x (a +:+ b).
Proof. reflexivity. Qed.

Lemma append_assoc (a b c : string) : (a +:+ b) +:+ c = a +:+ (b +:+ c).
Proof.
  induction a as [| x a IH]; [reflexivity |].
  rewrite !append_cons, IH. reflexivity.
Qed.

Lemma append_eq_nil (a b : string) : a +:+ b = "" -> a = "" /\ b = "".
Proof. destruct a; [rewrite append_nil_l; auto | rewrite append_cons; discriminate]. Qed.

Lemma last_char_append (a b : string) :
  b <> "" -> last_char (a +:+ b) = last_char b.
Proof.
  intros Hb. induction a as [| x a IH]; [reflexivity |].
  rewrite append_cons. simpl.
  destruct (a +:+ b) eqn:E; [| exact IH].
  apply append_eq_nil in E as [_ E]. congruence.
Qed.

Lemma last_char_nonempty (s : string) : s <> "" -> exists c, last_char s = Some c.
Proof.
  induction s as [| x s IH]; intros H; [congruence |].
  destruct s as [| y s]; [exists x; reflexivity |].
  destruct IH as [c Hc]; [discriminate |]. exists c. exact Hc.
Qed.

Lemma ends_with_digit_nonempty (s : string) : ends_with_digit s = true -> s <> "".
Proof. intros H ->. discriminate. Qed.

Lemma ends_with_digit_append (a b : string) :
  ends_with_digit b = true -> ends_with_digit (a +:+ b) = true.
Proof.
  intros Hb. unfold ends_with_digit.
  rewrite last_char_append by (apply ends_with_digit_nonempty; exact Hb).
  exact Hb.
Qed.

(** What [rstrip] does at the end of a string. *)
Lemma rstrip_by_snoc (p : ascii -> bool) (s : string) (c : ascii) :
  rstrip_by p (s +:+ String c "") =
  if p c then rstrip_by p s else s +:+ String c "".
Proof.
  induction s as [| x s IH].
  - rewrite append_nil_l. simpl. destruct (p c); reflexivity.
  - rewrite append_cons. simpl. rewrite IH. destruct (p c) eqn:E; [reflexivity |].
    destruct (s +:+ String c "") eqn:E'; [| reflexivity].
    apply append_eq_nil in E' as [_ E']. discriminate.
Qed.

Lemma rstrip_by_keeps (p : ascii -> bool) (s : string) (c : ascii) :
  last_char s = Some c -> p c = false -> rstrip_by p s = s.
Proof.
  induction s as [| x s IH]; intros Hl Hp; [discriminate |].
  destruct s as [| y s].
  - simpl in Hl. injection Hl as ->. simpl. rewrite Hp. reflexivity.
  - simpl in Hl |- *. simpl in IH. rewrite (IH Hl Hp). reflexivity.
Qed.

Lemma rstrip_by_last (p : ascii -> bool) (s : string) (c : ascii) :
  last_char (rstrip_by p s) = Some c -> p c = false.
Proof.
  induction s as [| x s IH]; simpl; [discriminate |].
  destruct (rstrip_by p s) as [| y r] eqn:E.
  - destruct (p x) eqn:Hx; simpl; [discriminate |].
    intros H. injection H as <-. exact Hx.
  - intros H. apply IH. exact H.
Qed.

(** Decimal numerals end with a digit. *)
Lemma string_of_uint_ends_digit (d : Decimal.uint) :
  d <> Decimal.Nil -> ends_with_digit (NilEmpty.string_of_uint d) = true.
Proof.
  induction d as [| d IH | d IH | d IH | d IH | d IH | d IH | d IH | d IH | d IH | d IH];
    intros Hd; [congruence | ..];
    (destruct d; [reflexivity | ..];
     match goal with
     | |- ends_with_digit (NilEmpty.string_of_uint (?D ?d')) = true =>
         change (NilEmpty.string_of_uint (D d'))
           with (String.append (String.substring 0 1 (NilEmpty.string_of_uint (D Decimal.Nil)))
                               (NilEmpty.string_of_uint d'));
         apply ends_with_digit_append; apply IH; discriminate
     end).
Qed.

Lemma str_of_Z_ends_digit (z : Z) : ends_with_digit (str_of_Z z) = true.
Proof.
  unfold str_of_Z. destruct z as [| p | p]; simpl Z.to_int.
  - reflexivity.
  - unfold NilZero.string_of_int, NilZero.string_of_uint.
    pose proof (DecimalPos.Unsigned.to_uint_nonnil p) as Hn.
    destruct (Pos.to_uint p) eqn:E; try congruence;
      rewrite <- E; apply string_of_uint_ends_digit; rewrite E; discriminate.
  - unfold NilZero.string_of_int, NilZero.string_of_uint.
    pose proof (DecimalPos.Unsigned.to_uint_nonnil p) as Hn.
    change (String "-" ?s) with ("-" +:+ s).
    apply (ends_with_digit_append "-").
    destruct (Pos.to_uint p) eqn:E; try congruence;
      rewrite <- E; apply string_of_uint_ends_digit; rewrite E; discriminate.
Qed.

Lemma last_char_zero_pad (w : nat) (s : string) :
  s <> "" -> last_char (zero_pad w s) = last_char s.
Proof.
  revert s. induction w as [| w IH]; intros s Hs; simpl; [reflexivity |].
  destruct (String.length s <=? w)%nat; [| reflexivity].
  rewrite IH by (rewrite append_cons; discriminate).
  apply last_char_append. exact Hs.
Qed.

Lemma format_fixed_ends_digit (D : nat) (v : Q) :
  ends_with_digit (format_fixed D v) = true.
Proof.
  unfold format_fixed. destruct D as [| D].
  - apply ends_with_digit_append. apply str_of_Z_ends_digit.
  - do 3 apply ends_with_digit_append.
    unfold ends_with_digit. rewrite last_char_zero_pad.
    + apply str_of_Z_ends_digit.
    + apply ends_with_digit_nonempty. apply str_of_Z_ends_digit.
Qed.

Lemma digit_string (m : Z) :
  (0 <= m < 10)%Z -> exists c, str_of_Z m = String c "" /\ is_digit c = true.
Proof.
  intros Hm.
  assert (H : (m = 0 \/ m = 1 \/ m = 2 \/ m = 3 \/ m = 4 \/ m = 5 \/ m = 6 \/
               m = 7 \/ m = 8 \/ m = 9)%Z) by lia.
  repeat (destruct H as [-> | H]; [eexists; split; reflexivity |]).
  subst m. eexists; split; reflexivity.
Qed.

Lemma digit_is_not_point (c : ascii) : is_digit c = true -> Ascii.eqb "." c = false.
Proof.
  intros H. destruct (Ascii.eqb_spec "."%char c) as [<- | Hne]; [discriminate | reflexivity].
Qed.

Lemma strip_zero_point (A : string) (c : ascii) :
  ends_with_digit A = true -> is_digit c = true ->
  ends_with_digit (rstrip "." (rstrip "0" (A +:+ "." +:+ String c ""))) = true.
Proof.
  intros HA Hc. unfold rstrip.
  rewrite <- append_assoc, rstrip_by_snoc.
  destruct (Ascii.eqb "0" c).
  - rewrite rstrip_by_snoc. cbn [Ascii.eqb Bool.eqb].
    change (if false then rstrip_by (Ascii.eqb "0") A else A +:+ ".") with (A +:+ ".").
    rewrite rstrip_by_snoc. rewrite Ascii.eqb_refl.
    unfold ends_with_digit in HA.
    destruct (last_char A) as [d |] eqn:Hd; [| discriminate].
    rewrite (rstrip_by_keeps _ A d Hd (digit_is_not_point d HA)).
    unfold ends_with_digit. rewrite Hd. exact HA.
  - rewrite rstrip_by_snoc, (digit_is_not_point c Hc).
    apply ends_with_digit_append. exact Hc.
Qed.

Lemma format_fixed_1_shape (v : Q) :
  exists A c, format_fixed 1 v = A +:+ "." +:+ String c "" /\
              ends_with_digit A = true /\ is_digit c = true.
Proof.
  unfold format_fixed.
  change (10 ^ Z.of_nat 1)%Z with 10%Z.
  set (scaled := py_round (Qabs v * inject_Z 10)).
  destruct (digit_string (scaled mod 10)) as [c [Hc Hd]];
    [apply Z.mod_pos_bound; lia |].
  rewrite Hc. change (zero_pad 1 (String c "")) with (String c "").
  exists ((if Qlt_bool v 0 then "-" else "") +:+ str_of_Z (scaled / 10)), c.
  split; [rewrite append_assoc; reflexivity |].
  split; [| exact Hd].
  apply ends_with_digit_append. apply str_of_Z_ends_digit.
Qed.

Lemma stripped_ends_digit (v : Q) :
  ends_with_digit (rstrip "." (rstrip "0" (format_fixed 1 v))) = true.
Proof.
  destruct (format_fixed_1_shape v) as [A [c [-> [HA Hc]]]].
  apply strip_zero_point; assumption.
Qed.


(** *** Whole numbers *)

Lemma strip_zero_point_whole (A : string) :
  ends_with_digit A = true -> rstrip "." (rstrip "0" (A +:+ ".0")) = A.
Proof.
  intros HA. unfold rstrip.
  change ".0" with ("." +:+ String "0" "").
  rewrite <- append_assoc, rstrip_by_snoc. rewrite Ascii.eqb_refl.
  rewrite rstrip_by_snoc.
  change (Ascii.eqb "0" ".") with false. cbv iota.
  rewrite rstrip_by_snoc, Ascii.eqb_refl.
  unfold ends_with_digit in HA.
  destruct (last_char A) as [d |] eqn:Hd; [| discriminate].
  exact (rstrip_by_keeps _ A d Hd (digit_is_not_point d HA)).
Qed.

Lemma format_fixed_1_whole (z : Z) : format_fixed 1 (inject_Z z) = str_of_Z z +:+ ".0".
Proof.
  unfold format_fixed. change (10 ^ Z.of_nat 1)%Z with 10%Z.
  assert (Hs : py_round (Qabs (inject_Z z) * inject_Z 10) = (Z.abs z * 10)%Z).
  { rewrite Qabs_inject_Z, <- inject_Z_mult. apply py_round_inject_Z. }
  rewrite Hs, Z.div_mul, Z.mod_mul by lia.
  change (zero_pad 1 (str_of_Z 0)) with "0".
  assert (Hsign : Qlt_bool (inject_Z z) 0 = (z <? 0)%Z).
  { unfold Qlt_bool. change 0 with (inject_Z 0).
    destruct (Z.ltb_spec z 0) as [Hlt | Hge].
    - destruct (Qle_bool (inject_Z 0) (inject_Z z)) eqn:E; [| reflexivity].
      apply Qle_bool_iff in E. rewrite <- Zle_Qle in E. lia.
    - assert (E : Qle_bool (inject_Z 0) (inject_Z z) = true)
        by (apply Qle_bool_iff; rewrite <- Zle_Qle; exact Hge).
      rewrite E. reflexivity. }
  rewrite Hsign. destruct z as [| p | p]; reflexivity.
Qed.

Lemma is_integer_inject_Z (z : Z) : is_integer (inject_Z z) = true.
Proof. unfold is_integer. rewrite Qfloor_Z. apply Qeq_bool_refl. Qed.


(** * What the rich-text wrapper draws *)

Section RichTextDrawing.

Variable textbbox : string -> font -> Z * Z * Z * Z.
Variables (x max_w : Z) (first_line_x : option Z).

Hypothesis width_nonneg : forall t f, (0 <= fst (measure_text textbbox t f))%Z.
Hypothesis first_line_right : (x <= line_start x first_line_x 0)%Z.

Local Abbreviation tw := (tok_w textbbox).
Local Abbreviation lw := (line_w textbbox).
Local Abbreviation off := (first_line_offset x first_line_x).
Local Abbreviation wrap := (wrap_lines textbbox x max_w first_line_x).

(** One line: the tokens are drawn left to right, each where the previous
    one ended. *)
Lemma draw_line_tokens_acc (y : Z) (line : list token) (ops0 : list draw_op) (cx0 : Z) :
  fold_left (fun (acc : list draw_op * Z) (tb : token) =>
               let '(ops, cx) := acc in
               let f := token_font (snd tb) in
               let w := fst (measure_text textbbox (fst tb) f) in
               (ops ++ [DrawText cx y (fst tb) f], (cx + w)%Z))
            line (ops0, cx0)
  = (ops0 ++ fst (draw_line_tokens textbbox y cx0 line), (cx0 + lw line)%Z).
Proof.
  revert ops0 cx0. induction line as [| tb line IH]; intros ops0 cx0.
  - simpl. rewrite app_nil_r. f_equal. lia.
  - unfold draw_line_tokens. cbn [fold_left].
    rewrite (IH (ops0 ++ [_])), (IH ([] ++ [_])). cbn [fst].
    rewrite <- app_assoc. f_equal. simpl. unfold tok_w. lia.
Qed.

Lemma draw_line_tokens_cons (y cx : Z) (tb : token) (line : list token) :
  fst (draw_line_tokens textbbox y cx (tb :: line))
  = DrawText cx y (fst tb) (token_font (snd tb))
    :: fst (draw_line_tokens textbbox y (cx + tw tb) line).
Proof.
  unfold draw_line_tokens at 1. cbn [fold_left].
  rewrite draw_line_tokens_acc. reflexivity.
Qed.

Lemma draw_line_tokens_in (y cx : Z) (line : list token) (op : draw_op) :
  In op (fst (draw_line_tokens textbbox y cx line)) ->
  exists pre tb post,
    line = pre ++ tb :: post /\
    op = DrawText (cx + lw pre) y (fst tb) (token_font (snd tb)).
Proof.
  revert cx. induction line as [| tb line IH]; intros cx Hin.
  - destruct Hin.
  - rewrite draw_line_tokens_cons in Hin. destruct Hin as [<- | Hin].
    + exists [], tb, line. split; [reflexivity |]. simpl. f_equal. lia.
    + destruct (IH _ Hin) as [pre [tb' [post [-> ->]]]].
      exists (tb :: pre), tb', post. split; [reflexivity |]. simpl. f_equal. lia.
Qed.

Lemma draw_line_tokens_texts (y cx : Z) (line : list token) :
  drawn_texts (fst (draw_line_tokens textbbox y cx line)) = map fst line.
Proof.
  revert cx. induction line as [| tb line IH]; intros cx; [reflexivity |].
  rewrite draw_line_tokens_cons. simpl. rewrite IH. reflexivity.
Qed.

Lemma drawn_texts_app (a b : list draw_op) :
  drawn_texts (a ++ b) = drawn_texts a ++ drawn_texts b.
Proof. unfold drawn_texts. apply flat_map_app. Qed.

Lemma draw_lines_cons (line_gap : Z) (i : nat) (y : Z) (line : list token)
    (rest : list (list token)) :
  fst (draw_lines textbbox x first_line_x line_gap i y (line :: rest))
  = fst (draw_line_tokens textbbox y (line_start x first_line_x i) line)
    ++ fst (draw_lines textbbox x first_line_x line_gap (S i)
              (y + (font_size FONT_SMALL + line_gap)) rest).
Proof.
  cbn [draw_lines].
  destruct (draw_lines textbbox x first_line_x line_gap (S i)
              (y + (font_size FONT_SMALL + line_gap)) rest) as [ops' y'].
  reflexivity.
Qed.

Lemma draw_lines_texts (line_gap : Z) (lines : list (list token)) (i : nat) (y : Z) :
  drawn_texts (fst (draw_lines textbbox x first_line_x line_gap i y lines))
  = map fst (concat lines).
Proof.
  revert i y. induction lines as [| line rest IH]; intros i y; [reflexivity |].
  rewrite draw_lines_cons, drawn_texts_app, draw_line_tokens_texts, IH.
  simpl. rewrite map_app. reflexivity.
Qed.

Lemma draw_lines_in (line_gap : Z) (lines : list (list token)) (i : nat) (y : Z)
    (op : draw_op) :
  In op (fst (draw_lines textbbox x first_line_x line_gap i y lines)) ->
  exists k line,
    lines !! k = Some line /\
    In op (fst (draw_line_tokens textbbox
                  (y + Z.of_nat k * (font_size FONT_SMALL + line_gap))
                  (line_start x first_line_x (i + k)) line)).
Proof.
  revert i y. induction lines as [| line rest IH]; intros i y Hin.
  - destruct Hin.
  - rewrite draw_lines_cons in Hin. apply in_app_or in Hin as [Hin | Hin].
    + exists 0%nat, line. split; [reflexivity |].
      replace (i + 0)%nat with i by lia.
      replace (y + Z.of_nat 0 * (font_size FONT_SMALL + line_gap))%Z with y by lia.
      exact Hin.
    + destruct (IH _ _ Hin) as [k [l [Hk Hop]]].
      exists (S k), l. split; [exact Hk |].
      replace (i + S k)%nat with (S i + k)%nat by lia.
      replace (y + Z.of_nat (S k) * (font_size FONT_SMALL + line_gap))%Z
        with (y + (font_size FONT_SMALL + line_gap)
              + Z.of_nat k * (font_size FONT_SMALL + line_gap))%Z by lia.
      exact Hop.
Qed.

Lemma line_start_offset (k : nat) :
  line_start x first_line_x k = (x + if (k =? 0)%nat then off else 0)%Z.
Proof.
  unfold line_start, first_line_offset.
  destruct first_line_x; destruct (k =? 0)%nat; lia.
Qed.

Lemma draw_rich_wrapped_text_texts (y : Z) (tokens : list token)
    (font_reg font_bold : font) (line_gap : Z) :
  drawn_texts (fst (draw_rich_wrapped_text textbbox x max_w first_line_x
                      y tokens font_reg font_bold line_gap))
  = map fst (List.filter nonempty_text tokens).
Proof.
  unfold draw_rich_wrapped_text.
  rewrite draw_lines_texts, wrap_lines_concat. reflexivity.
Qed.

(** X9: the wrapper draws every token with a non-empty text exactly once, in
    the order of the token list; tokens with an empty text are not drawn. *)
Theorem rich_text_draws_tokens_in_order (y : Z) (tokens : list token)
    (font_reg font_bold : font) (line_gap : Z) :
  drawn_texts (fst (draw_rich_wrapped_text textbbox x max_w first_line_x
                      y tokens font_reg font_bold line_gap))
  = map fst (List.filter nonempty_text tokens).
Proof. apply draw_rich_wrapped_text_texts. Qed.

(** X10: every token is drawn on one of the lines of the block, at the
    vertical position of that line and not left of the margin [x]; and unless
    it is the first token of its line, it ends at or before [x + max_w].
    Only a token that opens a line can reach past the right margin. *)
Theorem rich_text_within_margins (y : Z) (tokens : list token)
    (font_reg font_bold : font) (line_gap : Z)
    (cx cy : Z) (t : string) (f : font) :
  In (DrawText cx cy t f)
     (fst (draw_rich_wrapped_text textbbox x max_w first_line_x
             y tokens font_reg font_bold line_gap)) ->
  exists k : nat,
    (k < length (wrap tokens))%nat /\
    cy = (y + Z.of_nat k * (font_size FONT_SMALL + line_gap))%Z /\
    (x <= cx)%Z /\
    (cx = line_start x first_line_x k \/
     (cx + fst (measure_text textbbox t f) <= x + max_w)%Z).
Proof.
  unfold draw_rich_wrapped_text. intros Hin.
  apply draw_lines_in in Hin as [k [line [Hk Hin]]].
  apply draw_line_tokens_in in Hin as [pre [tb [post [-> Hop]]]].
  injection Hop as -> -> -> ->.
  exists k. cbn [Nat.add].
  pose proof (line_w_nonneg textbbox width_nonneg pre) as Hpre.
  pose proof (line_w_nonneg textbbox width_nonneg post) as Hpost.
  assert (Hstart : (x <= line_start x first_line_x k)%Z).
  { destruct k; [exact first_line_right |].
    unfold line_start. destruct first_line_x; simpl; lia. }
  split; [apply lookup_lt_is_Some; eauto |].
  split; [reflexivity |].
  split; [lia |].
  destruct (Nat.eq_dec (length pre) 0%nat) as [Hnil | Hcons].
  - left. apply length_zero_iff_nil in Hnil. subst pre. simpl. lia.
  - right.
    assert (Hlen : (2 <= length (pre ++ tb :: post))%nat).
    { rewrite length_app. simpl. lia. }
    pose proof (wrap_lines_fit textbbox x max_w first_line_x tokens k _ Hk Hlen)
      as Hfit.
    rewrite line_w_app in Hfit.
    change (lw (tb :: post)) with (tw tb + lw post)%Z in Hfit.
    rewrite line_start_offset.
    change (fst (measure_text textbbox (fst tb) (token_font (snd tb)))) with (tw tb).
    lia.
Qed.

End RichTextDrawing.

Lemma rich_text_within_margins_witness :
  (forall t f, (0 <= fst (measure_text fixed_pitch_bbox t f))%Z) /\
  (0 <= line_start 0 (Some 20%Z) 0)%Z /\
  forall cx cy t f,
    In (DrawText cx cy t f)
       (fst (draw_rich_wrapped_text fixed_pitch_bbox 0 100 (Some 20%Z) 5
               [("aaaa", FlagNone); ("bbbb", FlagBool false); (",", FlagBool false)]
               FONT_SMALL FONT_SMALL_B 4)) ->
    (0 <= cx)%Z.
Proof.
  assert (Hw : forall t f, (0 <= fst (measure_text fixed_pitch_bbox t f))%Z).
  { intros t f. unfold measure_text, fixed_pitch_bbox. simpl. lia. }
  split; [exact Hw |]. split; [discriminate |].
  intros cx cy t f Hin.
  destruct (rich_text_within_margins fixed_pitch_bbox 0 100 (Some 20%Z) Hw
              ltac:(discriminate) 5 _ FONT_SMALL FONT_SMALL_B 4 cx cy t f Hin)
    as [k [_ [_ [Hx _]]]].
  exact Hx.
Defined.

(** * Footnote *)

Lemma prefix_append (a b : string) : String.prefix a (a +:+ b) = true.
Proof.
  induction a as [| x a IH]; [destruct b; reflexivity |].
  rewrite append_cons. simpl. destruct (ascii_dec x x); [exact IH | congruence].
Qed.

Lemma length_append (a b : string) :
  String.length (a +:+ b) = (String.length a + String.length b)%nat.
Proof.
  induction a as [| x a IH]; [reflexivity |].
  rewrite append_cons. simpl. rewrite IH. reflexivity.
Qed.

Lemma substring_all (s : string) : String.substring 0 (String.length s) s = s.
Proof. induction s as [| x s IH]; simpl; [reflexivity | rewrite IH; reflexivity]. Qed.

Lemma substring_drop_append (a b : string) :
  String.substring (String.length a) (String.length (a +:+ b) - String.length a) (a +:+ b) = b.
Proof.
  rewrite length_append.
  replace (String.length a + String.length b - String.length a)%nat
    with (String.length b) by lia.
  induction a as [| x a IH]; [apply substring_all |].
  rewrite append_cons. simpl. exact IH.
Qed.

Lemma str_mem_append (c : ascii) (a b : string) :
  str_mem c (a +:+ b) = str_mem c a || str_mem c b.
Proof.
  induction a as [| x a IH]; [reflexivity |].
  rewrite append_cons. simpl. rewrite IH. apply orb_assoc.
Qed.

Lemma str_mem_join (c : ascii) (sep : string) (l : list string) :
  str_mem c sep = false ->
  Forall (fun s => str_mem c s = false) l ->
  str_mem c (join sep l) = false.
Proof.
  intros Hsep Hl. induction Hl as [| s l Hs Hl IH]; [reflexivity |].
  destruct l as [| s' l]; [exact Hs |].
  change (join sep (s :: s' :: l)) with (s +:+ sep +:+ join sep (s' :: l)).
  rewrite !str_mem_append, Hs, Hsep, IH. reflexivity.
Qed.

(** A text without the first letter of [old] has no occurrence of it. *)
Lemma remove_all_fuel_absent (fuel : nat) (a : ascii) (old s : string) :
  str_mem a s = false -> remove_all_fuel fuel (String a old) s = s.
Proof.
  revert s. induction fuel as [| fuel IH]; intros s Hs; [reflexivity |].
  destruct s as [| x s]; [reflexivity |].
  simpl in Hs. apply orb_false_elim in Hs as [Hx Hs].
  cbn [remove_all_fuel String.prefix].
  destruct (ascii_dec a x) as [-> | Hne].
  - rewrite Ascii.eqb_refl in Hx. discriminate.
  - rewrite (IH s Hs). reflexivity.
Qed.

Lemma remove_all_prefixed (a : ascii) (old rest : string) :
  str_mem a rest = false ->
  remove_all (String a old) (String a old +:+ rest) = rest.
Proof.
  intros Hrest. unfold remove_all. cbn [remove_all_fuel].
  rewrite prefix_append, substring_drop_append.
  apply remove_all_fuel_absent. exact Hrest.
Qed.

Lemma footnote_names_without_N :
  Forall (fun s => str_mem "N" s = false) (macro_order ++ mandatory_micros).
Proof. repeat constructor. Qed.

Lemma Forall_filter_weaken {A : Type} (P : A -> Prop) (f : A -> bool) (l : list A) :
  Forall P l -> Forall P (List.filter f l).
Proof.
  intros H. induction H as [| a l Ha Hl IH]; simpl; [constructor |].
  destruct (f a); [constructor; assumption | exact IH].
Qed.

Lemma footnote_items_without_N (sm sv : list string) :
  Forall (fun s => str_mem "N" s = false)
         (List.filter (fun m => negb (str_in m sm)) macro_order
          ++ List.filter (fun m => negb (str_in m sv)) mandatory_micros).
Proof.
  pose proof footnote_names_without_N as H.
  apply Forall_app in H as [H1 H2].
  apply Forall_app. split; apply Forall_filter_weaken; assumption.
Qed.

Lemma footnote_lookup (i : Inputs) :
  module_globals i !! "footnote_items"
    = Some (VList (undeclared (in_selected_macros i) (in_selected_vm i))) /\
  module_globals i !! "footnote_text"
    = Some (VStr (match undeclared (in_selected_macros i) (in_selected_vm i) with
                  | [] => ""
                  | _ => footnote_prefix
                         +:+ join ", " (undeclared (in_selected_macros i) (in_selected_vm i))
                  end)).
Proof. split; lookup_name. Qed.

(** X11: the footnote of the linear format spells the module's footnote.
    When some mandatory nutrient is undeclared, [footnote_text] is the fixed
    opening followed by the undeclared names joined with ", ", and removing
    the opening from it, as [draw_fig5] does before adding the opening back
    as a token of its own, leaves exactly that list. *)
Theorem footnote_text_splits (i : Inputs) :
  exists (items : list string) (text : string),
    module_globals i !! "footnote_items" = Some (VList items) /\
    module_globals i !! "footnote_text" = Some (VStr text) /\
    (items = [] -> text = "") /\
    (items <> [] ->
     text = footnote_prefix +:+ join ", " items /\
     remove_all footnote_prefix text = join ", " items /\
     footnote_prefix +:+ remove_all footnote_prefix text = text).
Proof.
  destruct (footnote_lookup i) as [Hitems Htext].
  pose proof (footnote_items_without_N (in_selected_macros i) (in_selected_vm i)) as HN.
  fold (undeclared (in_selected_macros i) (in_selected_vm i)) in HN.
  set (items := undeclared (in_selected_macros i) (in_selected_vm i)) in *.
  exists items. eexists. split; [exact Hitems |]. split; [exact Htext |].
  assert (Hrm : remove_all footnote_prefix (footnote_prefix +:+ join ", " items)
                = join ", " items).
  { apply (remove_all_prefixed "N" "o es fuente significativa de ").
    apply str_mem_join; [reflexivity | exact HN]. }
  split.
  - intros ->. reflexivity.
  - intros Hne. destruct items as [| it items']; [congruence |].
    rewrite Hrm. repeat split.
Qed.

Lemma filter_nil_iff {A : Type} (f : A -> bool) (l : list A) :
  List.filter f l = [] <-> forall a, In a l -> f a = false.
Proof.
  induction l as [| a l IH]; simpl.
  - split; [intros _ a [] | reflexivity].
  - destruct (f a) eqn:E.
    + split; [discriminate |]. intros H. specialize (H a (or_introl eq_refl)). congruence.
    + rewrite IH. split.
      * intros H b [<- | Hb]; [exact E | apply H; exact Hb].
      * intros H b Hb. apply H. right. exact Hb.
Qed.

(** X12: the footnote is empty exactly when every macronutrient of the fixed
    list and each of the five mandatory micronutrients is declared; otherwise
    it names exactly the undeclared ones. *)
Theorem footnote_empty_iff_all_declared (i : Inputs) :
  exists (items : list string) (text : string),
    module_globals i !! "footnote_items" = Some (VList items) /\
    module_globals i !! "footnote_text" = Some (VStr text) /\
    (text = "" <->
     (forall m, In m macro_order -> str_in m (in_selected_macros i) = true) /\
     (forall m, In m mandatory_micros -> str_in m (in_selected_vm i) = true)) /\
    (forall m, In m items <->
       (In m macro_order /\ str_in m (in_selected_macros i) = false) \/
       (In m mandatory_micros /\ str_in m (in_selected_vm i) = false)).
Proof.
  destruct (footnote_lookup i) as [Hitems Htext].
  do 2 eexists. split; [exact Hitems |]. split; [exact Htext |].
  unfold undeclared. split.
  - set (fm := List.filter _ macro_order). set (fv := List.filter _ mandatory_micros).
    assert (Hnil : fm ++ fv = [] <->
                   (forall m, In m macro_order -> str_in m (in_selected_macros i) = true) /\
                   (forall m, In m mandatory_micros -> str_in m (in_selected_vm i) = true)).
    { split.
      - intros H. apply app_eq_nil in H as [H1 H2].
        unfold fm, fv in *. rewrite filter_nil_iff in H1, H2.
        split; intros m Hm; [specialize (H1 m Hm) | specialize (H2 m Hm)];
          apply negb_false_iff; assumption.
      - intros [H1 H2].
        assert (E1 : fm = []).
        { apply filter_nil_iff. intros m Hm. rewrite (H1 m Hm). reflexivity. }
        assert (E2 : fv = []).
        { apply filter_nil_iff. intros m Hm. rewrite (H2 m Hm). reflexivity. }
        rewrite E1, E2. reflexivity. }
    rewrite <- Hnil. destruct (fm ++ fv) as [| it rest].
    + split; reflexivity.
    + split; [| discriminate]. unfold footnote_prefix. rewrite append_cons. discriminate.
  - intros m. rewrite in_app_iff, !filter_In, !negb_true_iff. reflexivity.
Qed.

(** * Token streams of the linear format *)

Lemma continues_refl (init : list token) : continues init init.
Proof. exists []. rewrite app_nil_r. reflexivity. Qed.

Lemma continues_app (init tokens ext : list token) :
  continues init tokens -> continues init (tokens ++ ext).
Proof. intros [rest ->]. exists (rest ++ ext). rewrite app_assoc. reflexivity. Qed.

Lemma tokens_item_last (label value unit : string) (emph : bool) :
  unit <> "" ->
  exists a b c t,
    tokens_item label value unit false emph = [a; b; c; t] /\
    token_eqb t separator = false.
Proof.
  intros Hu. unfold tokens_item.
  destruct (String.eqb_spec unit "") as [-> | _]; [congruence |].
  cbn [negb app]. do 4 eexists. split; [reflexivity |].
  unfold token_eqb, separator. cbn [snd].
  destruct emph; cbn [flag_eqb]; apply andb_false_r.
Qed.

Lemma well_separated_item (tokens : list token) (label value unit : string) (emph : bool) :
  unit <> "" ->
  well_separated (tokens ++ tokens_item label value unit false emph ++ [separator]).
Proof.
  intros Hu. destruct (tokens_item_last label value unit emph Hu) as [a [b [c [t [-> Ht]]]]].
  exists (tokens ++ [a; b; c]), t. split; [| exact Ht].
  rewrite <- app_assoc. reflexivity.
Qed.

Lemma add_macro_item_ws (g : gmap string pyval) (sm : list string)
    (name key : string) (fmt : num -> string) (unit : string) (emph : bool)
    (init tokens : list token) (v : num) :
  g !! "selected_macros" = Some (VList sm) ->
  g !! key = Some (VNum v) ->
  unit <> "" ->
  continues init tokens -> well_separated tokens ->
  exists tokens',
    add_macro_item name key fmt unit emph tokens g = Ok tokens' /\
    continues init tokens' /\ well_separated tokens'.
Proof.
  intros Hsm Hkey Hu Hc Hw. unfold add_macro_item.
  rewrite (bind_ok _ _ _ _ (get_list_ok _ _ _ Hsm)).
  destruct (str_in name sm).
  - rewrite (bind_ok _ _ _ _ (get_num_ok _ _ _ Hkey)).
    eexists. split; [reflexivity |]. split.
    + apply continues_app. exact Hc.
    + apply well_separated_item. exact Hu.
  - eexists. split; [reflexivity |]. split; assumption.
Qed.

Lemma add_micro_items_ws (g : gmap string pyval) (sv : list string)
    (dict_name : string) (d : gmap (string * string) Q)
    (names : list string) (init tokens : list token) :
  g !! "selected_vm" = Some (VList sv) ->
  g !! dict_name = Some (VDict d) ->
  Forall (fun n => forall s, String.eqb (n +:+ s) ", " = false) names ->
  continues init tokens -> well_separated tokens ->
  exists tokens',
    add_micro_items dict_name names tokens g = Ok tokens' /\
    continues init tokens' /\ well_separated tokens'.
Proof.
  intros Hsv Hd Hnames. revert tokens.
  induction Hnames as [| name rest Hname Hrest IH]; intros tokens Hc Hw;
    cbn [add_micro_items].
  - eexists. split; [reflexivity |]. split; assumption.
  - rewrite (bind_ok _ _ _ _ (get_list_ok _ _ _ Hsv)).
    destruct (str_in name sv).
    + rewrite (bind_ok _ _ _ _ (get_dict_ok _ _ _ Hd)). apply IH.
      * apply continues_app. exact Hc.
      * eexists tokens, _. split; [reflexivity |].
        unfold token_eqb, separator. cbn [fst snd]. rewrite Hname. reflexivity.
    + apply IH; assumption.
Qed.

Lemma mandatory_names_not_separator :
  Forall (fun n => forall s, String.eqb (n +:+ s) ", " = false)
         ["Vitamina A"; "Vitamina D"; "Hierro"; "Calcio"; "Zinc"].
Proof. repeat constructor. Qed.

Ltac run_macro_ws :=
  lazymatch goal with
  | Hc : continues ?init ?t, Hw : well_separated ?t
    |- context [bind (add_macro_item ?n ?k ?f ?u ?e ?t) ?K ?g] =>
      let H := fresh "Hstep" in
      let t' := fresh "tokens" in
      let Hc' := fresh "Hc" in
      let Hw' := fresh "Hw" in
      assert (H : exists t', add_macro_item n k f u e t g = Ok t' /\
                             continues init t' /\ well_separated t')
        by (eapply add_macro_item_ws;
            [lookup_name | lookup_name | discriminate | exact Hc | exact Hw]);
      destruct H as [t' [H [Hc' Hw']]];
      rewrite (bind_ok _ K g t' H); cbv beta; clear H Hc Hw
  end.

(** The per-100 block. *)
Lemma fig5_tokens_100_shape (i : Inputs) :
  in_include_poly i = false ->
  exists tokens,
    fig5_tokens_100 (module_globals i) = Ok tokens /\
    continues [("Calorías", FlagStr "emph")] tokens /\
    well_separated tokens.
Proof.
  intros Hp. unfold fig5_tokens_100.
  erewrite bind_ok by (apply get_num_ok; lookup_name). cbv beta zeta.
  match goal with
  | |- context [bind (add_macro_item _ _ _ _ _ ?t) _ _] =>
      assert (Hc : continues [("Calorías", FlagStr "emph")] t)
        by (eexists; reflexivity);
      assert (Hw : well_separated t)
        by (exact (well_separated_item [] "Calorías" _ "kcal" true ltac:(discriminate)))
  end.
  do 5 run_macro_ws.
  erewrite bind_ok
    by (apply add_poly_item_skipped; rewrite include_poly_lookup, Hp; reflexivity).
  do 4 run_macro_ws.
  eapply add_micro_items_ws;
    [lookup_name | lookup_name | exact mandatory_names_not_separator
    | eassumption | eassumption].
Qed.

Ltac run_micro_ws :=
  lazymatch goal with
  | Hc : continues ?init ?t, Hw : well_separated ?t
    |- context [bind (add_micro_items ?dn ?ns ?t) ?K ?g] =>
      let H := fresh "Hstep" in
      let t' := fresh "tokens" in
      let Hc' := fresh "Hc" in
      let Hw' := fresh "Hw" in
      assert (H : exists t', add_micro_items dn ns t g = Ok t' /\
                             continues init t' /\ well_separated t')
        by (eapply add_micro_items_ws;
            [lookup_name | lookup_name | exact mandatory_names_not_separator
            | exact Hc | exact Hw]);
      destruct H as [t' [H [Hc' Hw']]];
      rewrite (bind_ok _ K g t' H); cbv beta; clear H Hc Hw
  end.

Lemma pop_trailing_comma_ws (a : token) (tokens : list token) :
  continues [a] tokens -> well_separated tokens ->
  exists body t,
    tokens = body ++ [t; separator] /\
    pop_trailing_comma tokens = body ++ [t] /\
    token_eqb t separator = false /\
    continues [a] (body ++ [t]).
Proof.
  intros [rest Hrest] [body [t [-> Ht]]].
  exists body, t. split; [reflexivity |]. split; [| split; [exact Ht |]].
  - unfold pop_trailing_comma.
    replace (body ++ [t; separator]) with ((body ++ [t]) ++ [separator])
      by (rewrite <- app_assoc; reflexivity).
    rewrite last_snoc. change (token_eqb separator (", ", FlagBool false)) with true.
    cbv iota. apply removelast_last.
  - destruct body as [| b body]; simpl in Hrest.
    + injection Hrest as -> _. exists []. reflexivity.
    + injection Hrest as -> _. exists (body ++ [t]). reflexivity.
Qed.

Lemma fig5_token_streams_aux (i : Inputs) :
  in_include_poly i = false ->
  exists (tokens_100 tokens_pp body : list token) (t : token) (text : string),
    fig5_tokens_100 (module_globals i) = Ok tokens_100 /\
    continues [("Calorías", FlagStr "emph")] tokens_100 /\
    well_separated tokens_100 /\
    fig5_tokens_pp (module_globals i) = Ok tokens_pp /\
    module_globals i !! "footnote_text" = Some (VStr text) /\
    continues [("Tamaño de porción:", FlagBool true)] (body ++ [t]) /\
    token_eqb t separator = false /\
    tokens_pp =
      (body ++ [t]) ++
      (if String.eqb (strip text) "" then []
       else [(". ", FlagBool false);
             (footnote_prefix, FlagBool false);
             (remove_all footnote_prefix text, FlagBool false)]).
Proof.
  intros Hp.
  destruct (fig5_tokens_100_shape i Hp) as [t100 [H100 [Hc100 Hw100]]].
  exists t100. unfold fig5_tokens_pp.
  erewrite bind_ok by (apply get_str_ok; lookup_name). cbv beta.
  erewrite bind_ok by (apply get_num_ok; lookup_name). cbv beta.
  erewrite bind_ok by (apply get_str_ok; lookup_name). cbv beta zeta.
  erewrite bind_ok by (apply get_str_ok; lookup_name). cbv beta zeta.
  erewrite bind_ok by (apply get_num_ok; lookup_name). cbv beta zeta.
  match goal with
  | |- context [bind (add_macro_item _ _ _ _ _ ?t) _ _] =>
      assert (Hc : continues [("Tamaño de porción:", FlagBool true)] t)
        by (eexists; reflexivity);
      assert (Hw : well_separated t)
        by (apply well_separated_item; discriminate)
  end.
  do 5 run_macro_ws.
  erewrite bind_ok
    by (apply add_poly_item_skipped; rewrite include_poly_lookup, Hp; reflexivity).
  do 4 run_macro_ws.
  run_micro_ws. cbv zeta.
  destruct (footnote_lookup i) as [_ Htext].
  set (text := match undeclared (in_selected_macros i) (in_selected_vm i) with
               | [] => ""
               | _ => _
               end) in Htext.
  rewrite (bind_ok _ _ _ _ (get_str_ok _ _ _ Htext)).
  match goal with
  | Hc : continues _ ?t, Hw : well_separated ?t |- _ =>
      destruct (pop_trailing_comma_ws _ t Hc Hw) as [body [tl [_ [Hpop [Htl Hcb]]]]]
  end.
  rewrite Hpop.
  exists ((body ++ [tl]) ++
          (if String.eqb (strip text) "" then []
           else [(". ", FlagBool false);
                 (footnote_prefix, FlagBool false);
                 (remove_all footnote_prefix text, FlagBool false)])),
         body, tl, text.
  split; [exact H100 |]. split; [exact Hc100 |]. split; [exact Hw100 |].
  split; [| split; [exact Htext | split; [exact Hcb | split; [exact Htl | reflexivity]]]].
  destruct (String.eqb (strip text) ""); cbn [negb];
    [rewrite app_nil_r |]; reflexivity.
Qed.




Lemma wrap_lines_nonempty (textbbox : string -> font -> Z * Z * Z * Z)
    (x max_w : Z) (first_line_x : option Z) (a : token) (tokens : list token) :
  nonempty_text a = true -> continues [a] tokens ->
  (1 <= length (wrap_lines textbbox x max_w first_line_x tokens))%nat.
Proof.
  intros Ha [rest ->]. change ([a] ++ rest) with (a :: rest).
  pose proof (wrap_lines_concat textbbox x max_w first_line_x (a :: rest)) as H.
  simpl in H. rewrite Ha in H.
  destruct (wrap_lines textbbox x max_w first_line_x (a :: rest)); [discriminate |].
  simpl. lia.
Qed.

(** X14: the image [draw_fig5] returns.  Whenever it returns one, the image
    is 1700 pixels wide and 42 + 30 n pixels high, where n is the number of
    lines into which [wrap_lines] breaks the two token streams, at least one
    line each, between the margin 28 and the width 1644, the first line of
    each block starting after its heading; and the texts drawn are the two
    headings and, after each, every token of its block that has a text, in
    order. *)
Theorem draw_fig5_image (textbbox : string -> font -> Z * Z * Z * Z) (i : Inputs)
    (img : Image) :
  draw_fig5 textbbox (module_globals i) = Ok img ->
  exists (is_liquid : bool) (tokens_100 tokens_pp : list token),
    module_globals i !! "is_liquid" = Some (VBool is_liquid) /\
    fig5_tokens_100 (module_globals i) = Ok tokens_100 /\
    fig5_tokens_pp (module_globals i) = Ok tokens_pp /\
    let heading := "Información nutricional" in
    let unit_label := " (" +:+ (if is_liquid then "100 mL" else "100 g") +:+ "):" in
    let w_main := fst (measure_text textbbox heading FONT_SMALL_B) in
    let lines_100 :=
      wrap_lines textbbox 28 1644
        (Some (28 + w_main + fst (measure_text textbbox unit_label FONT_SMALL) + 10)%Z)
        tokens_100 in
    let lines_pp :=
      wrap_lines textbbox 28 1644
        (Some (28 + w_main + fst (measure_text textbbox " (porción):" FONT_SMALL) + 10)%Z)
        tokens_pp in
    (1 <= length lines_100)%nat /\ (1 <= length lines_pp)%nat /\
    im_width img = 1700%Z /\
    im_height img = (42 + 30 * Z.of_nat (length lines_100 + length lines_pp))%Z /\
    drawn_texts (im_ops img) =
      [heading; unit_label]
      ++ map fst (List.filter nonempty_text tokens_100)
      ++ [heading; " (porción):"]
      ++ map fst (List.filter nonempty_text tokens_pp).
Proof.
  intros Hrun.
  assert (Hp : in_include_poly i = false).
  { destruct (in_include_poly i) eqn:Hp; [| reflexivity]. exfalso.
    revert Hrun. unfold draw_fig5. cbv zeta.
    erewrite bind_ok by (apply get_bool_ok; lookup_name). cbv beta.
    rewrite (bind_raise _ _ _ _ (fig5_tokens_100_raises i Hp)). discriminate. }
  destruct (fig5_token_streams_aux i Hp)
    as [t100 [tpp [body [t [text [H100 [Hc100 [_ [Hpp [_ [Hcpp [_ Htpp]]]]]]]]]]]].
  assert (Hcpp' : continues [("Tamaño de porción:", FlagBool true)] tpp).
  { rewrite Htpp. apply continues_app. exact Hcpp. }
  assert (Hliq : exists b, module_globals i !! "is_liquid" = Some (VBool b))
    by (eexists; lookup_name).
  destruct Hliq as [liq Hliq].
  exists liq, t100, tpp.
  split; [exact Hliq |]. split; [exact H100 |]. split; [exact Hpp |].
  cbv zeta.
  revert Hrun. unfold draw_fig5. cbv zeta.
  rewrite (bind_ok _ _ _ _ (get_bool_ok _ _ _ Hliq)). cbv beta.
  rewrite (bind_ok _ _ _ _ H100). cbv beta.
  change (BORDER_W + CELL_PAD_X)%Z with 28%Z.
  change (1700 - 2 * BORDER_W - 2 * CELL_PAD_X)%Z with 1644%Z.
  match goal with
  | |- context [draw_rich_wrapped_text textbbox ?x ?mw ?flx ?y t100 ?fr ?fb ?gap] =>
      pose proof (draw_rich_wrapped_text_texts textbbox x mw flx y t100 fr fb gap)
        as Htexts100;
      pose proof (draw_lines_y textbbox x flx gap (wrap_lines textbbox x mw flx t100) 0 y)
        as Hy100;
      pose proof (wrap_lines_nonempty textbbox x mw flx ("Calorías", FlagStr "emph")
                    t100 eq_refl Hc100) as Hn100;
      set (L100 := wrap_lines textbbox x mw flx t100) in *;
      change (snd (draw_lines textbbox x flx gap 0 y L100))
        with (snd (draw_rich_wrapped_text textbbox x mw flx y t100 fr fb gap)) in Hy100;
      destruct (draw_rich_wrapped_text textbbox x mw flx y t100 fr fb gap)
        as [ops_100 y1]
  end.
  cbn [fst snd] in Htexts100, Hy100.
  rewrite (bind_ok _ _ _ _ Hpp). cbv beta.
  match goal with
  | |- context [draw_rich_wrapped_text textbbox ?x ?mw ?flx ?y tpp ?fr ?fb ?gap] =>
      pose proof (draw_rich_wrapped_text_texts textbbox x mw flx y tpp fr fb gap)
        as Htextspp;
      pose proof (draw_lines_y textbbox x flx gap (wrap_lines textbbox x mw flx tpp) 0 y)
        as Hypp;
      pose proof (wrap_lines_nonempty textbbox x mw flx
                    ("Tamaño de porción:", FlagBool true) tpp eq_refl Hcpp') as Hnpp;
      set (Lpp := wrap_lines textbbox x mw flx tpp) in *;
      change (snd (draw_lines textbbox x flx gap 0 y Lpp))
        with (snd (draw_rich_wrapped_text textbbox x mw flx y tpp fr fb gap)) in Hypp;
      destruct (draw_rich_wrapped_text textbbox x mw flx y tpp fr fb gap)
        as [ops_pp y2]
  end.
  cbn [fst snd] in Htextspp, Hypp.
  intros Hrun. injection Hrun as <-.
  cbn [im_width im_height im_ops].
  split; [exact Hn100 |]. split; [exact Hnpp |].
  split; [reflexivity |]. split.
  - rewrite Hypp, Hy100. unfold BORDER_W, FONT_SMALL, get_font. cbn [font_size]. lia.
  - match goal with
    | |- drawn_texts (?a :: ?b :: ?rest) = _ =>
        change (drawn_texts (a :: b :: rest)) with (drawn_texts ([a; b] ++ rest))
    end.
    rewrite !drawn_texts_app, Htexts100, Htextspp. cbn [drawn_texts flat_map app].
    rewrite app_nil_r. rewrite <- !app_assoc. reflexivity.
Qed.

Lemma draw_fig5_image_witness :
  exists img,
    draw_fig5 fixed_pitch_bbox (module_globals (default_inputs false)) = Ok img /\
    im_width img = 1700%Z.
Proof.
  destruct (draw_fig5 fixed_pitch_bbox (module_globals (default_inputs false)))
    as [img | e] eqn:E.
  - exists img. split; [reflexivity |].
    destruct (draw_fig5_image fixed_pitch_bbox (default_inputs false) img E)
      as (liq & t100 & tpp & _ & _ & _ & _ & _ & Hw & _).
    exact Hw.
  - exfalso. vm_compute in E. discriminate E.
Defined.

(** * Rows of the vertical formats *)

Lemma add_common_row_step (i : Inputs) (selection name key100 keypp unit : string)
    (indent : Z) (bold : bool) (rows : list Row) (done : list string)
    (sel : list string) (v100 vpp : num) :
  module_globals i !! selection = Some (VList sel) ->
  module_globals i !! key100 = Some (VNum v100) ->
  module_globals i !! keypp = Some (VNum vpp) ->
  str_in name sel = row_declared i name ->
  bold = str_in name emphasised_labels ->
  (0 <= indent <= 2)%Z ->
  map row_label rows = List.filter (row_declared i) done ->
  Forall (fun r => row_bold r = str_in (row_label r) emphasised_labels /\
                   (0 <= row_indent r <= 2)%Z /\ row_micro r = false) rows ->
  exists rows',
    add_common_row selection name key100 keypp unit indent bold rows (module_globals i)
      = Ok rows' /\
    map row_label rows' = List.filter (row_declared i) (done ++ [name]) /\
    Forall (fun r => row_bold r = str_in (row_label r) emphasised_labels /\
                     (0 <= row_indent r <= 2)%Z /\ row_micro r = false) rows'.
Proof.
  intros Hsel H100 Hpp Hdecl Hbold Hind Hmap Hall. unfold add_common_row.
  rewrite (bind_ok _ _ _ _ (get_list_ok _ _ _ Hsel)).
  rewrite List.filter_app. cbn [List.filter]. rewrite <- Hdecl.
  destruct (str_in name sel).
  - rewrite (bind_ok _ _ _ _ (get_num_ok _ _ _ H100)).
    rewrite (bind_ok _ _ _ _ (get_num_ok _ _ _ Hpp)).
    eexists. split; [reflexivity |]. split.
    + rewrite map_app, Hmap. reflexivity.
    + apply Forall_app. split; [exact Hall |].
      constructor; [| constructor]. cbn. auto.
  - eexists. split; [reflexivity |]. split; [| exact Hall].
    rewrite app_nil_r. exact Hmap.
Qed.

Ltac run_row_step i :=
  lazymatch goal with
  | Hm : map row_label ?rows = List.filter (row_declared i) ?done,
    Ha : Forall _ ?rows
    |- context [add_common_row ?s ?n ?k1 ?k2 ?u ?ind ?b ?rows] =>
      let H := fresh "Hstep" in
      let r' := fresh "rows" in
      let Hm' := fresh "Hm" in
      let Ha' := fresh "Ha" in
      destruct (add_common_row_step i s n k1 k2 u ind b rows done _ _ _
                  ltac:(lookup_name) ltac:(lookup_name) ltac:(lookup_name)
                  ltac:(reflexivity) ltac:(reflexivity) ltac:(lia) Hm Ha)
        as [r' [H [Hm' Ha']]];
      clear Hm Ha
  end.

Lemma common_rows_spec (i : Inputs) :
  exists rows,
    common_rows (module_globals i) = Ok rows /\
    map row_label rows = List.filter (row_declared i) row_order /\
    Forall (fun r => row_bold r = str_in (row_label r) emphasised_labels /\
                     (0 <= row_indent r <= 2)%Z /\ row_micro r = false) rows.
Proof.
  unfold common_rows. cbv zeta.
  assert (Hm : map row_label (@nil Row) = List.filter (row_declared i) []) by reflexivity.
  assert (Ha : Forall (fun r => row_bold r = str_in (row_label r) emphasised_labels /\
                                (0 <= row_indent r <= 2)%Z /\ row_micro r = false)
                      (@nil Row)) by constructor.
  do 10 (run_row_step i; rewrite (bind_ok _ _ _ _ Hstep); cbv beta; clear Hstep).
  run_row_step i.
  eexists. split; [exact Hstep |]. split; assumption.
Qed.

(** X15: [common_rows] never fails and returns one row per declared
    nutrient, in the fixed order of [row_order] whatever the order of the
    selection; a row is bold exactly when its label is one of those the
    column solver measures in the emphasis font, its indent is 0, 1 or 2, and
    none is marked as a micronutrient. *)
Theorem common_rows_in_fixed_order (i : Inputs) :
  exists rows,
    common_rows (module_globals i) = Ok rows /\
    map row_label rows = List.filter (row_declared i) row_order /\
    Forall (fun r => row_bold r = str_in (row_label r) emphasised_labels /\
                     (0 <= row_indent r <= 2)%Z /\ row_micro r = false) rows.
Proof. apply common_rows_spec. Qed.


(** * Footnote paragraph of the vertical formats *)

Lemma split_space_nonempty (s : string) : split_space s <> [].
Proof.
  induction s as [| c s IH]; simpl; [discriminate |].
  destruct (Ascii.eqb c " "); [discriminate |].
  destruct (split_space s); discriminate.
Qed.

Lemma join_cons_char (sep : string) (c : ascii) (w : string) (ws : list string) :
  join sep (String c w :: ws) = String c (join sep (w :: ws)).
Proof. destruct ws; reflexivity. Qed.

Lemma join_split_space (s : string) : join " " (split_space s) = s.
Proof.
  induction s as [| c s IH]; [reflexivity |].
  simpl. destruct (Ascii.eqb_spec c " ") as [-> | Hne].
  - pose proof (split_space_nonempty s) as Hs.
    destruct (split_space s) as [| w ws]; [congruence |].
    change (join " " ("" :: w :: ws)) with ("" +:+ " " +:+ join " " (w :: ws)).
    rewrite IH. reflexivity.
  - pose proof (split_space_nonempty s) as Hs.
    destruct (split_space s) as [| w ws]; [congruence |].
    rewrite join_cons_char, IH. reflexivity.
Qed.

Lemma join_app (sep : string) (l r : list string) :
  l <> [] -> r <> [] -> join sep (l ++ r) = join sep l +:+ sep +:+ join sep r.
Proof.
  intros Hl Hr. induction l as [| a l IH]; [congruence |].
  destruct l as [| b l].
  - destruct r as [| c r]; [congruence | reflexivity].
  - change (join sep ((a :: b :: l) ++ r)) with (a +:+ sep +:+ join sep ((b :: l) ++ r)).
    rewrite IH by discriminate.
    change (join sep (a :: b :: l)) with (a +:+ sep +:+ join sep (b :: l)).
    rewrite !append_assoc. reflexivity.
Qed.

Lemma concat_nonempty {A : Type} (Ls : list (list A)) :
  Ls <> [] -> Forall (fun L => L <> []) Ls -> concat Ls <> [].
Proof.
  intros Hne Hall. destruct Hall as [| L Ls HL _]; [congruence |].
  simpl. destruct L; [congruence | discriminate].
Qed.

Lemma join_concat (sep : string) (Ls : list (list string)) :
  Forall (fun L => L <> []) Ls ->
  join sep (map (join sep) Ls) = join sep (concat Ls).
Proof.
  intros Hall. induction Hall as [| L Ls HL Hall IH]; [reflexivity |].
  destruct Ls as [| L' Ls].
  - simpl. rewrite app_nil_r. reflexivity.
  - change (join sep (map (join sep) (L :: L' :: Ls)))
      with (join sep L +:+ sep +:+ join sep (map (join sep) (L' :: Ls))).
    rewrite IH. cbn [concat].
    rewrite (join_app sep L (L' ++ concat Ls));
      [reflexivity | exact HL |].
    apply (concat_nonempty (L' :: Ls)); [discriminate | exact Hall].
Qed.

Section FootnoteParagraph.

Variable textbbox : string -> font -> Z * Z * Z * Z.
Variable max_line_width : Z.

Local Abbreviation fits := (footnote_line_fits textbbox max_line_width).

Lemma footnote_fold_inv (words : list string) (Ls : list (list string))
    (lines current : list string) :
  lines = map (join " ") Ls ->
  Forall (fun L => L <> [] /\ fits L) Ls ->
  fits current ->
  exists Ls' current',
    fold_left (footnote_step textbbox max_line_width) words (lines, current)
      = (map (join " ") Ls', current') /\
    Forall (fun L => L <> [] /\ fits L) Ls' /\
    fits current' /\
    concat Ls' ++ current' = concat Ls ++ current ++ words.
Proof.
  revert Ls lines current. induction words as [| w words IH];
    intros Ls lines current Hlines HLs Hcur.
  - exists Ls, current. rewrite Hlines, app_nil_r. auto.
  - cbn [fold_left footnote_step].
    destruct (Z.leb_spec
                (fst (measure_text textbbox (join " " (current ++ [w])) FONT_SMALL))
                max_line_width) as [Hfit | Hover].
    + destruct (IH Ls lines (current ++ [w]) Hlines HLs (fun _ => Hfit))
        as [Ls' [c' [Hrun [HLs' [Hc' Hcat]]]]].
      exists Ls', c'. rewrite Hrun, Hcat, <- app_assoc. auto.
    + destruct current as [| c0 current].
      * destruct (IH Ls lines [w] Hlines HLs) as [Ls' [c' [Hrun [HLs' [Hc' Hcat]]]]];
          [intros Hlen; simpl in Hlen; lia |].
        exists Ls', c'. rewrite Hrun, Hcat. auto.
      * destruct (IH (Ls ++ [c0 :: current]) (lines ++ [join " " (c0 :: current)]) [w])
          as [Ls' [c' [Hrun [HLs' [Hc' Hcat]]]]].
        -- rewrite Hlines, map_app. reflexivity.
        -- apply Forall_app. split; [exact HLs |].
           constructor; [| constructor]. split; [discriminate | exact Hcur].
        -- intros Hlen. simpl in Hlen. lia.
        -- exists Ls', c'. rewrite Hrun, Hcat, concat_app. cbn [concat].
           rewrite app_nil_r, <- !app_assoc. auto.
Qed.

(** X16: the footnote paragraph of the vertical formats.  The lines hold
    the words of the text, in order, each word whole; joined again with
    single spaces they spell the text; and every line of two or more words
    measures at most the available width. *)
Theorem footnote_lines_partition (base_text : string) :
  exists Ls : list (list string),
    footnote_lines textbbox max_line_width base_text = map (join " ") Ls /\
    concat Ls = split_space base_text /\
    Forall (fun L => L <> []) Ls /\
    (forall L, In L Ls -> (2 <= length L)%nat ->
       (fst (measure_text textbbox (join " " L) FONT_SMALL) <= max_line_width)%Z) /\
    join " " (footnote_lines textbbox max_line_width base_text) = base_text.
Proof.
  unfold footnote_lines.
  destruct (footnote_fold_inv (split_space base_text) [] [] [])
    as [Ls [cur [Hrun [HLs [Hcur Hcat]]]]];
    [reflexivity | constructor | intros Hlen; simpl in Hlen; lia |].
  rewrite Hrun. cbn [concat app] in Hcat.
  assert (Hfinal : exists Ls',
            match cur with [] => map (join " ") Ls
                         | _ => map (join " ") Ls ++ [join " " cur] end
            = map (join " ") Ls' /\
            concat Ls' = split_space base_text /\
            Forall (fun L => L <> [] /\ fits L) Ls').
  { destruct cur as [| c0 cur].
    - exists Ls. rewrite app_nil_r in Hcat. auto.
    - exists (Ls ++ [c0 :: cur]). rewrite map_app, concat_app. cbn [concat map].
      rewrite app_nil_r. split; [reflexivity |]. split; [exact Hcat |].
      apply Forall_app. split; [exact HLs |].
      constructor; [| constructor]. split; [discriminate | exact Hcur]. }
  destruct Hfinal as [Ls' [-> [Hcat' HLs']]].
  exists Ls'. split; [reflexivity |]. split; [exact Hcat' |].
  assert (Hne : Forall (fun L : list string => L <> []) Ls').
  { eapply List.Forall_impl; [| exact HLs']. intros L [H _]. exact H. }
  split; [exact Hne |]. split.
  - intros L HL. rewrite List.Forall_forall in HLs'. exact (proj2 (HLs' L HL)).
  - rewrite (join_concat " " Ls' Hne), Hcat'. apply join_split_space.
Qed.

End FootnoteParagraph.

(** * Micronutrient rows *)

Lemma vm_keys_values_step (i : Inputs) (parity : nat) (l : list (nat * string))
    (ks : list (string * string)) (d : gmap (string * string) Q) :
  (forall k, In k ks <-> is_Some (d !! k)) ->
  forall k,
    In k (fold_left (vm_key_step parity) l ks)
    <-> is_Some (fold_left
                   (fun d (ivm : nat * string) =>
                      if (fst ivm mod 2 =? parity)%nat
                      then <[(snd ivm, vm_unit (snd ivm)) := in_vm i (snd ivm)]> d
                      else d) l d !! k).
Proof.
  revert ks d. induction l as [| [idx vm] l IH]; intros ks d Hinv k; [apply Hinv |].
  cbn [fold_left]. apply IH. clear k. intros k.
  unfold vm_key_step. cbn [fst snd].
  destruct (idx mod 2 =? parity)%nat; [| apply Hinv].
  cbv zeta. rewrite lookup_insert_is_Some.
  destruct (bool_decide_reflect ((vm, vm_unit vm) ∈ ks)) as [Hin | Hnin].
  - rewrite Hinv. apply list_elem_of_In in Hin. apply Hinv in Hin.
    split; [intros H; destruct (decide ((vm, vm_unit vm) = k)); auto |].
    intros [<- | [_ H]]; assumption.
  - rewrite in_app_iff, Hinv. cbn [In].
    split.
    + intros [H | [<- | []]]; [| left; reflexivity].
      destruct (decide ((vm, vm_unit vm) = k)); auto.
    + intros [<- | [_ H]]; auto.
Qed.

Lemma vm_keys_present (i : Inputs) (k : string * string) :
  In k (vm_keys i) <-> is_Some (fill_vm_values i 1 (fill_vm_values i 0 ∅) !! k).
Proof.
  unfold vm_keys, fill_vm_keys, fill_vm_values.
  apply vm_keys_values_step. clear k. intros k.
  apply vm_keys_values_step. clear k. intros k.
  rewrite lookup_empty. split; [intros [] | intros [x Hx]; discriminate].
Qed.

Lemma vm_dict_lookups (i : Inputs) :
  names (module_env i) !! "vm_values_rounded"
    = Some (VDict (fill_vm_values i 1 (fill_vm_values i 0 ∅))) /\
  names (module_env i) !! "vm_pp"
    = Some (VDict ((fun v100 => portion_from_per100 v100 (in_household_mass i))
                   <$> fill_vm_values i 1 (fill_vm_values i 0 ∅))).
Proof. cbn [names module_env]. split; lookup_name. Qed.

(** Reading the environment. *)
Lemma bindV_done {A B : Type} (m : V A) (k : A -> V B) (e : env) (a : A) :
  m e = Done a -> bindV m k e = k a e.
Proof. unfold bindV. intros ->. reflexivity. Qed.

Lemma bindV_failed {A B : Type} (m : V A) (k : A -> V B) (e : env) (err : error) :
  m e = Failed err -> bindV m k e = Failed err.
Proof. unfold bindV. intros ->. reflexivity. Qed.

Lemma lift_ok {A : Type} (m : M A) (e : env) (a : A) :
  m (names e) = Ok a -> lift m e = Done a.
Proof. unfold lift. intros ->. reflexivity. Qed.

Lemma lift_raise {A : Type} (m : M A) (e : env) (x : exn) :
  m (names e) = Raise x -> lift m e = Failed (Namespace x).
Proof. unfold lift. intros ->. reflexivity. Qed.

Lemma filter_all {A : Type} (f : A -> bool) (l : list A) :
  (forall a, In a l -> f a = true) -> List.filter f l = l.
Proof.
  induction l as [| a l IH]; intros H; [reflexivity |].
  simpl. rewrite (H a (or_introl eq_refl)), IH; [reflexivity |].
  intros b Hb. apply H. right. exact Hb.
Qed.

Lemma dict_keys_vm (i : Inputs) :
  dict_keys "vm_values_rounded" (module_env i) = Done (vm_keys i).
Proof.
  unfold dict_keys.
  rewrite (bindV_done _ _ _ _ (lift_ok _ _ _ (get_dict_ok _ _ _ (proj1 (vm_dict_lookups i))))).
  f_equal. cbn [key_order module_env str_in existsb String.eqb Ascii.eqb Bool.eqb orb].
  apply filter_all. intros k Hk. apply bool_decide_eq_true.
  apply vm_keys_present. exact Hk.
Qed.

Lemma dict_item_vm (i : Inputs) (k : string * string) :
  In k (vm_keys i) ->
  exists v100,
    dict_item "vm_values_rounded" k (module_env i) = Done v100 /\
    dict_item "vm_pp" k (module_env i)
      = Done (portion_from_per100 v100 (in_household_mass i)).
Proof.
  intros Hk. apply vm_keys_present in Hk as [v Hv]. exists v.
  unfold dict_item. split.
  - rewrite (bindV_done _ _ _ _
               (lift_ok _ _ _ (get_dict_ok _ _ _ (proj1 (vm_dict_lookups i))))).
    rewrite Hv. reflexivity.
  - rewrite (bindV_done _ _ _ _
               (lift_ok _ _ _ (get_dict_ok _ _ _ (proj2 (vm_dict_lookups i))))).
    rewrite lookup_fmap, Hv. reflexivity.
Qed.

Lemma micro_mandatory_keys_done (i : Inputs) (mandatory : list string)
    (ordered : list (string * string)) :
  micro_mandatory_keys mandatory ordered (module_env i)
  = Done (ordered ++ flat_map (fun m => List.filter (fun k => String.eqb (fst k) m)
                                                    (vm_keys i)) mandatory).
Proof.
  revert ordered. induction mandatory as [| m rest IH]; intros ordered.
  - simpl. rewrite app_nil_r. reflexivity.
  - cbn [micro_mandatory_keys]. rewrite (bindV_done _ _ _ _ (dict_keys_vm i)).
    rewrite IH. cbn [flat_map]. rewrite <- app_assoc. reflexivity.
Qed.

Lemma micro_rows_of_done (i : Inputs) (ordered : list (string * string))
    (rows : list Row) :
  (forall k, In k ordered -> In k (vm_keys i)) ->
  Forall (fun r => row_micro r = true /\ row_bold r = false /\ row_indent r = 0%Z) rows ->
  exists rows',
    micro_rows_of ordered rows (module_env i) = Done rows' /\
    map row_label rows' = map row_label rows ++ map fst ordered /\
    Forall (fun r => row_micro r = true /\ row_bold r = false /\ row_indent r = 0%Z) rows'.
Proof.
  revert rows. induction ordered as [| [name unit] rest IH]; intros rows Hin Hall.
  - exists rows. rewrite app_nil_r. auto.
  - cbn [micro_rows_of].
    destruct (dict_item_vm i (name, unit) (Hin _ (or_introl eq_refl)))
      as [v100 [H100 Hpp]].
    rewrite (bindV_done _ _ _ _ H100), (bindV_done _ _ _ _ Hpp).
    destruct (IH (rows ++ [{| row_label := name;
                              row_v100 := fmt_art9 (PyFloat v100) true +:+ " " +:+ unit;
                              row_vpp := fmt_art9 (PyFloat (portion_from_per100 v100
                                           (in_household_mass i))) true +:+ " " +:+ unit;
                              row_indent := 0; row_bold := false; row_micro := true |}]))
      as [rows' [Hrun [Hmap Hall']]].
    + intros k Hk. apply Hin. right. exact Hk.
    + apply Forall_app. split; [exact Hall |]. constructor; [| constructor]. auto.
    + exists rows'. split; [exact Hrun |]. split; [| exact Hall'].
      rewrite Hmap, map_app, <- app_assoc. reflexivity.
Qed.

(** [micro_rows] never fails on the module's dictionaries. *)
Lemma micro_rows_done (i : Inputs) :
  exists rows,
    micro_rows (module_env i) = Done rows /\
    map row_label rows =
      map fst (flat_map (fun m => List.filter (fun k => String.eqb (fst k) m) (vm_keys i))
                        micro_mandatory
               ++ List.filter (fun k => negb (str_in (fst k) micro_mandatory)) (vm_keys i)) /\
    Forall (fun r => row_micro r = true /\ row_bold r = false /\ row_indent r = 0%Z) rows.
Proof.
  unfold micro_rows. cbv zeta.
  rewrite (bindV_done _ _ _ _ (micro_mandatory_keys_done i micro_mandatory [])).
  rewrite (bindV_done _ _ _ _ (dict_keys_vm i)). cbn [app].
  apply (micro_rows_of_done i _ []); [| constructor].
  intros k Hk. apply in_app_or in Hk as [Hk | Hk].
  - apply in_flat_map in Hk as [m [_ Hk]]. apply filter_In in Hk as [Hk _]. exact Hk.
  - apply filter_In in Hk as [Hk _]. exact Hk.
Qed.

(** The order of the keys when no name is selected twice. *)
Lemma map_snd_enumerate (s : nat) (l : list string) :
  map snd (combine (seq s (length l)) l) = l.
Proof.
  revert s. induction l as [| a l IH]; intros s; [reflexivity |].
  simpl. rewrite IH. reflexivity.
Qed.

Lemma same_name_same_index (el : list (nat * string)) (a b : nat) (m : string) :
  NoDup (map snd el) -> In (a, m) el -> In (b, m) el -> a = b.
Proof.
  induction el as [| [c n] el IH]; intros Hnd Ha Hb; [destruct Ha |].
  cbn [map snd] in Hnd. apply NoDup_cons in Hnd as [Hn Hnd].
  assert (Hrest : forall x, In (x, m) el -> In m (map snd el)).
  { intros x Hx. apply in_map_iff. exists (x, m). auto. }
  destruct Ha as [Ha | Ha]; destruct Hb as [Hb | Hb].
  - congruence.
  - injection Ha as -> ->. exfalso. apply Hn. apply list_elem_of_In. eauto.
  - injection Hb as -> ->. exfalso. apply Hn. apply list_elem_of_In. eauto.
  - apply IH; assumption.
Qed.

Lemma fill_keys_fresh (parity : nat) (el : list (nat * string))
    (ks : list (string * string)) :
  NoDup (map snd el) ->
  (forall p, In p el -> (fst p mod 2 =? parity)%nat = true ->
             ~ In (snd p, vm_unit (snd p)) ks) ->
  fold_left (vm_key_step parity) el ks
  = ks ++ map (fun n => (n, vm_unit n))
              (map snd (List.filter (fun ivm : nat * string =>
                                       (fst ivm mod 2 =? parity)%nat) el)).
Proof.
  revert ks. induction el as [| [idx vm] el IH]; intros ks Hnd Hfresh.
  - simpl. rewrite app_nil_r. reflexivity.
  - cbn [map snd] in Hnd. apply NoDup_cons in Hnd as [Hvm Hnd].
    cbn [fold_left List.filter fst snd]. unfold vm_key_step at 2. cbn [fst snd].
    destruct (idx mod 2 =? parity)%nat eqn:Hpar.
    + cbv zeta.
      assert (Hnin : ~ In (vm, vm_unit vm) ks)
        by (apply (Hfresh (idx, vm)); [left; reflexivity | exact Hpar]).
      rewrite bool_decide_eq_false_2 by (rewrite list_elem_of_In; exact Hnin).
      rewrite IH; [cbn [map]; rewrite <- app_assoc; reflexivity | exact Hnd |].
      intros p Hp Hpp Hin. apply in_app_or in Hin as [Hin | [Hin | []]].
      * exact (Hfresh p (or_intror Hp) Hpp Hin).
      * injection Hin as Hin _. apply Hvm. apply list_elem_of_In.
        apply in_map_iff. exists p. split; [symmetry; exact Hin | exact Hp].
    + apply IH; [exact Hnd |].
      intros p Hp. apply Hfresh. right. exact Hp.
Qed.

Lemma vm_keys_order (i : Inputs) :
  NoDup (in_selected_vm i) ->
  vm_keys i = map (fun n => (n, vm_unit n))
                  (at_parity 0 (in_selected_vm i) ++ at_parity 1 (in_selected_vm i)).
Proof.
  intros Hnd. unfold vm_keys, fill_vm_keys, at_parity.
  set (el := combine (seq 0 (length (in_selected_vm i))) (in_selected_vm i)).
  assert (Hel : NoDup (map snd el)).
  { unfold el. rewrite map_snd_enumerate. exact Hnd. }
  rewrite (fill_keys_fresh 0 el []) by (auto; intros p _ _ []).
  cbn [app]. rewrite fill_keys_fresh; [rewrite map_app; reflexivity | exact Hel |].
  intros [b m] Hp Hodd Hin. cbn [fst snd] in *.
  apply in_map_iff in Hin as [n [Hn Hin]]. injection Hn as ->.
  apply in_map_iff in Hin as [[a m'] [Hm Hin]]. cbn [snd] in Hm. subst m'.
  apply filter_In in Hin as [Hin Heven]. cbn [fst] in Heven.
  assert (a = b) by (eapply same_name_same_index; eassumption). subst b.
  apply Nat.eqb_eq in Heven, Hodd. lia.
Qed.

Lemma str_in_iff (m : string) (l : list string) : str_in m l = true <-> In m l.
Proof.
  unfold str_in. rewrite existsb_exists. split.
  - intros [x [Hx He]]. apply String.eqb_eq in He. subst x. exact Hx.
  - intros H. exists m. split; [exact H | apply String.eqb_refl].
Qed.

Lemma at_parity_in (l : list string) (m : string) :
  In m (at_parity 0 l ++ at_parity 1 l) <-> In m l.
Proof.
  unfold at_parity. set (el := combine (seq 0 (length l)) l).
  assert (Hl : map snd el = l) by (unfold el; apply map_snd_enumerate).
  clearbody el. subst l. rewrite in_app_iff, !in_map_iff. split.
  - intros [[p [Hp Hin]] | [p [Hp Hin]]]; apply filter_In in Hin as [Hin _];
      exists p; auto.
  - intros [p [Hp Hin]].
    destruct (Nat.eq_dec (fst p mod 2) 0%nat) as [He | Hne].
    + left. exists p. split; [exact Hp |]. apply filter_In. split; [exact Hin |].
      apply Nat.eqb_eq. exact He.
    + right. exists p. split; [exact Hp |]. apply filter_In. split; [exact Hin |].
      apply Nat.eqb_eq. pose proof (Nat.mod_upper_bound (fst p) 2). lia.
Qed.

Lemma NoDup_map_snd_filter (f : nat * string -> bool) (el : list (nat * string)) :
  NoDup (map snd el) -> NoDup (map snd (List.filter f el)).
Proof.
  induction el as [| p el IH]; intros Hnd; [constructor |].
  cbn [map] in Hnd. apply NoDup_cons in Hnd as [Hp Hnd]. simpl.
  destruct (f p); [| apply IH; exact Hnd].
  cbn [map]. apply NoDup_cons. split; [| apply IH; exact Hnd].
  intros Hin. apply Hp. apply list_elem_of_In. apply list_elem_of_In in Hin.
  apply in_map_iff in Hin as [q [Hq Hin]]. apply filter_In in Hin as [Hin _].
  apply in_map_iff. exists q. auto.
Qed.

Lemma at_parity_nodup (l : list string) :
  NoDup l -> NoDup (at_parity 0 l ++ at_parity 1 l).
Proof.
  intros Hnd. unfold at_parity. set (el := combine (seq 0 (length l)) l).
  assert (Hel : NoDup (map snd el)).
  { unfold el. rewrite map_snd_enumerate. exact Hnd. }
  apply NoDup_app. split; [apply NoDup_map_snd_filter; exact Hel |].
  split; [| apply NoDup_map_snd_filter; exact Hel].
  intros m H0 H1. apply list_elem_of_In in H0, H1.
  apply in_map_iff in H0 as [[a m0] [Hm0 H0]]. apply in_map_iff in H1 as [[b m1] [Hm1 H1]].
  cbn [snd] in *. subst m0 m1.
  apply filter_In in H0 as [H0 He]. apply filter_In in H1 as [H1 Ho].
  cbn [fst] in *. assert (a = b) by (eapply same_name_same_index; eassumption).
  subst b. apply Nat.eqb_eq in He, Ho. lia.
Qed.

Lemma mandatory_key_of_name (names : list string) (m : string) :
  NoDup names ->
  map fst (List.filter (fun k : string * string => String.eqb (fst k) m)
                       (map (fun n => (n, vm_unit n)) names))
  = if str_in m names then [m] else [].
Proof.
  induction names as [| n names IH]; intros Hnd; [reflexivity |].
  apply NoDup_cons in Hnd as [Hn Hnd].
  cbn [map List.filter fst]. unfold str_in in *. cbn [existsb].
  rewrite (String.eqb_sym m n).
  destruct (String.eqb_spec n m) as [-> | Hne].
  - cbn [map fst orb]. rewrite IH by exact Hnd.
    destruct (existsb (String.eqb m) names) eqn:E; [| reflexivity].
    exfalso. apply Hn. apply list_elem_of_In. apply (str_in_iff m names). exact E.
  - cbn [orb]. apply IH. exact Hnd.
Qed.

Lemma voluntary_keys_of_names (f : string -> bool) (names : list string) :
  map fst (List.filter (fun k : string * string => f (fst k))
                       (map (fun n => (n, vm_unit n)) names))
  = List.filter f names.
Proof.
  induction names as [| n names IH]; [reflexivity |].
  cbn [map List.filter fst]. destruct (f n); cbn [map fst]; rewrite IH; reflexivity.
Qed.

Lemma filter_ext_in_bool {A : Type} (f g : A -> bool) (l : list A) :
  (forall a, f a = g a) -> List.filter f l = List.filter g l.
Proof.
  intros H. induction l as [| a l IH]; [reflexivity |].
  simpl. rewrite H, IH. reflexivity.
Qed.

Lemma micro_rows_ordered (i : Inputs) :
  NoDup (in_selected_vm i) ->
  exists rows,
    micro_rows (module_env i) = Done rows /\
    map row_label rows =
      List.filter (fun m => str_in m (in_selected_vm i)) micro_mandatory
      ++ List.filter (fun n => negb (str_in n micro_mandatory))
                     (at_parity 0 (in_selected_vm i) ++ at_parity 1 (in_selected_vm i)) /\
    Forall (fun r => row_micro r = true /\ row_bold r = false /\ row_indent r = 0%Z) rows.
Proof.
  intros Hnd. destruct (micro_rows_done i) as [rows [Hrun [Hmap Hall]]].
  exists rows. split; [exact Hrun |]. split; [| exact Hall].
  rewrite Hmap, (vm_keys_order i Hnd), map_app.
  set (nm := at_parity 0 (in_selected_vm i) ++ at_parity 1 (in_selected_vm i)).
  pose proof (at_parity_nodup _ Hnd) as Hnm. fold nm in Hnm.
  f_equal.
  - assert (Hsel : forall m, str_in m (in_selected_vm i) = str_in m nm).
    { intros m. apply eq_true_iff_eq. rewrite !str_in_iff. unfold nm.
      symmetry. apply at_parity_in. }
    rewrite (filter_ext_in_bool _ _ micro_mandatory Hsel).
    generalize micro_mandatory. intros M. induction M as [| m M IH]; [reflexivity |].
    cbn [flat_map List.filter]. rewrite map_app, IH, mandatory_key_of_name by exact Hnm.
    destruct (str_in m nm); reflexivity.
  - apply (voluntary_keys_of_names (fun n => negb (str_in n micro_mandatory))).
Qed.

(** X17: the order of the micronutrient rows.  When no micronutrient is
    selected twice, the rows [micro_rows] returns are the selected mandatory
    micronutrients in their fixed order, followed by the voluntary ones in
    the order in which the module filled the dictionary: those at the even
    positions of the selection first, then those at the odd positions.  All
    are plain rows at indent 0 marked as micronutrients. *)
Theorem micro_rows_order (i : Inputs) (rows : list Row) :
  NoDup (in_selected_vm i) ->
  micro_rows (module_env i) = Done rows ->
  map row_label rows =
    List.filter (fun m => str_in m (in_selected_vm i)) micro_mandatory
    ++ List.filter (fun n => negb (str_in n micro_mandatory))
                   (at_parity 0 (in_selected_vm i) ++ at_parity 1 (in_selected_vm i)) /\
  Forall (fun r => row_micro r = true /\ row_bold r = false /\ row_indent r = 0%Z) rows.
Proof.
  intros Hnd Hrun.
  destruct (micro_rows_ordered i Hnd) as (rows' & Hrun' & Hmap & Hall).
  rewrite Hrun in Hrun'. injection Hrun' as ->. split; assumption.
Qed.

Lemma micro_rows_order_witness :
  NoDup (in_selected_vm voluntary_inputs) /\
  exists rows,
    micro_rows (module_env voluntary_inputs) = Done rows /\
    map row_label rows =
      ["Vitamina A"; "Vitamina D"; "Hierro"; "Calcio"; "Zinc";
       "Vitamina B1"; "Vitamina C"; "Vitamina E"].
Proof.
  assert (Hnd : NoDup (in_selected_vm voluntary_inputs)).
  { apply (bool_decide_unpack _). vm_compute. exact I. }
  split; [exact Hnd |].
  destruct (micro_rows (module_env voluntary_inputs)) as [rows | err] eqn:E.
  - exists rows. split; [reflexivity |].
    destruct (micro_rows_order voluntary_inputs rows Hnd E) as [Hmap _].
    rewrite Hmap. reflexivity.
  - exfalso. vm_compute in E. discriminate E.
Defined.

(** * Drawing of the vertical formats *)

Section VerticalDrawing.

Variable textbbox : string -> font -> Z * Z * Z * Z.

Lemma compute_cols_shape (is_liquid : bool) (labels : list (string * Z))
    (v100 vpp : list string) (W : Z) :
  exists x1 x2 x3 W',
    compute_cols_vertical textbbox is_liquid labels v100 vpp W = ([28; x1; x2; x3], W')%Z /\
    (W <= W' /\ x3 <= W' /\ 28 + 53 <= x1 /\ x1 + 35 <= x2 /\ x2 + 19 <= x3)%Z /\
    (forall li, In li labels -> (28 + label_total_w textbbox li + 53 <= x1)%Z) /\
    (forall t, In t v100 -> (x1 + value_w textbbox t + 35 <= x2)%Z) /\
    (forall t, In t vpp -> (x2 + value_w textbbox t + 19 <= x3)%Z).
Proof.
  unfold compute_cols_vertical.
  destruct (column_labels is_liquid) as [col100_label colpp_label].
  rewrite fold_name_w.
  pose proof (fold_left_running_max (label_total_w textbbox) labels 0) as [Hn0 Hn].
  pose proof (fold_left_running_max (value_w textbbox) v100 0) as [Hv0 Hv].
  pose proof (fold_left_running_max (value_w textbbox) vpp 0) as [Hp0 Hp].
  change (fold_left (value_w_step textbbox)) with
    (fold_left (fun acc e => if (acc <? value_w textbbox e)%Z
                             then value_w textbbox e else acc)).
  set (name_w := fold_left _ labels 0%Z) in *.
  set (v100_w := fold_left _ v100 0%Z) in *.
  set (vpp_w := fold_left _ vpp 0%Z) in *.
  set (h100 := fst (measure_text textbbox col100_label FONT_SMALL_B)).
  set (hpp := fst (measure_text textbbox colpp_label FONT_SMALL_B)).
  do 4 eexists. split; [reflexivity |].
  unfold BORDER_W, CELL_PAD_X, GRID_W.
  split; [| split; [| split]].
  - destruct (Z.ltb_spec W (6 + 22 + (name_w + 15 + 3) + 35 + (Z.max v100_w h100 + 15) + 20
                             + (Z.max vpp_w hpp + 4) + 15)); lia.
  - intros li Hli. specialize (Hn li Hli). lia.
  - intros t Ht. specialize (Hv t Ht). lia.
  - intros t Ht. specialize (Hp t Ht). lia.
Qed.

Lemma draw_header_done (i : Inputs) (W H header_h : Z) :
  exists ops,
    draw_header textbbox W H header_h (module_env i) = Done (ops, (BORDER_W + header_h)%Z).
Proof.
  unfold draw_header. cbv zeta.
  destruct (measure_text textbbox "Información Nutricional" FONT_TITLE) as [tw th].
  erewrite bindV_done by (apply lift_ok, get_str_ok; cbn [names module_env]; lookup_name).
  erewrite bindV_done by (apply lift_ok, get_num_ok; cbn [names module_env]; lookup_name).
  erewrite bindV_done by (apply lift_ok, get_str_ok; cbn [names module_env]; lookup_name).
  erewrite bindV_done by (apply lift_ok, get_str_ok; cbn [names module_env]; lookup_name).
  eexists. reflexivity.
Qed.

Lemma draw_calories_done (i : Inputs) (W y x0 x1 x2 x3 : Z) (t100 tpp : string) :
  exists ops,
    draw_calories_combined_row textbbox W y [x0; x1; x2; x3] t100 tpp (module_env i)
    = Done (ops, (y + 128)%Z).
Proof.
  unfold draw_calories_combined_row. cbv zeta.
  erewrite bindV_done by (apply lift_ok, get_bool_ok; cbn [names module_env]; lookup_name).
  destruct (column_labels _) as [c100 cpp].
  eexists. reflexivity.
Qed.

Lemma draw_nutrient_rows_done (e : env) (fig3 : bool) (W y x0 x1 x2 x3 : Z)
    (rows : list Row) :
  exists ops,
    draw_nutrient_rows textbbox fig3 W [x0; x1; x2; x3] y rows e
    = Done (ops, (y + 65 * Z.of_nat (length rows))%Z) /\
    length ops = (4 * length rows)%nat.
Proof.
  revert y. induction rows as [| r rows IH]; intros y.
  - exists []. split; [| reflexivity].
    cbn [draw_nutrient_rows length Z.of_nat]. rewrite Z.mul_0_r, Z.add_0_r. reflexivity.
  - cbn [draw_nutrient_rows]. cbv zeta.
    rewrite (bindV_done (item [x0; x1; x2; x3] 1) _ e x1 eq_refl), (bindV_done (item [x0; x1; x2; x3] 2) _ e x2 eq_refl).
    destruct (IH (y + 1 + ROW_H)%Z) as [ops [Hrun Hlen]].
    destruct fig3.
    + rewrite (bindV_done (retV _) _ e _ eq_refl), (bindV_done _ _ e _ Hrun).
      eexists. split.
      * unfold retV. cbn [fst snd]. f_equal. f_equal. unfold ROW_H. cbn [length]. lia.
      * cbn [fst]. rewrite !length_app, Hlen. simpl. lia.
    + rewrite (bindV_done (bindV (item [x0; x1; x2; x3] 3) _) _ e ((x2 + x3) / 2)%Z eq_refl),
        (bindV_done _ _ e _ Hrun).
      eexists. split.
      * unfold retV. cbn [fst snd]. f_equal. f_equal. unfold ROW_H. cbn [length]. lia.
      * cbn [fst]. rewrite !length_app, Hlen. simpl. lia.
Qed.

Lemma draw_micro_rows_done (e : env) (W y x0 x1 x2 x3 : Z) (rows : list Row) :
  exists ops,
    draw_micro_rows textbbox W [x0; x1; x2; x3] y rows e
    = Done (ops, (y + 55 * Z.of_nat (length rows))%Z).
Proof.
  revert y. induction rows as [| r rows IH]; intros y.
  - exists []. cbn [draw_micro_rows length Z.of_nat].
    rewrite Z.mul_0_r, Z.add_0_r. reflexivity.
  - cbn [draw_micro_rows]. cbv zeta.
    rewrite (bindV_done (item [x0; x1; x2; x3] 1) _ e x1 eq_refl), (bindV_done (item [x0; x1; x2; x3] 2) _ e x2 eq_refl),
      (bindV_done (item [x0; x1; x2; x3] 3) _ e x3 eq_refl).
    destruct (IH (y + 1 + ROW_H_MICRO)%Z) as [ops Hrun].
    rewrite (bindV_done _ _ e _ Hrun).
    eexists. unfold retV. cbn [fst snd]. f_equal. f_equal.
    unfold ROW_H_MICRO. cbn [length]. lia.
Qed.

Lemma draw_footnote_done (i : Inputs) (W y : Z) :
  exists ops, draw_footnote textbbox W y (module_env i) = Done ops.
Proof.
  unfold draw_footnote.
  erewrite bindV_done
    by (apply lift_ok, get_str_ok; cbn [names module_env]; exact (proj2 (footnote_lookup i))).
  match goal with |- context [if ?c then _ else _] => destruct c end;
    eexists; reflexivity.
Qed.

Lemma draw_column_rules_done (e : env) (x0 x1 x2 x3 y_header_bottom y : Z) :
  draw_column_rules [x0; x1; x2; x3] y_header_bottom y e
  = Done [draw_vline (x1 + GRID_W / 2) y_header_bottom y GRID_W;
          draw_vline (x2 + GRID_W / 2) y_header_bottom y GRID_W].
Proof. reflexivity. Qed.

Lemma strip_keeps_head (c : ascii) (s : string) :
  is_space c = false -> strip (String c s) <> "".
Proof.
  intros Hc. unfold strip. cbn [lstrip_by]. rewrite Hc. cbn [rstrip_by].
  destruct (rstrip_by is_space s); [rewrite Hc |]; discriminate.
Qed.

Lemma footnote_blank (i : Inputs) :
  exists text,
    module_globals i !! "footnote_text" = Some (VStr text) /\
    (if negb (String.eqb (strip text) "") then 90 else 20)%Z
    = match undeclared (in_selected_macros i) (in_selected_vm i) with
      | [] => 20%Z
      | _ => 90%Z
      end.
Proof.
  eexists. split; [exact (proj2 (footnote_lookup i)) |].
  destruct (undeclared _ _) as [| it rest]; [reflexivity |].
  unfold footnote_prefix. rewrite append_cons.
  match goal with |- context [strip (String ?c ?s)] =>
    pose proof (strip_keeps_head c s eq_refl) as Hne;
    destruct (String.eqb_spec (strip (String c s)) "") as [E | _]; [contradiction | reflexivity]
  end.
Qed.

Lemma draw_fig3_runs (i : Inputs) :
  exists rows pic,
    common_rows (module_globals i) = Ok rows /\
    map row_label rows = List.filter (row_declared i) row_order /\
    draw_fig3 textbbox (module_env i) = Done pic /\
    (580 <= pic_width pic)%Z /\
    pic_height pic
    = (337 + 64 * Z.of_nat (length rows)
       + match undeclared (in_selected_macros i) (in_selected_vm i) with
         | [] => 20
         | _ => 90
         end)%Z /\
    In (draw_hline BORDER_W (pic_width pic - BORDER_W)
          (300 + 65 * Z.of_nat (length rows)) GRID_W_THICK) (pic_ops pic).
Proof.
  destruct (common_rows_spec i) as [rows [Hrows [Hmap _]]].
  destruct (footnote_blank i) as [text [Htext Hfoot]].
  exists rows. unfold draw_fig3. cbv zeta.
  rewrite (bindV_done (lift common_rows) _ (module_env i) rows
             (lift_ok common_rows (module_env i) rows Hrows)).
  rewrite (bindV_done (lift (get_str "footnote_text")) _ (module_env i) text
             (lift_ok (get_str "footnote_text") (module_env i) text
                (get_str_ok (module_globals i) "footnote_text" text Htext))).
  erewrite (bindV_done (lift (get_bool "is_liquid")))
    by (apply lift_ok, get_bool_ok; cbn [names module_env]; lookup_name).
  match goal with
  | |- context [compute_cols_vertical textbbox ?b ?l ?v ?p ?w] =>
      destruct (compute_cols_shape b l v p w)
        as (x1 & x2 & x3 & W & Hcols & (HW & _) & _); rewrite Hcols
  end.
  rewrite Hfoot.
  match goal with
  | |- context [draw_header textbbox W ?H ?hh] =>
      destruct (draw_header_done i W H hh) as [ops_h Hh];
      rewrite (bindV_done (draw_header textbbox W H hh) _ _ _ Hh)
  end.
  erewrite (bindV_done (lift (get_num "kcal_100")))
    by (apply lift_ok, get_num_ok; cbn [names module_env]; lookup_name).
  erewrite (bindV_done (lift (get_num "kcal_pp")))
    by (apply lift_ok, get_num_ok; cbn [names module_env]; lookup_name).
  match goal with
  | |- context [draw_calories_combined_row textbbox W ?y ?c ?a ?b] =>
      destruct (draw_calories_done i W y 28 x1 x2 x3 a b) as [ops_c Hc];
      rewrite (bindV_done (draw_calories_combined_row textbbox W y c a b) _ _ _ Hc)
  end.
  match goal with
  | |- context [draw_nutrient_rows textbbox true W ?c ?y rows] =>
      destruct (draw_nutrient_rows_done (module_env i) true W y 28 x1 x2 x3 rows)
        as [ops_r [Hr _]];
      rewrite (bindV_done (draw_nutrient_rows textbbox true W c y rows) _ _ _ Hr)
  end.
  rewrite (bindV_done (draw_column_rules _ _ _) _ _ _
             (draw_column_rules_done (module_env i) 28 x1 x2 x3 _ _)).
  match goal with
  | |- context [draw_footnote textbbox W ?y] =>
      destruct (draw_footnote_done i W y) as [ops_f Hf];
      rewrite (bindV_done (draw_footnote textbbox W y) _ _ _ Hf)
  end.
  eexists. split; [exact Hrows |]. split; [exact Hmap |]. split; [reflexivity |].
  cbn [pic_width pic_height pic_ops]. split; [exact HW |]. split.
  - unfold BORDER_W, GRID_W_THICK, ROW_H. lia.
  - rewrite !in_app_iff. left. left. right. right. left.
    unfold BORDER_W, GRID_W_THICK, ROW_H. f_equal; lia.
Qed.

Lemma draw_fig1_runs (i : Inputs) :
  exists rows micro pic,
    common_rows (module_globals i) = Ok rows /\
    micro_rows (module_env i) = Done micro /\
    draw_fig1 textbbox (module_env i) = Done pic /\
    (580 <= pic_width pic)%Z /\
    pic_height pic
    = (337 + 64 * Z.of_nat (length rows) + 54 * Z.of_nat (length micro)
       + match undeclared (in_selected_macros i) (in_selected_vm i) with
         | [] => 20
         | _ => 90
         end)%Z /\
    In (draw_hline BORDER_W (pic_width pic - BORDER_W)
          (300 + 65 * Z.of_nat (length rows) + 55 * Z.of_nat (length micro)) GRID_W_THICK)
       (pic_ops pic).
Proof.
  destruct (common_rows_spec i) as [rows [Hrows _]].
  destruct (micro_rows_done i) as [micro [Hmicro _]].
  destruct (footnote_blank i) as [text [Htext Hfoot]].
  exists rows, micro. unfold draw_fig1. cbv zeta.
  rewrite (bindV_done (lift common_rows) _ (module_env i) rows
             (lift_ok common_rows (module_env i) rows Hrows)).
  rewrite (bindV_done micro_rows _ _ micro Hmicro).
  rewrite (bindV_done (lift (get_str "footnote_text")) _ (module_env i) text
             (lift_ok (get_str "footnote_text") (module_env i) text
                (get_str_ok (module_globals i) "footnote_text" text Htext))).
  erewrite (bindV_done (lift (get_bool "is_liquid")))
    by (apply lift_ok, get_bool_ok; cbn [names module_env]; lookup_name).
  match goal with
  | |- context [compute_cols_vertical textbbox ?b ?l ?v ?p ?w] =>
      destruct (compute_cols_shape b l v p w)
        as (x1 & x2 & x3 & W & Hcols & (HW & _) & _); rewrite Hcols
  end.
  rewrite Hfoot.
  match goal with
  | |- context [draw_header textbbox W ?H ?hh] =>
      destruct (draw_header_done i W H hh) as [ops_h Hh];
      rewrite (bindV_done (draw_header textbbox W H hh) _ _ _ Hh)
  end.
  erewrite (bindV_done (lift (get_num "kcal_100")))
    by (apply lift_ok, get_num_ok; cbn [names module_env]; lookup_name).
  erewrite (bindV_done (lift (get_num "kcal_pp")))
    by (apply lift_ok, get_num_ok; cbn [names module_env]; lookup_name).
  match goal with
  | |- context [draw_calories_combined_row textbbox W ?y ?c ?a ?b] =>
      destruct (draw_calories_done i W y 28 x1 x2 x3 a b) as [ops_c Hc];
      rewrite (bindV_done (draw_calories_combined_row textbbox W y c a b) _ _ _ Hc)
  end.
  match goal with
  | |- context [draw_nutrient_rows textbbox false W ?c ?y rows] =>
      destruct (draw_nutrient_rows_done (module_env i) false W y 28 x1 x2 x3 rows)
        as [ops_r [Hr _]];
      rewrite (bindV_done (draw_nutrient_rows textbbox false W c y rows) _ _ _ Hr)
  end.
  destruct (Nat.ltb_spec 0 (length micro)) as [Hpos | Hzero].
  - match goal with
    | |- context [draw_micro_rows textbbox W ?c ?y micro] =>
        destruct (draw_micro_rows_done (module_env i) W y 28 x1 x2 x3 micro) as [ops_m Hm];
        rewrite (bindV_done (draw_micro_rows textbbox W c y micro) _ _ _ Hm)
    end.
    rewrite (bindV_done (draw_column_rules _ _ _) _ _ _
               (draw_column_rules_done (module_env i) 28 x1 x2 x3 _ _)).
    match goal with
    | |- context [draw_footnote textbbox W ?y] =>
        destruct (draw_footnote_done i W y) as [ops_f Hf];
        rewrite (bindV_done (draw_footnote textbbox W y) _ _ _ Hf)
    end.
    eexists. split; [exact Hrows |]. split; [exact Hmicro |]. split; [reflexivity |].
    cbn [pic_width pic_height pic_ops]. split; [exact HW |]. split.
    + unfold BORDER_W, GRID_W_THICK, ROW_H, ROW_H_MICRO. lia.
    + rewrite !in_app_iff. left. left. right. right. left.
      unfold BORDER_W, GRID_W_THICK, ROW_H, ROW_H_MICRO. f_equal; lia.
  - assert (Hlen : length micro = 0%nat) by lia.
    match goal with
    | |- context [bindV (retV (@nil canvas_op, ?y)) ?k] =>
        rewrite (bindV_done (retV (@nil canvas_op, y)) k _ _ eq_refl)
    end.
    rewrite (bindV_done (draw_column_rules _ _ _) _ _ _
               (draw_column_rules_done (module_env i) 28 x1 x2 x3 _ _)).
    match goal with
    | |- context [draw_footnote textbbox W ?y] =>
        destruct (draw_footnote_done i W y) as [ops_f Hf];
        rewrite (bindV_done (draw_footnote textbbox W y) _ _ _ Hf)
    end.
    eexists. split; [exact Hrows |]. split; [exact Hmicro |]. split; [reflexivity |].
    cbn [pic_width pic_height pic_ops]. split; [exact HW |]. split.
    + rewrite Hlen. unfold BORDER_W, GRID_W_THICK, ROW_H, ROW_H_MICRO. lia.
    + rewrite !in_app_iff. left. left. right. right. left.
      rewrite Hlen. unfold BORDER_W, GRID_W_THICK, ROW_H, ROW_H_MICRO. f_equal; lia.
Qed.

Lemma draw_fig5_runs (i : Inputs) :
  (in_include_poly i = true ->
   draw_fig5 textbbox (module_globals i) = Raise (NameError "poly_100_r")) /\
  (in_include_poly i = false ->
   exists img, draw_fig5 textbbox (module_globals i) = Ok img).
Proof.
  split; intros Hp; unfold draw_fig5; cbv zeta;
    erewrite bind_ok by (apply get_bool_ok; lookup_name); cbv beta.
  - apply bind_raise. apply fig5_tokens_100_raises. exact Hp.
  - destruct (fig5_tokens_100_ok i Hp) as [t100 H100].
    rewrite (bind_ok _ _ _ _ H100). cbv beta.
    destruct (draw_rich_wrapped_text _ _ _ _ _ t100 _ _ _) as [ops_100 y1].
    destruct (fig5_tokens_pp_ok i Hp) as [tpp Hpp].
    rewrite (bind_ok _ _ _ _ Hpp). cbv beta.
    destruct (draw_rich_wrapped_text _ _ _ _ _ tpp _ _ _) as [ops_pp y2].
    eexists. reflexivity.
Qed.

(** X18: the picture of the simplified format.  Whenever [draw_fig3]
    returns one, the picture is at least 580 pixels wide and 337 + 64 n + f
    pixels high, where n is the number of declared nutrient rows and f is 20
    when the footnote is empty and 90 otherwise; the rule that closes the
    table is drawn at y = 300 + 65 n, because every row advances by one
    pixel more than the height reserves. *)
Theorem draw_fig3_picture (i : Inputs) (pic : Picture) :
  draw_fig3 textbbox (module_env i) = Done pic ->
  exists rows,
    common_rows (module_globals i) = Ok rows /\
    map row_label rows = List.filter (row_declared i) row_order /\
    (580 <= pic_width pic)%Z /\
    pic_height pic
    = (337 + 64 * Z.of_nat (length rows)
       + match undeclared (in_selected_macros i) (in_selected_vm i) with
         | [] => 20
         | _ => 90
         end)%Z /\
    In (draw_hline BORDER_W (pic_width pic - BORDER_W)
          (300 + 65 * Z.of_nat (length rows)) GRID_W_THICK) (pic_ops pic).
Proof.
  intros Hrun.
  destruct (draw_fig3_runs i) as (rows & pic' & Hrows & Hmap & Hrun' & Hrest).
  rewrite Hrun in Hrun'. injection Hrun' as ->.
  exists rows. split; [exact Hrows |]. split; [exact Hmap | exact Hrest].
Qed.

(** X19: the picture of the standard vertical format.  Whenever [draw_fig1]
    returns one, the picture is at least 580 pixels wide and
    337 + 64 n + 54 m + f pixels high, where n is the number of nutrient
    rows, m the number of micronutrient rows and f is 20 when the footnote
    is empty and 90 otherwise; the rule that closes the table is drawn at
    y = 300 + 65 n + 55 m. *)
Theorem draw_fig1_picture (i : Inputs) (pic : Picture) :
  draw_fig1 textbbox (module_env i) = Done pic ->
  exists rows micro,
    common_rows (module_globals i) = Ok rows /\
    micro_rows (module_env i) = Done micro /\
    (580 <= pic_width pic)%Z /\
    pic_height pic
    = (337 + 64 * Z.of_nat (length rows) + 54 * Z.of_nat (length micro)
       + match undeclared (in_selected_macros i) (in_selected_vm i) with
         | [] => 20
         | _ => 90
         end)%Z /\
    In (draw_hline BORDER_W (pic_width pic - BORDER_W)
          (300 + 65 * Z.of_nat (length rows) + 55 * Z.of_nat (length micro)) GRID_W_THICK)
       (pic_ops pic).
Proof.
  intros Hrun.
  destruct (draw_fig1_runs i) as (rows & micro & pic' & Hrows & Hmicro & Hrun' & Hrest).
  rewrite Hrun in Hrun'. injection Hrun' as ->.
  exists rows, micro. split; [exact Hrows |]. split; [exact Hmicro | exact Hrest].
Qed.

Lemma render_cases (i : Inputs) :
  if String.prefix "Fig. 1" (in_format_choice i)
     || String.prefix "Fig. 3" (in_format_choice i)
  then exists pic, render textbbox (module_env i) = Done (inl pic)
  else if in_include_poly i
       then render textbbox (module_env i) = Failed (Namespace (NameError "poly_100_r"))
       else exists img, render textbbox (module_env i) = Done (inr img).
Proof.
  unfold render.
  erewrite (bindV_done (lift (get_str "format_choice")) _ _ (in_format_choice i))
    by (apply lift_ok, get_str_ok; cbn [names module_env]; lookup_name).
  destruct (String.prefix "Fig. 1" (in_format_choice i)).
  - destruct (draw_fig1_runs i) as (rows & micro & pic & _ & _ & Hpic & _).
    exists pic. rewrite (bindV_done _ _ _ _ Hpic). reflexivity.
  - destruct (String.prefix "Fig. 3" (in_format_choice i)); cbn [orb].
    + destruct (draw_fig3_runs i) as (rows & pic & _ & _ & Hpic & _).
      exists pic. rewrite (bindV_done _ _ _ _ Hpic). reflexivity.
    + destruct (in_include_poly i) eqn:Hp.
      * apply bindV_failed, lift_raise. apply (proj1 (draw_fig5_runs i) Hp).
      * destruct (proj2 (draw_fig5_runs i) Hp) as [img Himg].
        exists img.
        rewrite (bindV_done (lift (draw_fig5 textbbox)) _ (module_env i) img
                   (lift_ok (draw_fig5 textbbox) (module_env i) img Himg)).
        reflexivity.
Qed.

(** X20: the unbound name of the preview.  The preview fails with
    [NameError] exactly when the format is neither "Fig. 1" nor "Fig. 3" and
    polyalcohols are included, and the name is then [poly_100_r]: the
    vertical formats read only names that the module binds. *)
Theorem render_name_error (i : Inputs) (name : string) :
  render textbbox (module_env i) = Failed (Namespace (NameError name)) <->
  String.prefix "Fig. 1" (in_format_choice i) = false /\
  String.prefix "Fig. 3" (in_format_choice i) = false /\
  in_include_poly i = true /\
  name = "poly_100_r".
Proof.
  pose proof (render_cases i) as H.
  destruct (String.prefix "Fig. 1" (in_format_choice i)); cbn [orb] in H.
  - destruct H as [pic ->]. split; [discriminate | intros [E _]; discriminate E].
  - destruct (String.prefix "Fig. 3" (in_format_choice i)).
    + destruct H as [pic ->].
      split; [discriminate | intros (_ & E & _); discriminate E].
    + destruct (in_include_poly i).
      * rewrite H. split.
        -- intros E. injection E as <-. repeat split.
        -- intros (_ & _ & _ & ->). reflexivity.
      * destruct H as [img ->].
        split; [discriminate | intros (_ & _ & E & _); discriminate E].
Qed.

(** ** Where the rows are drawn *)

Lemma lookup_skip4 {A : Type} (a b c d : A) (l : list A) (n : nat) :
  (a :: b :: c :: d :: l) !! (4 + n)%nat = l !! n.
Proof. reflexivity. Qed.

Lemma draw_nutrient_rows_at (e : env) (fig3 : bool) (W x0 x1 x2 x3 : Z) (rows : list Row) :
  forall (y : Z) (k : nat) (r : Row),
    rows !! k = Some r ->
    exists ops y',
      draw_nutrient_rows textbbox fig3 W [x0; x1; x2; x3] y rows e = Done (ops, y') /\
      let yk := (y + 65 * Z.of_nat k + 1)%Z in
      let f := if row_bold r then FONT_LABEL_EMPH_B else FONT_LABEL in
      ops !! (4 * k)%nat = Some (draw_hline BORDER_W (W - BORDER_W) yk GRID_W) /\
      ops !! (4 * k + 1)%nat
      = Some (text_op (BORDER_W + CELL_PAD_X + row_indent r * 28) (yk + 18) (row_label r) f) /\
      ops !! (4 * k + 2)%nat
      = Some (text_op ((x1 + x2) / 2 - fst (measure_text textbbox (row_v100 r) f) / 2)
                (yk + 18) (row_v100 r) f) /\
      ops !! (4 * k + 3)%nat
      = Some (text_op ((if fig3 then (x2 + (W - BORDER_W)) / 2 else (x2 + x3) / 2)
                       - fst (measure_text textbbox (row_vpp r) f) / 2)
                (yk + 18) (row_vpp r) f).
Proof.
  induction rows as [| r0 rows IH]; intros y k r Hk; [discriminate |].
  cbn [draw_nutrient_rows]. cbv zeta.
  rewrite (bindV_done (item [x0; x1; x2; x3] 1) _ e x1 eq_refl),
    (bindV_done (item [x0; x1; x2; x3] 2) _ e x2 eq_refl).
  assert (Hpp : exists c,
             (if fig3 then retV ((x2 + (W - BORDER_W)) / 2)%Z
              else c3 <~~ item [x0; x1; x2; x3] 3 ;; retV ((x2 + c3) / 2)%Z) e = Done c /\
             c = (if fig3 then (x2 + (W - BORDER_W)) / 2 else (x2 + x3) / 2)%Z).
  { destruct fig3; eexists; split; reflexivity. }
  destruct Hpp as [c [Hc Ec]].
  rewrite (bindV_done _ _ e c Hc). subst c.
  change (ROW_H / 2)%Z with 32%Z.
  destruct k as [| k].
  - injection Hk as ->.
    destruct (draw_nutrient_rows_done e fig3 W (y + 1 + ROW_H) x0 x1 x2 x3 rows)
      as [ops [Hrun _]].
    rewrite (bindV_done _ _ e _ Hrun). unfold retV. cbn [fst snd app].
    do 2 eexists. split; [reflexivity |]. cbv zeta.
    change (4 * 0)%nat with 0%nat. cbn [Nat.add].
    change (Z.of_nat 0) with 0%Z.
    replace (y + 65 * 0 + 1)%Z with (y + 1)%Z by lia.
    replace (y + 1 + 32 - 14)%Z with (y + 1 + 18)%Z by lia.
    repeat split; reflexivity.
  - change ((r0 :: rows) !! S k) with (rows !! k) in Hk.
    destruct (IH (y + 1 + ROW_H)%Z k r Hk) as (ops & y' & Hrun & H0 & H1 & H2 & H3).
    rewrite (bindV_done _ _ e _ Hrun). unfold retV. cbn [fst snd app].
    do 2 eexists. split; [reflexivity |]. cbv zeta.
    replace (y + 65 * Z.of_nat (S k) + 1)%Z with (y + 1 + ROW_H + 65 * Z.of_nat k + 1)%Z
      by (unfold ROW_H; lia).
    replace (4 * S k)%nat with (4 + 4 * k)%nat by lia.
    rewrite <- !Nat.add_assoc, !lookup_skip4.
    repeat split; assumption.
Qed.

(** X21: the rows of the vertical formats against the column solver.  When
    the columns come from [compute_cols_vertical] run on a list of rows, the
    k-th nutrient row is drawn 65 k pixels below the first one as a rule, its
    label and its two values; if the row is not bold, its per-100 value lies
    between the second and the third column offset, and its per-portion
    value between the third offset and the fourth (the right border in the
    simplified format), whatever the text metric. *)
Theorem nutrient_values_inside_columns (e : env) (fig3 is_liquid : bool)
    (rows extra : list Row) (W0 y : Z) (k : nat) (r : Row) :
  rows !! k = Some r ->
  row_bold r = false ->
  exists x1 x2 x3 W ops y' xa xb,
    compute_cols_vertical textbbox is_liquid
      (map (fun r => (row_label r, row_indent r)) (rows ++ extra))
      (map row_v100 (rows ++ extra)) (map row_vpp (rows ++ extra)) W0
    = ([28; x1; x2; x3], W)%Z /\
    draw_nutrient_rows textbbox fig3 W [28; x1; x2; x3]%Z y rows e = Done (ops, y') /\
    ops !! (4 * k)%nat
    = Some (draw_hline BORDER_W (W - BORDER_W) (y + 65 * Z.of_nat k + 1) GRID_W) /\
    ops !! (4 * k + 1)%nat
    = Some (text_op (28 + row_indent r * 28) (y + 65 * Z.of_nat k + 19)
              (row_label r) FONT_LABEL) /\
    ops !! (4 * k + 2)%nat
    = Some (text_op xa (y + 65 * Z.of_nat k + 19) (row_v100 r) FONT_LABEL) /\
    ops !! (4 * k + 3)%nat
    = Some (text_op xb (y + 65 * Z.of_nat k + 19) (row_vpp r) FONT_LABEL) /\
    (x1 <= xa /\ xa + fst (measure_text textbbox (row_v100 r) FONT_LABEL) <= x2)%Z /\
    (x2 <= xb /\
     xb + fst (measure_text textbbox (row_vpp r) FONT_LABEL)
     <= (if fig3 then W - BORDER_W else x3))%Z.
Proof.
  intros Hk Hb.
  destruct (compute_cols_shape is_liquid
              (map (fun r => (row_label r, row_indent r)) (rows ++ extra))
              (map row_v100 (rows ++ extra)) (map row_vpp (rows ++ extra)) W0)
    as (x1 & x2 & x3 & W & Hcols & (HW0 & HW & _) & _ & Hv & Hp).
  destruct (draw_nutrient_rows_at e fig3 W 28 x1 x2 x3 rows y k r Hk)
    as (ops & y' & Hrun & H0 & H1 & H2 & H3).
  cbv zeta in H0, H1, H2, H3. rewrite Hb in H1, H2, H3.
  assert (Hin : In r (rows ++ extra)).
  { apply in_or_app. left. apply list_elem_of_In. eapply list_elem_of_lookup_2. exact Hk. }
  specialize (Hv (row_v100 r) (in_map row_v100 _ _ Hin)).
  specialize (Hp (row_vpp r) (in_map row_vpp _ _ Hin)).
  unfold value_w in Hv, Hp.
  replace (y + 65 * Z.of_nat k + 1 + 18)%Z with (y + 65 * Z.of_nat k + 19)%Z
    in H1, H2, H3 by lia.
  change (BORDER_W + CELL_PAD_X)%Z with 28%Z in H1.
  exists x1, x2, x3, W, ops, y'. do 2 eexists.
  split; [exact Hcols |]. split; [exact Hrun |].
  split; [exact H0 |]. split; [exact H1 |]. split; [exact H2 |]. split; [exact H3 |].
  set (w100 := fst (measure_text textbbox (row_v100 r) FONT_LABEL)) in *.
  set (wpp := fst (measure_text textbbox (row_vpp r) FONT_LABEL)) in *.
  unfold BORDER_W in *.
  split.
  - Z.div_mod_to_equations. lia.
  - destruct fig3; Z.div_mod_to_equations; lia.
Qed.

End VerticalDrawing.

Lemma draw_fig3_picture_witness :
  exists pic,
    draw_fig3 fixed_pitch_bbox (module_env zero_portion_inputs) = Done pic /\
    (580 <= pic_width pic)%Z.
Proof.
  destruct (draw_fig3 fixed_pitch_bbox (module_env zero_portion_inputs))
    as [pic | err] eqn:E.
  - exists pic. split; [reflexivity |].
    destruct (draw_fig3_picture fixed_pitch_bbox zero_portion_inputs pic E)
      as (rows & _ & _ & Hw & _).
    exact Hw.
  - exfalso. vm_compute in E. discriminate E.
Defined.

Lemma draw_fig1_picture_witness :
  exists pic,
    draw_fig1 fixed_pitch_bbox (module_env voluntary_inputs) = Done pic /\
    (580 <= pic_width pic)%Z.
Proof.
  destruct (draw_fig1 fixed_pitch_bbox (module_env voluntary_inputs))
    as [pic | err] eqn:E.
  - exists pic. split; [reflexivity |].
    destruct (draw_fig1_picture fixed_pitch_bbox voluntary_inputs pic E)
      as (rows & micro & _ & _ & Hw & _).
    exact Hw.
  - exfalso. vm_compute in E. discriminate E.
Defined.

Lemma nutrient_values_inside_columns_witness :
  [protein_row] !! 0%nat = Some protein_row /\
  row_bold protein_row = false /\
  exists x1 x2 ops y' xa,
    draw_nutrient_rows fixed_pitch_bbox false 580 [28; x1; x2; 435]%Z 300 [protein_row]
      (module_env (default_inputs false)) = Done (ops, y') /\
    ops !! 2%nat = Some (text_op xa 319 "5 g" FONT_LABEL) /\
    (x1 <= xa /\ xa + 30 <= x2)%Z.
Proof.
  split; [reflexivity |]. split; [reflexivity |].
  destruct (nutrient_values_inside_columns fixed_pitch_bbox (module_env (default_inputs false))
              false false [protein_row] [] 580 300 0 protein_row eq_refl eq_refl)
    as (x1 & x2 & x3 & W & ops & y' & xa & xb & Hcols & Hrun & _ & _ & H2 & _ & Ha & _).
  vm_compute in Hcols. injection Hcols as <- <- <- <-.
  exists 171%Z, 296%Z, ops, y', xa.
  split; [exact Hrun |]. split; [exact H2 |]. exact Ha.
Defined.


(** * Every Python number *)

Lemma Qle_bool_comp (a b c d : Q) : a == b -> c == d -> Qle_bool a c = Qle_bool b d.
Proof.
  intros Hab Hcd.
  destruct (Qle_bool a c) eqn:E1, (Qle_bool b d) eqn:E2; try reflexivity.
  - apply Qle_bool_iff in E1. rewrite Hab, Hcd in E1. apply Qle_bool_iff in E1. congruence.
  - apply Qle_bool_iff in E2. rewrite <- Hab, <- Hcd in E2. apply Qle_bool_iff in E2. congruence.
Qed.

Lemma round_g_comp (a b : Q) : a == b -> round_g a == round_g b.
Proof.
  intros Hab. unfold round_g, py_round1.
  rewrite (Qle_bool_comp 100 100 (Qabs a) (Qabs b)) by (rewrite ?Hab; reflexivity).
  assert (H1 : py_round a = py_round b) by (apply py_round_comp; exact Hab).
  assert (H2 : py_round (a * 10) = py_round (b * 10))
    by (apply py_round_comp; rewrite Hab; reflexivity).
  rewrite H1, H2. reflexivity.
Qed.

Lemma Qtrunc_inject_Z (q : Q) (n : Z) : q == inject_Z n -> Qtrunc q = n.
Proof.
  intros H. unfold Qtrunc.
  destruct (Qlt_bool q 0).
  - rewrite (Qceiling_comp _ _ H). apply Qceiling_Z.
  - rewrite (Qfloor_comp _ _ H). apply Qfloor_Z.
Qed.

(** What [round_g] returns on a finite float is the value of the finite
    model, as a float. *)
Lemma round_g_py_value (q : Q) :
  exists r v,
    round_g_py (Finite q) = Returns r /\
    float_value r = Some v /\ v == round_g q /\
    (r = Finite v \/ r = NegZero).
Proof.
  unfold round_g_py, round_g, py_round1. cbn [float_abs float_ge].
  destruct (Qle_bool 100 (Qabs q)).
  - cbn [round_digits]. change (inject_Z (10 ^ Z.of_nat 0)) with 1.
    assert (Hr : py_round (q * 1) = py_round q) by (apply py_round_comp; ring).
    rewrite Hr.
    destruct (Qeq_bool (inject_Z (py_round q) / 1) 0 && Qlt_bool q 0) eqn:Hz.
    + apply andb_true_iff in Hz as [Hz _]. apply Qeq_bool_iff in Hz.
      cbn [int_of_float eval_bind].
      exists (Finite (inject_Z 0)), (inject_Z 0).
      split; [reflexivity |]. split; [reflexivity |]. split; [| left; reflexivity].
      rewrite <- Hz. field.
    + cbn [int_of_float eval_bind].
      rewrite (Qtrunc_inject_Z _ (py_round q)) by field.
      exists (Finite (inject_Z (py_round q))), (inject_Z (py_round q)).
      split; [reflexivity |]. split; [reflexivity |]. split; [reflexivity | left; reflexivity].
  - cbn [round_digits]. change (inject_Z (10 ^ Z.of_nat 1)) with 10.
    destruct (Qeq_bool (inject_Z (py_round (q * 10)) / 10) 0 && Qlt_bool q 0) eqn:Hz.
    + apply andb_true_iff in Hz as [Hz _]. apply Qeq_bool_iff in Hz.
      exists NegZero, 0.
      split; [reflexivity |]. split; [reflexivity |]. split; [| right; reflexivity].
      symmetry. exact Hz.
    + eexists. eexists.
      split; [reflexivity |]. split; [reflexivity |]. split; [reflexivity | left; reflexivity].
Qed.

Lemma float_eq_values (r' r : pyfloat) (v' v : Q) :
  float_value r' = Some v' -> float_value r = Some v -> v' == v ->
  float_eq r' r = true.
Proof.
  intros H' H E.
  destruct r' as [p | | |]; destruct r as [p0 | | |]; try discriminate;
    cbn in H', H; injection H' as <-; try injection H as <-;
    cbn [float_eq]; try reflexivity; apply Qeq_bool_iff; assumption.
Qed.

(** C9 (amended): on every finite float [round_g] returns a float that is a whole
    number within one half of the argument when the magnitude is 100 or
    more, and a multiple of one tenth within one twentieth of it otherwise;
    and rounding that result again gives a float equal to it.  The negative
    zero is rounded to itself. *)
Theorem round_g_py_rounds_and_idempotent (q : Q) :
  (exists r v,
     round_g_py (Finite q) = Returns r /\ float_value r = Some v /\
     (100 <= Qabs q ->
        exists n : Z, v == inject_Z n /\ Qabs (q - inject_Z n) <= 1 # 2) /\
     (Qabs q < 100 ->
        exists m : Z, v == inject_Z m / 10 /\ Qabs (q - inject_Z m / 10) <= 1 # 20) /\
     exists r', round_g_py r = Returns r' /\ float_eq r' r = true) /\
  round_g_py NegZero = Returns NegZero /\ float_eq NegZero NegZero = true.
Proof.
  split; [| split; reflexivity].
  destruct (round_g_py_value q) as (r & v & Hrun & Hval & Hv & Hshape).
  destruct (round_g_finite q) as (Hwhole & Htenth & Hidem).
  exists r, v. split; [exact Hrun |]. split; [exact Hval |]. split; [| split].
  - intros H. destruct (Hwhole H) as [n [Hn Hnear]].
    exists n. split; [rewrite Hv, Hn; reflexivity | exact Hnear].
  - intros H. destruct (Htenth H) as [m [Hm Hnear]].
    exists m. split; [rewrite Hv, Hm; reflexivity | exact Hnear].
  - destruct Hshape as [-> | ->].
    + destruct (round_g_py_value v) as (r' & v' & Hrun' & Hval' & Hv' & _).
      exists r'. split; [exact Hrun' |].
      apply (float_eq_values r' (Finite v) v' v Hval' eq_refl).
      rewrite Hv', (round_g_comp v (round_g q) Hv), Hidem. symmetry. exact Hv.
    + exists NegZero. split; reflexivity.
Qed.

(** Not on every float: [round_g] of NaN is NaN, which is not equal to
    itself, and [round_g] of an infinity raises [OverflowError]. *)
Theorem round_g_py_not_idempotent_on_nan :
  ~ (forall x : pyfloat,
       exists r r', round_g_py x = Returns r /\ round_g_py r = Returns r' /\
                    float_eq r' r = true).
Proof.
  intros H. destruct (H NaN) as (r & r' & Hr & Hr' & Heq).
  cbn in Hr. injection Hr as <-. cbn in Hr'. injection Hr' as <-.
  discriminate Heq.
Qed.

Lemma round_g_py_special :
  round_g_py NaN = Returns NaN /\ float_eq NaN NaN = false /\
  round_g_py (Infinite false) = Raises OverflowError /\
  round_g_py (Infinite true) = Raises OverflowError.
Proof. repeat split. Qed.

(** ** Energy *)

Lemma nearest_binary64_small (z : Z) :
  (Z.abs z < 2 ^ 53)%Z -> nearest_binary64 z = z.
Proof.
  intros Hz. unfold nearest_binary64.
  assert (Hlog : (Z.log2 (Z.abs z) - 52 <= 0)%Z).
  { destruct (Z.eq_dec (Z.abs z) 0%Z) as [E | Hne].
    - rewrite E. cbn. lia.
    - assert (Hpos : (0 < Z.abs z)%Z) by lia.
      pose proof (proj1 (Z.log2_lt_pow2 (Z.abs z) 53 Hpos) Hz). lia. }
  rewrite Z.max_l by exact Hlog.
  change (2 ^ 0)%Z with 1%Z.
  rewrite (py_round_comp _ (inject_Z (Z.abs z))) by (change (inject_Z 1) with 1; field).
  rewrite py_round_inject_Z. destruct z; cbn; lia.
Qed.

Lemma float_of_int_small (z : Z) :
  (Z.abs z < 2 ^ 53)%Z -> float_of_int z = Returns (Finite (inject_Z z)).
Proof.
  intros Hz. unfold float_of_int. rewrite (nearest_binary64_small z Hz).
  assert (Hlt : (2 ^ 53 < 2 ^ 1024)%Z) by (apply Z.pow_lt_mono_r; lia).
  destruct (Z.leb_spec (2 ^ 1024) (Z.abs z)); [lia | reflexivity].
Qed.

(** C4 (amended): on every float, [round_kcal v == 0] exactly when [v <= 4], and a
    float above 4 is returned as it is; the same holds for an int of
    magnitude below 2^53, which [float] converts exactly. *)
Theorem round_kcal_py_threshold :
  (forall x : pyfloat,
     (number_eq (round_kcal_py (Float x)) (Int 0) = true <-> float_le x 4 = true) /\
     (float_gt x 4 = true ->
      round_kcal_py (Float x) = Float x /\
      number_eq (round_kcal_py (Float x)) (Float x) = true)) /\
  (forall z : Z,
     (Z.abs z < 2 ^ 53)%Z ->
     (number_eq (round_kcal_py (Int z)) (Int 0) = true <-> (z <= 4)%Z) /\
     ((4 < z)%Z -> number_eq (round_kcal_py (Int z)) (Int z) = true)).
Proof.
  split.
  - intros x. unfold round_kcal_py. cbn [float_of].
    destruct x as [q | | s |]; cbn [float_le float_gt].
    + unfold Qlt_bool. destruct (Qle_bool q 4) eqn:Hle; cbn [negb].
      * split; [split; reflexivity | discriminate].
      * apply Qle_bool_false_lt in Hle. split.
        -- cbn [number_eq float_value]. split; [| discriminate].
           intros H. apply Qeq_bool_iff in H. change (inject_Z 0) with 0 in H. lra.
        -- intros _. split; [reflexivity |].
           cbn [number_eq float_eq]. apply Qeq_bool_iff. reflexivity.
    + split; [split; reflexivity | discriminate].
    + destruct s; cbn [negb].
      * split; [split; reflexivity | discriminate].
      * split; [split; discriminate | intros _; split; reflexivity].
    + split; [split; discriminate | discriminate].
  - intros z Hz. unfold round_kcal_py. cbn [float_of].
    rewrite (float_of_int_small z Hz). cbn [float_le].
    destruct (Qle_bool (inject_Z z) 4) eqn:Hle.
    + apply Qle_bool_iff in Hle. change 4 with (inject_Z 4) in Hle.
      rewrite <- Zle_Qle in Hle.
      split; [split; [intros _; exact Hle | reflexivity] | intros; lia].
    + apply Qle_bool_false_lt in Hle. change 4 with (inject_Z 4) in Hle.
      rewrite <- Zlt_Qlt in Hle. split.
      * cbn [number_eq float_value]. split; [| intros; lia].
        intros H. apply Qeq_bool_iff in H. rewrite inject_Z_injective in H. lia.
      * intros _. cbn [number_eq float_value]. apply Qeq_bool_iff. reflexivity.
Qed.

(** Not on every int: 2^53 + 1 is above 4 and comes back as the float 2^53,
    which is not equal to it; 10^400 is above 4 and comes back as 0, because
    the [OverflowError] of [float] is caught. *)
Theorem round_kcal_py_large_ints :
  ((4 < 2 ^ 53 + 1)%Z /\
   round_kcal_py (Int (2 ^ 53 + 1)) = Float (Finite (inject_Z (2 ^ 53))) /\
   number_eq (round_kcal_py (Int (2 ^ 53 + 1))) (Int (2 ^ 53 + 1)) = false) /\
  ((4 < 10 ^ 400)%Z /\ round_kcal_py (Int (10 ^ 400)) = Int 0).
Proof. vm_compute. repeat split; reflexivity. Qed.

(** ** Formatting *)

Lemma digit_ended_intro (s : string) :
  ends_with_digit s = true -> digit_ended (Returns s).
Proof. intros H. exists s. split; [reflexivity | exact H]. Qed.

Lemma format_float_ends_digit (D : nat) (x : pyfloat) :
  float_value x <> None -> ends_with_digit (format_float D x) = true.
Proof.
  destruct x as [q | | s |]; cbn; intros H; try congruence.
  - apply format_fixed_ends_digit.
  - apply ends_with_digit_append, format_fixed_ends_digit.
Qed.

Lemma is_integer_trunc (q : Q) : is_integer q = true -> Qtrunc q = Qfloor q.
Proof.
  unfold is_integer. intros H. apply Qeq_bool_iff in H.
  apply Qtrunc_inject_Z. symmetry. exact H.
Qed.

Lemma float_of_int_raises (z : Z) (e : py_exn) :
  float_of_int z = Raises e -> e = OverflowError /\ z <> 0%Z.
Proof.
  unfold float_of_int. intros H.
  destruct (2 ^ 1024 <=? Z.abs (nearest_binary64 z))%Z eqn:E; [| discriminate].
  injection H as <-. split; [reflexivity |].
  intros ->. vm_compute in E. discriminate.
Qed.

Lemma float_of_int_finite (z : Z) (x : pyfloat) :
  float_of_int z = Returns x -> exists q, x = Finite q.
Proof.
  unfold float_of_int. intros H.
  destruct (2 ^ 1024 <=? Z.abs (nearest_binary64 z))%Z; [discriminate |].
  injection H as <-. eexists. reflexivity.
Qed.

(** X7: what the formatters print.  [fmt_int] always prints a string that
    ends with a decimal digit.  The others do so on every finite float, the
    negative zero included, and on every int that [float] accepts:
    stripping never leaves a dangling point, a bare sign or nothing.  On NaN
    they print "nan"; on an infinity [fmt_art9] raises [OverflowError] and
    the others print "inf" or "-inf"; on an int too large for a float
    [fmt_kcal] raises [OverflowError] and the others print "0". *)
Theorem formats_end_with_digit_unless_special (v : number) (is_micro : bool) :
  ends_with_digit (fmt_int_py v) = true /\
  match float_of v with
  | Returns (Finite _) | Returns NegZero =>
      digit_ended (fmt_art9_py v is_micro) /\
      digit_ended (fmt_kcal_py v) /\
      digit_ended (fmt_one_decimal_py v) /\
      digit_ended (fmt_carbs_rule_py v) /\
      digit_ended (fmt_default_g_py v)
  | Returns NaN =>
      fmt_art9_py v is_micro = Returns "nan" /\
      fmt_kcal_py v = Returns "nan" /\
      fmt_one_decimal_py v = Returns "nan" /\
      fmt_carbs_rule_py v = Returns "nan" /\
      fmt_default_g_py v = Returns "nan"
  | Returns (Infinite negative) =>
      let text := if negative then "-inf" else "inf" in
      fmt_art9_py v is_micro = Raises OverflowError /\
      fmt_kcal_py v = Returns text /\
      fmt_one_decimal_py v = Returns text /\
      fmt_carbs_rule_py v = Returns text /\
      fmt_default_g_py v = Returns text
  | Raises _ =>
      fmt_art9_py v is_micro = Returns "0" /\
      fmt_kcal_py v = Raises OverflowError /\
      fmt_one_decimal_py v = Returns "0" /\
      fmt_carbs_rule_py v = Returns "0" /\
      fmt_default_g_py v = Returns "0"
  end.
Proof.
  split.
  { unfold fmt_int_py. destruct (float_of v) as [x | e]; cbn [eval_bind]; [| reflexivity].
    destruct x as [q | | s |]; cbn [round_to_int]; try reflexivity.
    apply str_of_Z_ends_digit. }
  destruct v as [z | x].
  - (* an int *)
    cbn [float_of]. destruct (float_of_int z) as [x | e] eqn:Hf.
    + destruct (float_of_int_finite z x Hf) as [q ->].
      unfold fmt_art9_py, fmt_kcal_py, fmt_one_decimal_py, fmt_carbs_rule_py,
        fmt_default_g_py.
      cbn [float_of]. rewrite Hf.
      cbn [eval_bind float_abs float_ge float_is_integer int_of_float round_to_int
           format_float number_eq].
      repeat split.
      * repeat match goal with
               | |- context [if ?b then _ else _] => destruct b
               end;
          apply digit_ended_intro;
          first [apply str_of_Z_ends_digit | apply stripped_ends_digit
                | apply format_fixed_ends_digit].
      * destruct (z =? 0)%Z; apply digit_ended_intro;
          [reflexivity | apply stripped_ends_digit].
      * destruct (is_integer q); apply digit_ended_intro;
          [apply str_of_Z_ends_digit | apply format_fixed_ends_digit].
      * destruct (is_integer q); apply digit_ended_intro;
          [apply str_of_Z_ends_digit | apply format_fixed_ends_digit].
      * destruct (is_integer q); apply digit_ended_intro;
          [apply str_of_Z_ends_digit | apply stripped_ends_digit].
    + destruct (float_of_int_raises z e Hf) as [-> Hz].
      unfold fmt_art9_py, fmt_kcal_py, fmt_one_decimal_py, fmt_carbs_rule_py,
        fmt_default_g_py.
      cbn [float_of number_eq]. rewrite Hf.
      destruct (Z.eqb_spec z 0); [contradiction |].
      repeat split.
  - (* a float *)
    cbn [float_of].
    destruct x as [q | | s |].
    + unfold fmt_art9_py, fmt_kcal_py, fmt_one_decimal_py, fmt_carbs_rule_py,
        fmt_default_g_py.
      cbn [float_of eval_bind float_abs float_ge float_is_integer int_of_float
           round_to_int format_float number_eq float_value].
      repeat split.
      * repeat match goal with
               | |- context [if ?b then _ else _] => destruct b
               end;
          apply digit_ended_intro;
          first [apply str_of_Z_ends_digit | apply stripped_ends_digit
                | apply format_fixed_ends_digit].
      * destruct (Qeq_bool q (inject_Z 0)); apply digit_ended_intro;
          [reflexivity | apply stripped_ends_digit].
      * destruct (is_integer q); apply digit_ended_intro;
          [apply str_of_Z_ends_digit | apply format_fixed_ends_digit].
      * destruct (is_integer q); apply digit_ended_intro;
          [apply str_of_Z_ends_digit | apply format_fixed_ends_digit].
      * destruct (is_integer q); apply digit_ended_intro;
          [apply str_of_Z_ends_digit | apply stripped_ends_digit].
    + destruct is_micro; (split; [| split; [| split; [| split]]]);
        (eexists; split; [reflexivity | reflexivity]).
    + destruct s; repeat split.
    + destruct is_micro; repeat split.
Qed.

(** X8: a whole number is printed without decimals by [fmt_kcal],
    [fmt_one_decimal], [fmt_carbs_rule], [fmt_default_g] and [fmt_int], and
    by [fmt_art9] unless it is zero.  The negative zero is printed as "0" by
    the first five; [fmt_art9] prints zero as "0.0" and the negative zero as
    "-0.0", or "0.00" and "-0.00" for a micronutrient. *)
Theorem whole_numbers_print_bare (z : Z) (is_micro : bool) :
  let v := Float (Finite (inject_Z z)) in
  (fmt_kcal_py v = Returns (str_of_Z z) /\
   fmt_one_decimal_py v = Returns (str_of_Z z) /\
   fmt_carbs_rule_py v = Returns (str_of_Z z) /\
   fmt_default_g_py v = Returns (str_of_Z z) /\
   fmt_int_py v = str_of_Z z /\
   (z <> 0%Z -> fmt_art9_py v is_micro = Returns (str_of_Z z))) /\
  (fmt_kcal_py (Float NegZero) = Returns "0" /\
   fmt_one_decimal_py (Float NegZero) = Returns "0" /\
   fmt_carbs_rule_py (Float NegZero) = Returns "0" /\
   fmt_default_g_py (Float NegZero) = Returns "0" /\
   fmt_int_py (Float NegZero) = "0") /\
  fmt_art9_py (Float (Finite 0)) is_micro
  = Returns (if is_micro then "0.00" else "0.0") /\
  fmt_art9_py (Float NegZero) is_micro
  = Returns (if is_micro then "-0.00" else "-0.0").
Proof.
  cbv zeta. split; [| split; [repeat split | split; destruct is_micro; reflexivity]].
  assert (Htr : Qtrunc (inject_Z z) = z) by (apply Qtrunc_inject_Z; reflexivity).
  unfold fmt_kcal_py, fmt_one_decimal_py, fmt_carbs_rule_py, fmt_default_g_py,
    fmt_int_py, fmt_art9_py.
  cbn [float_of eval_bind float_abs float_ge float_is_integer int_of_float
       round_to_int format_float number_eq float_value].
  rewrite is_integer_inject_Z, Htr, py_round_inject_Z, format_fixed_1_whole.
  rewrite (strip_zero_point_whole _ (str_of_Z_ends_digit z)).
  split; [| split; [| split; [| split; [| split]]]]; try reflexivity.
  - destruct (Qeq_bool (inject_Z z) (inject_Z 0)) eqn:E; [| reflexivity].
    apply Qeq_bool_iff in E. rewrite inject_Z_injective in E. subst z. reflexivity.
  - intros Hz.
    destruct (Qle_bool 1000 (Qabs (inject_Z z))); [reflexivity |].
    destruct (Qle_bool 100 (Qabs (inject_Z z))); [reflexivity |].
    destruct (Qle_bool 10 (Qabs (inject_Z z))); [reflexivity |].
    destruct (Qle_bool 1 (Qabs (inject_Z z))) eqn:E; [reflexivity |].
    exfalso. apply Qle_bool_false_lt in E.
    rewrite Qabs_inject_Z in E. change 1 with (inject_Z 1) in E.
    rewrite <- Zlt_Qlt in E. lia.
Qed.

(** ** The utilities of the module are those on every number, restricted

    On a finite float, and on an int below 2^53 in magnitude, the utilities
    of the first part return what the ones on every number return. *)

Lemma round_kcal_agrees (q : Q) :
  round_kcal_py (Float (Finite q)) = of_num (round_kcal q).
Proof.
  unfold round_kcal_py, round_kcal. cbn [float_of float_le].
  destruct (Qle_bool q 4); reflexivity.
Qed.

Lemma formatters_agree_on_finite (q : Q) (is_micro : bool) :
  fmt_art9_py (Float (Finite q)) is_micro = Returns (fmt_art9 (PyFloat q) is_micro) /\
  fmt_kcal_py (Float (Finite q)) = Returns (fmt_kcal (PyFloat q)) /\
  fmt_int_py (Float (Finite q)) = fmt_int (PyFloat q) /\
  fmt_one_decimal_py (Float (Finite q)) = Returns (fmt_one_decimal (PyFloat q)) /\
  fmt_carbs_rule_py (Float (Finite q)) = Returns (fmt_carbs_rule (PyFloat q)) /\
  fmt_default_g_py (Float (Finite q)) = Returns (fmt_default_g (PyFloat q)).
Proof.
  unfold fmt_art9_py, fmt_kcal_py, fmt_int_py, fmt_one_decimal_py, fmt_carbs_rule_py,
    fmt_default_g_py, fmt_art9, fmt_kcal, fmt_int, fmt_one_decimal, fmt_carbs_rule,
    fmt_default_g.
  cbn [float_of eval_bind float_abs float_ge float_is_integer int_of_float
       round_to_int format_float number_eq float_value to_float].
  split; [| split; [| split; [| split; [| split]]]].
  - repeat match goal with
           | |- context [if ?b then _ else _] => destruct b
           end; reflexivity.
  - change (inject_Z 0) with 0. destruct (Qeq_bool q 0); reflexivity.
  - reflexivity.
  - destruct (is_integer q) eqn:E; [| reflexivity].
    rewrite (is_integer_trunc q E). reflexivity.
  - destruct (is_integer q) eqn:E; [| reflexivity].
    rewrite (is_integer_trunc q E). reflexivity.
  - destruct (is_integer q) eqn:E; [| reflexivity].
    rewrite (is_integer_trunc q E). reflexivity.
Qed.

Lemma fmt_art9_agrees_on_int (z : Z) (is_micro : bool) :
  (Z.abs z < 2 ^ 53)%Z ->
  fmt_art9_py (Int z) is_micro = Returns (fmt_art9 (PyInt z) is_micro).
Proof.
  intros Hz. unfold fmt_art9_py. cbn [float_of]. rewrite (float_of_int_small z Hz).
  exact (proj1 (formatters_agree_on_finite (inject_Z z) is_micro)).
Qed.
